(** * Verification of the MongoDB persistence layer of the user service

    Source: [db/mongodb/mongodb.go].  The development embeds the identifier
    codec of the driver ([bson.ObjectId], [encoding/hex]), a model of the
    three collections the layer writes to, and the operations of the layer
    themselves, and then settles the properties of the aggregate
    create / hydrate / delete protocol. *)

From stdpp Require Import gmap strings list fin_maps.
From Stdlib Require Import NArith Ascii.
From Stdlib Require String.

(* ===================================================================== *)
(** * 1. Identifier codec                                                 *)
(* ===================================================================== *)

(** The layer converts identifiers with [bson.IsObjectIdHex],
    [bson.ObjectIdHex] and [ObjectId.Hex] of the driver, which rest on
    [encoding/hex].  Both packages are dependencies whose sources are not
    among the files at hand; the definitions of this section give them the
    behaviour sections 2 and 4.1 of the specification describe: an internal
    identifier of twelve bytes, an external hexadecimal string, a decoding
    that fails on a string of the wrong length or charset.

    Go strings are byte strings; [len] is the number of bytes. *)

(** ** encoding/hex *)
Module hex.

Definition hextable : string := "0123456789abcdef".

(** [hextable[n]] *)
Definition hexdigit (n : N) : ascii :=
  match String.get (N.to_nat n) hextable with
  | Some c => c
  | None => "0"%char
  end.

(** Modelled from the spec: [hex.EncodeToString], which is not in the
    sources; the external hexadecimal form of section 4.1.  Every byte [v]
    becomes [hextable[v>>4]], [hextable[v&0x0f]]. *)
Fixpoint EncodeToString (src : string) : string :=
  match src with
  | EmptyString => EmptyString
  | String b rest =>
      let v := N_of_ascii b in
      String (hexdigit (N.shiftr v 4))
        (String (hexdigit (N.land v 15)) (EncodeToString rest))
  end.

(** [fromHexChar]: the value of a hexadecimal digit, [None] for any other
    byte. *)
Definition fromHexChar (c : ascii) : option N :=
  let v := N_of_ascii c in
  if (48 <=? v)%N && (v <=? 57)%N then Some (v - 48)%N
  else if (97 <=? v)%N && (v <=? 102)%N then Some (v - 97 + 10)%N
  else if (65 <=? v)%N && (v <=? 70)%N then Some (v - 65 + 10)%N
  else None.

(** Modelled from the spec: [hex.DecodeString], which is not in the
    sources; the decoding of section 4.1, which fails on the wrong charset.
    [None] stands for the error result ([ErrLength] on an odd number of
    bytes, [InvalidByteError] on a byte that is no digit). *)
Fixpoint DecodeString (s : string) : option string :=
  match s with
  | EmptyString => Some EmptyString
  | String _ EmptyString => None
  | String p (String q rest) =>
      match fromHexChar p, fromHexChar q with
      | Some a, Some b =>
          match DecodeString rest with
          | Some d => Some (String (ascii_of_N (N.lor (N.shiftl a 4) b)) d)
          | None => None
          end
      | _, _ => None
      end
  end.

End hex.

(** ** bson.ObjectId *)
Module bson.

(** [type ObjectId string]: the raw bytes of the identifier, twelve of them
    for a valid one. *)
Definition ObjectId : Type := string.

(** Modelled from the spec: [id.Hex()], which is not in the sources; the
    [Encode] of section 4.1. *)
Definition Hex (id : ObjectId) : string := hex.EncodeToString id.

(** Modelled from the spec: [bson.IsObjectIdHex(s)], which is not in the
    sources; the well-formedness test of section 4.1 (length and charset):
    [len(s) == 24] and [hex.DecodeString(s)] succeeds. *)
Definition IsObjectIdHex (s : string) : bool :=
  if negb (String.length s =? 24)%nat then false
  else match hex.DecodeString s with
       | Some _ => true
       | None => false
       end.

(** Modelled from the spec: [bson.ObjectIdHex(s)], which is not in the
    sources; the [Decode] of section 4.1.  It panics unless [s] decodes to
    twelve bytes; [None] is the panic. *)
Definition ObjectIdHex (s : string) : option ObjectId :=
  match hex.DecodeString s with
  | Some d => if (String.length d =? 12)%nat then Some d else None
  | None => None
  end.

(** An identifier is valid when it has twelve bytes. *)
Definition Valid (id : ObjectId) : Prop := String.length id = 12%nat.

End bson.

(** The bytes of a string, as a list. *)
Fixpoint bytes (s : string) : list ascii :=
  match s with
  | EmptyString => []
  | String c r => c :: bytes r
  end.

(** A well-formed identifier string has 24 bytes, all hexadecimal digits;
    a malformed one has the wrong length or a byte that is no digit. *)
Definition malformed (s : string) : Prop :=
  String.length s ≠ 24%nat ∨ ∃ c, c ∈ bytes s ∧ hex.fromHexChar c = None.

(* ===================================================================== *)
(** * 2. Domain values and storage records                                *)
(* ===================================================================== *)

(** A Go [error] is modelled by its message ([err.Error()]); [nil] is
    [None]. *)
Definition error : Type := string.

(** [ErrInvalidHexID = errors.New("Invalid Id Hex")]; the operations that
    build the error in place use the same message. *)
Definition ErrInvalidHexID : error := "Invalid Id Hex".
(** [mgo.ErrNotFound] *)
Definition ErrNotFound : error := "not found".
(** The server's answer to a write that violates the unique index on
    [username] (created by [EnsureIndexes]). *)
Definition ErrDuplicateKey : error := "E11000 duplicate key error".

(** [fmt.Sprintf("%v", err)] *)
Definition fmt_v (e : option error) : string :=
  match e with
  | Some m => m
  | None => "<nil>"
  end.

(** A slice of cards or addresses is the address of its backing array, or
    [nil].  Nothing in the layer reslices, so offsets and capacities are not
    tracked: a slice spans its whole array. *)
Definition loc : Type := positive.
Definition slice : Type := option loc.

(** Modelled from the spec: the domain records of package [users], whose
    declarations are not part of the sources at hand.  Section 6: plain value
    records where the id field is an external string, empty meaning not yet
    persisted; the remaining fields are the postal, payment and profile
    fields, kept here as one opaque payload each. *)
Record Address := mkAddress { Address_Fields : string; Address_ID : string }.
Record Card := mkCard { Card_Fields : string; Card_ID : string }.
Record User := mkUser {
  Username : string;
  Profile : string;
  Addresses : slice;
  Cards : slice;
  UserID : string
}.

(** [MongoUser], [MongoAddress], [MongoCard]: the wrappers of the layer. *)
Record MongoUser := mkMongoUser {
  MongoUser_User : User;
  MongoUser_ID : bson.ObjectId;
  AddressIDs : list bson.ObjectId;
  CardIDs : list bson.ObjectId
}.
Record MongoAddress := mkMongoAddress {
  MongoAddress_Address : Address;
  MongoAddress_ID : bson.ObjectId
}.
Record MongoCard := mkMongoCard {
  MongoCard_Card : Card;
  MongoCard_ID : bson.ObjectId
}.

(** Modelled from the spec: the persisted layout (section 6).  A document is
    keyed by its internal identifier; a customer document carries the domain
    fields and the two lists of internal identifiers; the external id string
    and the nested values of a domain record are not persisted. *)
Record UserDoc := mkUserDoc {
  doc_username : string;
  doc_profile : string;
  doc_addresses : list bson.ObjectId;
  doc_cards : list bson.ObjectId
}.

Definition marshalUser (mu : MongoUser) : UserDoc :=
  {| doc_username := Username (MongoUser_User mu);
     doc_profile := Profile (MongoUser_User mu);
     doc_addresses := AddressIDs mu;
     doc_cards := CardIDs mu |}.

(** Unmarshalling a customer document found under [id] into [mu]: the fields
    that are not persisted keep the value they have in [mu]. *)
Definition unmarshalUser (id : bson.ObjectId) (d : UserDoc) (mu : MongoUser)
  : MongoUser :=
  {| MongoUser_User :=
       {| Username := doc_username d;
          Profile := doc_profile d;
          Addresses := Addresses (MongoUser_User mu);
          Cards := Cards (MongoUser_User mu);
          UserID := UserID (MongoUser_User mu) |};
     MongoUser_ID := id;
     AddressIDs := doc_addresses d;
     CardIDs := doc_cards d |}.

(** An address or card document found under [id], unmarshalled into a zero
    wrapper. *)
Definition unmarshalAddress (kv : bson.ObjectId * string) : MongoAddress :=
  {| MongoAddress_Address := {| Address_Fields := kv.2; Address_ID := "" |};
     MongoAddress_ID := kv.1 |}.
Definition unmarshalCard (kv : bson.ObjectId * string) : MongoCard :=
  {| MongoCard_Card := {| Card_Fields := kv.2; Card_ID := "" |};
     MongoCard_ID := kv.1 |}.

(* ===================================================================== *)
(** * 3. The world: collections, process memory, environment              *)
(* ===================================================================== *)

(** The calls the layer makes on the driver. *)
Inductive Op :=
| OpUpsertId (coll : string) (id : bson.ObjectId)
| OpRemoveAll (coll : string) (ids : list bson.ObjectId)
| OpUpdate (sel : bson.ObjectId) (modifier attr : string) (v : bson.ObjectId)
| OpUpdateAll (modifier attr : string) (v : bson.ObjectId)
| OpRemove (coll : string) (id : bson.ObjectId)
| OpFindId (coll : string) (id : bson.ObjectId)
| OpFindIn (coll : string) (ids : list bson.ObjectId).

(** - [customers], [addresses], [cards]: the three collections, and [others]:
      the identifiers held by any other collection of the database;
    - [cardMem], [addrMem]: the backing arrays of the slices of the
      process;
    - [faults]: what the store does to the coming calls, one entry per call:
      [Some e] makes the call fail with [e] and change nothing, [None] (or an
      exhausted list) lets it through;
    - [idsrc], [idpos]: the identifiers [bson.NewObjectId] hands out;
    - [oplog]: every call made on the driver, with its error result. *)
Record World := mkWorld {
  customers : gmap bson.ObjectId UserDoc;
  addresses : gmap bson.ObjectId string;
  cards : gmap bson.ObjectId string;
  others : gmap string (gset bson.ObjectId);
  cardMem : gmap loc (list Card);
  addrMem : gmap loc (list Address);
  faults : list (option error);
  idsrc : nat → N;
  idpos : nat;
  oplog : list (Op * option error)
}.

Definition set_customers (m : gmap bson.ObjectId UserDoc) (w : World) : World :=
  mkWorld m (addresses w) (cards w) (others w) (cardMem w) (addrMem w)
    (faults w) (idsrc w) (idpos w) (oplog w).
Definition set_addresses (m : gmap bson.ObjectId string) (w : World) : World :=
  mkWorld (customers w) m (cards w) (others w) (cardMem w) (addrMem w)
    (faults w) (idsrc w) (idpos w) (oplog w).
Definition set_cards (m : gmap bson.ObjectId string) (w : World) : World :=
  mkWorld (customers w) (addresses w) m (others w) (cardMem w) (addrMem w)
    (faults w) (idsrc w) (idpos w) (oplog w).
Definition set_others (m : gmap string (gset bson.ObjectId)) (w : World) : World :=
  mkWorld (customers w) (addresses w) (cards w) m (cardMem w) (addrMem w)
    (faults w) (idsrc w) (idpos w) (oplog w).
Definition set_cardMem (m : gmap loc (list Card)) (w : World) : World :=
  mkWorld (customers w) (addresses w) (cards w) (others w) m (addrMem w)
    (faults w) (idsrc w) (idpos w) (oplog w).
Definition set_addrMem (m : gmap loc (list Address)) (w : World) : World :=
  mkWorld (customers w) (addresses w) (cards w) (others w) (cardMem w) m
    (faults w) (idsrc w) (idpos w) (oplog w).
Definition set_faults (fs : list (option error)) (w : World) : World :=
  mkWorld (customers w) (addresses w) (cards w) (others w) (cardMem w)
    (addrMem w) fs (idsrc w) (idpos w) (oplog w).
Definition set_idpos (n : nat) (w : World) : World :=
  mkWorld (customers w) (addresses w) (cards w) (others w) (cardMem w)
    (addrMem w) (faults w) (idsrc w) n (oplog w).
Definition set_oplog (l : list (Op * option error)) (w : World) : World :=
  mkWorld (customers w) (addresses w) (cards w) (others w) (cardMem w)
    (addrMem w) (faults w) (idsrc w) (idpos w) l.

(** ** The monad of the operations

    An operation runs in a world and either returns a value and the world it
    leaves, or panics.  Go's [error] results are ordinary values. *)
Inductive Res (A : Type) : Type :=
| Ok (a : A) (w : World)
| Panic (msg : string) (w : World).
Arguments Ok {A} a w.
Arguments Panic {A} msg w.

Definition M (A : Type) : Type := World → Res A.

Definition ret {A} (a : A) : M A := λ w, Ok a w.
Definition bind {A B} (c : M A) (k : A → M B) : M B :=
  λ w, match c w with
       | Ok a w' => k a w'
       | Panic m w' => Panic m w'
       end.
Definition panic {A} (msg : string) : M A := λ w, Panic msg w.

Notation "'do' x <- c ; k" := (bind c (λ x, k))
  (at level 10, x name, c at level 100, k at level 200).
Notation "'do' ' p <- c ; k" := (bind c (λ x, match x with p => k end))
  (at level 10, p pattern, c at level 100, k at level 200).

(** ** Process memory *)

Definition read_cards (s : slice) (w : World) : list Card :=
  match s with
  | Some l => default [] (cardMem w !! l)
  | None => []
  end.
Definition read_addrs (s : slice) (w : World) : list Address :=
  match s with
  | Some l => default [] (addrMem w !! l)
  | None => []
  end.

(** A slice over a fresh backing array holding [cs] ([make] followed by the
    [append]s that fill it). *)
Definition new_cards (cs : list Card) : M slice :=
  λ w, let l := fresh (dom (cardMem w)) in
       Ok (Some l) (set_cardMem (<[l := cs]> (cardMem w)) w).
Definition new_addrs (xs : list Address) : M slice :=
  λ w, let l := fresh (dom (addrMem w)) in
       Ok (Some l) (set_addrMem (<[l := xs]> (addrMem w)) w).

(** [cs[k].ID = v] and [as[k].ID = v]: a store through the slice into its
    backing array; an index out of range panics. *)
Definition store_card_ID (cs : slice) (k : nat) (v : string) : M unit :=
  λ w, match cs with
       | Some l =>
           match cardMem w !! l with
           | Some arr =>
               match arr !! k with
               | Some c =>
                   Ok tt (set_cardMem
                            (<[l := <[k := mkCard (Card_Fields c) v]> arr]>
                               (cardMem w)) w)
               | None => Panic "index out of range" w
               end
           | None => Panic "index out of range" w
           end
       | None => Panic "index out of range" w
       end.
Definition store_addr_ID (xs : slice) (k : nat) (v : string) : M unit :=
  λ w, match xs with
       | Some l =>
           match addrMem w !! l with
           | Some arr =>
               match arr !! k with
               | Some a =>
                   Ok tt (set_addrMem
                            (<[l := <[k := mkAddress (Address_Fields a) v]> arr]>
                               (addrMem w)) w)
               | None => Panic "index out of range" w
               end
           | None => Panic "index out of range" w
           end
       | None => Panic "index out of range" w
       end.

(** ** The driver

    The collections are reached through the driver ([gopkg.in/mgo.v2]),
    whose sources are not among the files at hand.  Its calls are given the
    behaviour of the entity store of section 4.2 of the specification. *)

(** Modelled from the spec: the failure of a call on the store, which the
    missing driver reports.  Section 4.2: any failure (network, encoding,
    server-side) is returned unchanged to the caller, and nothing is
    retried.  Every call consumes one entry of [faults] and is entered in
    [oplog] with its error result; a call that fails this way changes
    nothing. *)
Definition next_fault (w : World) : option error * World :=
  (default None (head (faults w)), set_faults (tail (faults w)) w).

Definition record (op : Op) (r : option error) (w : World) : World :=
  set_oplog (oplog w ++ [(op, r)]) w.

Definition db_write (op : Op) (run : World → option error * World)
  : M (option error) :=
  λ w, let '(f, w1) := next_fault w in
       match f with
       | Some e => Ok (Some e) (record op (Some e) w1)
       | None => let '(r, w2) := run w1 in Ok r (record op r w2)
       end.

Definition err_of {A} (r : A + error) : option error :=
  match r with
  | inl _ => None
  | inr e => Some e
  end.

Definition db_read {A} (op : Op) (run : World → A + error) : M (A + error) :=
  λ w, let '(f, w1) := next_fault w in
       match f with
       | Some e => Ok (inr e) (record op (Some e) w1)
       | None => Ok (run w1) (record op (err_of (run w1)) w1)
       end.

(** Modelled from the spec: [c.UpsertId(id, doc)] of the missing driver.
    Section 4.2 and the glossary: insert-or-replace keyed by identifier;
    section 3: the username is unique across all users, server-enforced, so
    the upsert of a customer is refused when another document already holds
    the username. *)
Definition upsert_customer (id : bson.ObjectId) (d : UserDoc) (w : World)
  : option error * World :=
  if bool_decide (map_Exists
       (λ k d', k ≠ id ∧ doc_username d' = doc_username d) (customers w))
  then (Some ErrDuplicateKey, w)
  else (None, set_customers (<[id := d]> (customers w)) w).

Definition UpsertId_customers (id : bson.ObjectId) (mu : MongoUser)
  : M (option error) :=
  db_write (OpUpsertId "customers" id) (upsert_customer id (marshalUser mu)).

Definition UpsertId_cards (id : bson.ObjectId) (mc : MongoCard)
  : M (option error) :=
  db_write (OpUpsertId "cards" id)
    (λ w, (None,
           set_cards (<[id := Card_Fields (MongoCard_Card mc)]> (cards w)) w)).

Definition UpsertId_addresses (id : bson.ObjectId) (ma : MongoAddress)
  : M (option error) :=
  db_write (OpUpsertId "addresses" id)
    (λ w, (None,
           set_addresses
             (<[id := Address_Fields (MongoAddress_Address ma)]> (addresses w))
             w)).

(** Modelled from the spec: the removals of the missing driver, section
    4.2 ([Remove(id)], [RemoveMany(idSet)]).  The collection
    [s.DB("").C(coll)] without the documents whose [_id] is in [ids]. *)
Definition coll_remove (coll : string) (ids : list bson.ObjectId) (w : World)
  : World :=
  if String.eqb coll "customers" then
    set_customers (foldr delete (customers w) ids) w
  else if String.eqb coll "addresses" then
    set_addresses (foldr delete (addresses w) ids) w
  else if String.eqb coll "cards" then
    set_cards (foldr delete (cards w) ids) w
  else
    set_others (alter (λ s, s ∖ list_to_set ids) coll (others w)) w.

(** Is there a document with this [_id] in the collection? *)
Definition coll_has (coll : string) (id : bson.ObjectId) (w : World) : bool :=
  if String.eqb coll "customers" then bool_decide (is_Some (customers w !! id))
  else if String.eqb coll "addresses" then
    bool_decide (is_Some (addresses w !! id))
  else if String.eqb coll "cards" then bool_decide (is_Some (cards w !! id))
  else bool_decide (id ∈ default ∅ (others w !! coll)).

(** Modelled from the spec: [c.RemoveAll(bson.M{"_id": bson.M{"$in":
    ids}})] of the missing driver; the [RemoveMany(idSet)] of section 4.2. *)
Definition RemoveAll (coll : string) (ids : list bson.ObjectId)
  : M (option error) :=
  db_write (OpRemoveAll coll ids) (λ w, (None, coll_remove coll ids w)).

(** Modelled from the spec: [c.Remove(bson.M{"_id": id})] of the missing
    driver; the [Remove(id)] of section 4.2, with the driver's [ErrNotFound]
    when nothing matches. *)
Definition Remove (coll : string) (id : bson.ObjectId) : M (option error) :=
  db_write (OpRemove coll id)
    (λ w, if coll_has coll id w then (None, coll_remove coll [id] w)
          else (Some ErrNotFound, w)).

(** Modelled from the spec: the update operators of the store on an array
    of identifiers.  Section 4.4: a set-union update (re-adding an existing
    id is a no-op on the contents), and the removal of an id from the
    array. *)
Definition addToSet (v : bson.ObjectId) (l : list bson.ObjectId)
  : list bson.ObjectId :=
  if bool_decide (v ∈ l) then l else l ++ [v].
Definition pull (v : bson.ObjectId) (l : list bson.ObjectId)
  : list bson.ObjectId :=
  filter (λ x, x ≠ v) l.

(** An update of the field [attr] of a customer document.  The two reference
    arrays are the fields the model tracks; an update of any other field
    leaves the tracked part of the document as it is. *)
Definition modify_refs (attr : string)
    (f : list bson.ObjectId → list bson.ObjectId) (d : UserDoc) : UserDoc :=
  if String.eqb attr "addresses" then
    mkUserDoc (doc_username d) (doc_profile d) (f (doc_addresses d))
      (doc_cards d)
  else if String.eqb attr "cards" then
    mkUserDoc (doc_username d) (doc_profile d) (doc_addresses d)
      (f (doc_cards d))
  else d.

(** Modelled from the spec: [c.Update(bson.M{"_id": sel}, bson.M{modifier:
    bson.M{attr: v}})] of the missing driver, on [customers]; the update of
    one user document of section 4.4, with the driver's [ErrNotFound] when
    no document matches. *)
Definition Update_customers (sel : bson.ObjectId) (modifier attr : string)
    (v : bson.ObjectId) (f : list bson.ObjectId → list bson.ObjectId)
  : M (option error) :=
  db_write (OpUpdate sel modifier attr v)
    (λ w, match customers w !! sel with
          | Some d =>
              (None,
               set_customers (<[sel := modify_refs attr f d]> (customers w)) w)
          | None => (Some ErrNotFound, w)
          end).

(** Modelled from the spec: [c.UpdateAll(bson.M{}, bson.M{modifier:
    bson.M{attr: v}})] of the missing driver, on [customers]; the update
    across every user document of section 4.5. *)
Definition UpdateAll_customers (modifier attr : string) (v : bson.ObjectId)
    (f : list bson.ObjectId → list bson.ObjectId) : M (option error) :=
  db_write (OpUpdateAll modifier attr v)
    (λ w, (None, set_customers (modify_refs attr f <$> customers w) w)).

(** Modelled from the spec: [c.FindId(id).One(&doc)] of the missing
    driver.  Section 4.2: [FindByID(id) -> record | NotFound]. *)
Definition FindId_customers (id : bson.ObjectId) : M (UserDoc + error) :=
  db_read (OpFindId "customers" id)
    (λ w, match customers w !! id with
          | Some d => inl d
          | None => inr ErrNotFound
          end).
Definition FindId_cards (id : bson.ObjectId) : M (string + error) :=
  db_read (OpFindId "cards" id)
    (λ w, match cards w !! id with
          | Some d => inl d
          | None => inr ErrNotFound
          end).
Definition FindId_addresses (id : bson.ObjectId) : M (string + error) :=
  db_read (OpFindId "addresses" id)
    (λ w, match addresses w !! id with
          | Some d => inl d
          | None => inr ErrNotFound
          end).

(** Modelled from the spec: [c.Find(bson.M{"_id": bson.M{"$in":
    ids}}).All(&docs)] of the missing driver.  Section 4.3: one batched
    membership query per collection; the documents of the collection whose
    [_id] is one of [ids]. *)
Definition docs_in (ids : list bson.ObjectId) (m : gmap bson.ObjectId string)
  : list (bson.ObjectId * string) :=
  filter (λ kv, kv.1 ∈ ids) (map_to_list m).

Definition FindIn_addresses (ids : list bson.ObjectId)
  : M (list (bson.ObjectId * string) + error) :=
  db_read (OpFindIn "addresses" ids) (λ w, inl (docs_in ids (addresses w))).
Definition FindIn_cards (ids : list bson.ObjectId)
  : M (list (bson.ObjectId * string) + error) :=
  db_read (OpFindIn "cards" ids) (λ w, inl (docs_in ids (cards w))).

(** The [n] low bytes of [v], most significant first. *)
Fixpoint be_bytes (n : nat) (v : N) : string :=
  match n with
  | O => EmptyString
  | S k =>
      String (ascii_of_N (N.land (N.shiftr v (8 * N.of_nat k)) 255))
        (be_bytes k v)
  end.

(** Modelled from the spec: [bson.NewObjectId()], which is not in the
    sources.  Section 3: an opaque, store-generated identifier; twelve
    bytes, drawn from the environment. *)
Definition NewObjectId : M bson.ObjectId :=
  λ w, Ok (be_bytes 12 (idsrc w (idpos w))) (set_idpos (S (idpos w)) w).

(** [bson.ObjectIdHex(s)] as a step of an operation. *)
Definition ObjectIdHex (s : string) : M bson.ObjectId :=
  match bson.ObjectIdHex s with
  | Some id => ret id
  | None => panic "invalid input to ObjectIdHex"
  end.

(** ** Queries that name no identifier

    [GetUsers], [GetCards], [GetAddresses] and [GetUserByName] query a
    collection without naming an identifier.  Like every call, such a query
    consumes one entry of [faults] and fails without a result when the entry
    is an error; the log, whose entries are the identifier-based calls of
    the aggregate protocol, has no entry for it. *)
Definition db_scan {A} (run : World → A + error) : M (A + error) :=
  λ w, let '(f, w1) := next_fault w in
       match f with
       | Some e => Ok (inr e) w1
       | None => Ok (run w1) w1
       end.

(** Modelled from the spec: [c.Find(nil).All(&docs)] of the missing driver:
    every document of the collection, in the order the store yields them
    (section 4.2, [FindAll() -> sequence of records]). *)
Definition FindAll_customers : M (list (bson.ObjectId * UserDoc) + error) :=
  db_scan (λ w, inl (map_to_list (customers w))).
Definition FindAll_cards : M (list (bson.ObjectId * string) + error) :=
  db_scan (λ w, inl (map_to_list (cards w))).
Definition FindAll_addresses : M (list (bson.ObjectId * string) + error) :=
  db_scan (λ w, inl (map_to_list (addresses w))).

(** Modelled from the spec: [c.Find(bson.M{"username": name}).One(&doc)] of
    the missing driver (section 4.2, [FindAll(filter?)], and the fetch by
    username of section 4.3): the first document the store yields whose
    username is [name], and the driver's [ErrNotFound] when there is
    none. *)
Definition FindOne_username (name : string)
  : M (bson.ObjectId * UserDoc + error) :=
  db_scan (λ w, match list_find (λ kv, doc_username kv.2 = name)
                        (map_to_list (customers w)) with
                | Some (_, kv) => inl kv
                | None => inr ErrNotFound
                end).

(* ===================================================================== *)
(** * 4. The operations of the layer                                      *)
(* ===================================================================== *)

(** An operation that receives a pointer to a domain value ([u *users.User],
    [ca *users.Card], [a *users.Address]) takes the value pointed to and
    returns, next to its error, the value the pointer holds when it returns.
    The connection leases ([Session.Copy], [Close]) and the tracing spans
    have no part in the results and are left out. *)

(** Modelled from the spec: [users.New()], the empty domain value that is
    not yet persisted, with two empty (non-nil) slices. *)
Definition users_New : M User :=
  do a <- new_addrs [];
  do c <- new_cards [];
  ret (mkUser "" "" a c "").

Module mongodb.

(** [New] *)
Definition New : M MongoUser :=
  do u <- users_New;
  ret (mkMongoUser u "" [] []).

(** [append(s, xs...)] on a slice without spare capacity: the result lives
    in a fresh backing array; nothing is appended for an empty [xs]. *)
Definition append_addrs (s : slice) (xs : list Address) : M slice :=
  match xs with
  | [] => ret s
  | _ => λ w, new_addrs (read_addrs s w ++ xs) w
  end.
Definition append_cards (s : slice) (xs : list Card) : M slice :=
  match xs with
  | [] => ret s
  | _ => λ w, new_cards (read_cards s w ++ xs) w
  end.

(** [(mu *MongoUser) AddUserIDs] *)
Definition AddUserIDs (mu : MongoUser) : M MongoUser :=
  let u := MongoUser_User mu in
  do a0 <- match Addresses u with
           | None => new_addrs []
           | Some _ => ret (Addresses u)
           end;
  do a <- append_addrs a0
            (map (λ id, mkAddress "" (bson.Hex id)) (AddressIDs mu));
  do c0 <- match Cards u with
           | None => new_cards []
           | Some _ => ret (Cards u)
           end;
  do c <- append_cards c0 (map (λ id, mkCard "" (bson.Hex id)) (CardIDs mu));
  ret (mkMongoUser
         (mkUser (Username u) (Profile u) a c (bson.Hex (MongoUser_ID mu)))
         (MongoUser_ID mu) (AddressIDs mu) (CardIDs mu)).

(** [(m *MongoAddress) AddID], [(m *MongoCard) AddID] *)
Definition MongoAddress_AddID (m : MongoAddress) : MongoAddress :=
  mkMongoAddress
    (mkAddress (Address_Fields (MongoAddress_Address m))
       (bson.Hex (MongoAddress_ID m)))
    (MongoAddress_ID m).
Definition MongoCard_AddID (m : MongoCard) : MongoCard :=
  mkMongoCard
    (mkCard (Card_Fields (MongoCard_Card m)) (bson.Hex (MongoCard_ID m)))
    (MongoCard_ID m).

(** The loop of [createCards]: [elems] are the elements of [cs] still to
    visit, [k] the index of the first of them. *)
Fixpoint createCards_range (cs : slice) (k : nat) (elems : list Card)
    (ids : list bson.ObjectId) : M (list bson.ObjectId * option error) :=
  match elems with
  | [] => ret (ids, None)
  | ca :: rest =>
      do id <- NewObjectId;
      let mc := mkMongoCard ca id in
      do err <- UpsertId_cards (MongoCard_ID mc) mc;
      match err with
      | Some e => ret (ids, Some e)
      | None =>
          do _ <- store_card_ID cs k (bson.Hex id);
          createCards_range cs (S k) rest (ids ++ [id])
      end
  end.

(** [createCards] *)
Definition createCards (cs : slice) : M (list bson.ObjectId * option error) :=
  λ w, createCards_range cs 0 (read_cards cs w) [] w.

Fixpoint createAddresses_range (xs : slice) (k : nat) (elems : list Address)
    (ids : list bson.ObjectId) : M (list bson.ObjectId * option error) :=
  match elems with
  | [] => ret (ids, None)
  | a :: rest =>
      do id <- NewObjectId;
      let ma := mkMongoAddress a id in
      do err <- UpsertId_addresses (MongoAddress_ID ma) ma;
      match err with
      | Some e => ret (ids, Some e)
      | None =>
          do _ <- store_addr_ID xs k (bson.Hex id);
          createAddresses_range xs (S k) rest (ids ++ [id])
      end
  end.

(** [createAddresses] *)
Definition createAddresses (xs : slice)
  : M (list bson.ObjectId * option error) :=
  λ w, createAddresses_range xs 0 (read_addrs xs w) [] w.

(** [cleanAttributes] *)
Definition cleanAttributes (mu : MongoUser) : M (option error) :=
  do _ <- RemoveAll "addresses" (AddressIDs mu);
  do err <- RemoveAll "cards" (CardIDs mu);
  ret err.

(** [CreateUser] *)
Definition CreateUser (u : User) : M (User * option error) :=
  do id <- NewObjectId;
  do mu0 <- New;
  (* mu.User = *u; mu.ID = id *)
  do '(cids, carderr) <- createCards (Cards u);
  do '(aids, addrerr) <- createAddresses (Addresses u);
  let mu := mkMongoUser u id aids cids in
  do err <- UpsertId_customers (MongoUser_ID mu) mu;
  match err with
  | Some e =>
      do _ <- cleanAttributes mu;
      ret (u, Some e)
  | None =>
      (* mu.User.UserID = mu.ID.Hex() *)
      let mu_User :=
        mkUser (Username u) (Profile u) (Addresses u) (Cards u) (bson.Hex id) in
      (* Cheap err for attributes *)
      match carderr, addrerr with
      | None, None =>
          (* *u = mu.User *)
          ret (mu_User, None)
      | _, _ => ret (u, Some (fmt_v carderr +:+ " " +:+ fmt_v addrerr))
      end
  end.

(** [appendAttributeId] *)
Definition appendAttributeId (attr : string) (id : bson.ObjectId)
    (userid : string) : M (option error) :=
  do uid <- ObjectIdHex userid;
  Update_customers uid "$addToSet" attr id (addToSet id).

(** [removeAttributeId] *)
Definition removeAttributeId (attr : string) (id : bson.ObjectId)
    (userid : string) : M (option error) :=
  do uid <- ObjectIdHex userid;
  Update_customers uid "$pull" attr id (pull id).

(** [GetUser] *)
Definition GetUser (id : string) : M (User * option error) :=
  if negb (bson.IsObjectIdHex id) then
    do u <- users_New;
    ret (u, Some "Invalid Id Hex")
  else
    do mu <- New;
    do oid <- ObjectIdHex id;
    do r <- FindId_customers oid;
    let mu := match r with
              | inl d => unmarshalUser oid d mu
              | inr _ => mu
              end in
    do mu <- AddUserIDs mu;
    ret (MongoUser_User mu, err_of r).

(** The loops of [GetUserAttributes] that turn the reference strings into
    identifiers: the first malformed string ends the operation with
    [ErrInvalidHexID]. *)
Fixpoint checked_ids (refs : list string) (ids : list bson.ObjectId)
  : M (list bson.ObjectId + error) :=
  match refs with
  | [] => ret (inl ids)
  | s :: rest =>
      if negb (bson.IsObjectIdHex s) then ret (inr ErrInvalidHexID)
      else
        do id <- ObjectIdHex s;
        checked_ids rest (ids ++ [id])
  end.

(** [GetUserAttributes] *)
Definition GetUserAttributes (u : User) : M (User * option error) :=
  (* Fetch addresses *)
  do refs <- (λ w, Ok (map Address_ID (read_addrs (Addresses u) w)) w);
  do r <- checked_ids refs [];
  match r with
  | inr e => ret (u, Some e)
  | inl ids =>
      do r <- FindIn_addresses ids;
      match r with
      | inr e => ret (u, Some e)
      | inl docs =>
          let ma := map unmarshalAddress docs in
          do na <- new_addrs
                     (map (λ a, mkAddress
                                  (Address_Fields (MongoAddress_Address a))
                                  (bson.Hex (MongoAddress_ID a))) ma);
          let u := mkUser (Username u) (Profile u) na (Cards u) (UserID u) in
          (* Fetch cards *)
          do refs <- (λ w, Ok (map Card_ID (read_cards (Cards u) w)) w);
          do r <- checked_ids refs [];
          match r with
          | inr e => ret (u, Some e)
          | inl ids =>
              do r <- FindIn_cards ids;
              match r with
              | inr e => ret (u, Some e)
              | inl docs =>
                  let mc := map unmarshalCard docs in
                  do nc <- new_cards
                             (map (λ c, mkCard
                                          (Card_Fields (MongoCard_Card c))
                                          (bson.Hex (MongoCard_ID c))) mc);
                  ret (mkUser (Username u) (Profile u) (Addresses u) nc
                         (UserID u), None)
              end
          end
      end
  end.

(** [GetCard] *)
Definition GetCard (id : string) : M (Card * option error) :=
  if negb (bson.IsObjectIdHex id) then
    ret (mkCard "" "", Some "Invalid Id Hex")
  else
    do oid <- ObjectIdHex id;
    do r <- FindId_cards oid;
    let mc := match r with
              | inl d => unmarshalCard (oid, d)
              | inr _ => mkMongoCard (mkCard "" "") ""
              end in
    ret (MongoCard_Card (MongoCard_AddID mc), err_of r).

(** [GetAddress] *)
Definition GetAddress (id : string) : M (Address * option error) :=
  if negb (bson.IsObjectIdHex id) then
    ret (mkAddress "" "", Some "Invalid Id Hex")
  else
    do oid <- ObjectIdHex id;
    do r <- FindId_addresses oid;
    let ma := match r with
              | inl d => unmarshalAddress (oid, d)
              | inr _ => mkMongoAddress (mkAddress "" "") ""
              end in
    ret (MongoAddress_Address (MongoAddress_AddID ma), err_of r).

(** [CreateCard] *)
Definition CreateCard (ca : Card) (userid : string) : M (Card * option error) :=
  if negb (String.eqb userid "") && negb (bson.IsObjectIdHex userid) then
    ret (ca, Some "Invalid Id Hex")
  else
    do id <- NewObjectId;
    let mc := mkMongoCard ca id in
    do err <- UpsertId_cards (MongoCard_ID mc) mc;
    match err with
    | Some e => ret (ca, Some e)
    | None =>
        (* Address for anonymous user *)
        do err <- (if negb (String.eqb userid "")
                   then appendAttributeId "cards" (MongoCard_ID mc) userid
                   else ret None);
        match err with
        | Some e => ret (ca, Some e)
        | None => ret (MongoCard_Card (MongoCard_AddID mc), None)
        end
    end.

(** [CreateAddress] *)
Definition CreateAddress (a : Address) (userid : string)
  : M (Address * option error) :=
  if negb (String.eqb userid "") && negb (bson.IsObjectIdHex userid) then
    ret (a, Some "Invalid Id Hex")
  else
    do id <- NewObjectId;
    let ma := mkMongoAddress a id in
    do err <- UpsertId_addresses (MongoAddress_ID ma) ma;
    match err with
    | Some e => ret (a, Some e)
    | None =>
        (* Address for anonymous user *)
        do err <- (if negb (String.eqb userid "")
                   then appendAttributeId "addresses" (MongoAddress_ID ma) userid
                   else ret None);
        match err with
        | Some e => ret (a, Some e)
        | None => ret (MongoAddress_Address (MongoAddress_AddID ma), None)
        end
    end.

(** The loops of [Delete] that decode the references of the loaded user. *)
Fixpoint decoded_ids (refs : list string) (ids : list bson.ObjectId)
  : M (list bson.ObjectId) :=
  match refs with
  | [] => ret ids
  | s :: rest =>
      do id <- ObjectIdHex s;
      decoded_ids rest (ids ++ [id])
  end.

(** [Delete] *)
Definition Delete (entity id : string) : M (option error) :=
  if negb (bson.IsObjectIdHex id) then ret (Some "Invalid Id Hex")
  else
    do stop <-
      (if String.eqb entity "customers" then
         do '(u, err) <- GetUser id;
         match err with
         | Some e => ret (Some e)
         | None =>
             do arefs <- (λ w, Ok (map Address_ID (read_addrs (Addresses u) w)) w);
             do aids <- decoded_ids arefs [];
             do crefs <- (λ w, Ok (map Card_ID (read_cards (Cards u) w)) w);
             do cids <- decoded_ids crefs [];
             do _ <- RemoveAll "addresses" aids;
             do _ <- RemoveAll "cards" cids;
             ret None
         end
       else
         do oid <- ObjectIdHex id;
         do _ <- UpdateAll_customers "$pull" entity oid (pull oid);
         ret None);
    match stop with
    | Some e => ret (Some e)
    | None =>
        do oid <- ObjectIdHex id;
        do err <- Remove entity oid;
        ret err
    end.

(** [GetUserByName] *)
Definition GetUserByName (name : string) : M (User * option error) :=
  do mu <- New;
  do r <- FindOne_username name;
  let mu := match r with
            | inl kv => unmarshalUser kv.1 kv.2 mu
            | inr _ => mu
            end in
  do mu <- AddUserIDs mu;
  ret (MongoUser_User mu, err_of r).

(** The zero wrapper the driver unmarshals each customer document of a
    query into ([var mus []MongoUser]): its two slices are [nil]. *)
Definition zero_MongoUser : MongoUser :=
  mkMongoUser (mkUser "" "" None None "") "" [] [].

(** The loop of [GetUsers]; [us] is the slice of results built so far,
    given by its contents (it is handed to the caller and shared with
    nothing). *)
Fixpoint GetUsers_range (mus : list MongoUser) (us : list User)
  : M (list User) :=
  match mus with
  | [] => ret us
  | mu :: rest =>
      do mu <- AddUserIDs mu;
      GetUsers_range rest (us ++ [MongoUser_User mu])
  end.

(** [GetUsers] *)
Definition GetUsers : M (list User * option error) :=
  do r <- FindAll_customers;
  let mus := match r with
             | inl docs => map (λ kv, unmarshalUser kv.1 kv.2 zero_MongoUser) docs
             | inr _ => []
             end in
  do us <- GetUsers_range mus [];
  ret (us, err_of r).

(** [GetCards] *)
Definition GetCards : M (list Card * option error) :=
  do r <- FindAll_cards;
  let mcs := match r with
             | inl docs => map unmarshalCard docs
             | inr _ => []
             end in
  ret (foldl (λ cs mc, cs ++ [MongoCard_Card (MongoCard_AddID mc)]) [] mcs,
       err_of r).

(** [GetAddresses] *)
Definition GetAddresses : M (list Address * option error) :=
  do r <- FindAll_addresses;
  let mas := match r with
             | inl docs => map unmarshalAddress docs
             | inr _ => []
             end in
  ret (foldl (λ xs ma, xs ++ [MongoAddress_Address (MongoAddress_AddID ma)])
         [] mas,
       err_of r).

End mongodb.

(* ===================================================================== *)
(** * The endpoints of package api over the layer                         *)
(* ===================================================================== *)

Module api.

(** [GetRequest], [deleteRequest] *)
Record GetRequest := mkGetRequest {
  GetRequest_ID : string;
  GetRequest_Attr : string
}.
Record deleteRequest := mkdeleteRequest {
  deleteRequest_Entity : string;
  deleteRequest_ID : string
}.

(** What an [EmbedStruct] embeds: [usersResponse], [addressesResponse],
    [cardsResponse], or a value of any other type.  A slice held by a
    response is given by its contents at the time the response is built. *)
Inductive Embed :=
| usersResponse (Users : list User)
| addressesResponse (Addresses : list Address)
| cardsResponse (Cards : list Card)
| otherEmbed.

(** The dynamic values ([interface{}]) that requests, responses and log
    arguments are: the request and response types of the endpoints modelled
    here, the domain values, strings, integers and booleans; [VOther] is a
    value of any other type. *)
Inductive value :=
| VGetRequest (r : GetRequest)
| VdeleteRequest (r : deleteRequest)
| VEmbedStruct (e : Embed)
| VUser (u : User)
| VpostResponse (ID : string)
| VstatusResponse (Status : bool)
| VString (s : string)
| VInt (n : nat)
| VBool (b : bool)
| VOther.

(** [request.(GetRequest)], [request.(deleteRequest)]: a type assertion
    without the [ok] result panics on a value of another type. *)
Definition as_GetRequest (request : value) : M GetRequest :=
  match request with
  | VGetRequest r => ret r
  | _ => panic "interface conversion"
  end.
Definition as_deleteRequest (request : value) : M deleteRequest :=
  match request with
  | VdeleteRequest r => ret r
  | _ => panic "interface conversion"
  end.

(** The three [Get] cases of [appendRequestFields] up to the count of the
    results. *)
Definition append_id (logArgs : list value) (request : value)
  : M (list value) :=
  do req <- as_GetRequest request;
  let id := GetRequest_ID req in
  let id := if String.eqb id "" then "all" else id in
  ret (logArgs ++ [VString "id"; VString id]).

(** [appendRequestFields] *)
Definition appendRequestFields (logArgs : list value) (method : string)
    (request response : value) (err : option error) : M (list value) :=
  if String.eqb method "GetUsers" then
    do logArgs <- append_id logArgs request;
    match err with
    | None =>
        match response with
        | VEmbedStruct usersResp =>
            match usersResp with
            | usersResponse us =>
                ret (logArgs ++ [VString "result"; VInt (length us)])
            | _ => ret logArgs
            end
        | VUser user =>
            if negb (String.eqb (UserID user) "")
            then ret (logArgs ++ [VString "result"; VInt 1])
            else ret (logArgs ++ [VString "result"; VInt 0])
        | _ => ret logArgs
        end
    | Some _ => ret logArgs
    end
  else if String.eqb method "GetAddresses" then
    do logArgs <- append_id logArgs request;
    match err with
    | None =>
        match response with
        | VEmbedStruct (addressesResponse xs) =>
            ret (logArgs ++ [VString "result"; VInt (length xs)])
        | _ => ret logArgs
        end
    | Some _ => ret logArgs
    end
  else if String.eqb method "GetCards" then
    do logArgs <- append_id logArgs request;
    match err with
    | None =>
        match response with
        | VEmbedStruct (cardsResponse cs) =>
            ret (logArgs ++ [VString "result"; VInt (length cs)])
        | _ => ret logArgs
        end
    | Some _ => ret logArgs
    end
  else if String.eqb method "PostUser" || String.eqb method "PostAddress"
          || String.eqb method "PostCard" || String.eqb method "Register" then
    match err with
    | None =>
        match response with
        | VpostResponse id => ret (logArgs ++ [VString "result"; VString id])
        | _ => ret logArgs
        end
    | Some _ => ret logArgs
    end
  else if String.eqb method "Delete" then
    do req <- as_deleteRequest request;
    let logArgs :=
      logArgs ++ [VString "entity"; VString (deleteRequest_Entity req);
                  VString "id"; VString (deleteRequest_ID req)] in
    match err with
    | None =>
        match response with
        | VstatusResponse status =>
            ret (logArgs ++ [VString "result"; VBool status])
        | _ => ret logArgs
        end
    | Some _ => ret logArgs
    end
  else ret logArgs.

Section Endpoints.

(** [s.GetUsers] of the interface [Service] and [db.GetUserAttributes] of
    package [db], neither of which is among the sources: the endpoint is
    built over any implementation of them. *)
Variable s_GetUsers : string → M (list User * option error).
Variable db_GetUserAttributes : User → M (User * option error).

(** [MakeUserGetEndpoint]; the trace context has no part in the result. *)
Definition MakeUserGetEndpoint (request : value) : M (value * option error) :=
  do req <- as_GetRequest request;
  do '(usrs, err) <- s_GetUsers (GetRequest_ID req);
  if String.eqb (GetRequest_ID req) "" then
    ret (VEmbedStruct (usersResponse usrs), err)
  else
    match usrs with
    | [] =>
        if String.eqb (GetRequest_Attr req) "addresses" then
          ret (VEmbedStruct (addressesResponse []), err)
        else if String.eqb (GetRequest_Attr req) "cards" then
          ret (VEmbedStruct (cardsResponse []), err)
        else ret (VUser (mkUser "" "" None None ""), err)
    | user :: _ =>
        (* db.GetUserAttributes(&user): the error is dropped *)
        do '(user, _) <- db_GetUserAttributes user;
        if String.eqb (GetRequest_Attr req) "addresses" then
          λ w, Ok (VEmbedStruct
                     (addressesResponse (read_addrs (Addresses user) w)), err) w
        else if String.eqb (GetRequest_Attr req) "cards" then
          λ w, Ok (VEmbedStruct
                     (cardsResponse (read_cards (Cards user) w)), err) w
        else ret (VUser user, err)
    end.

End Endpoints.

End api.

(* ===================================================================== *)
(** * 5. Vocabulary of the statements                                     *)
(* ===================================================================== *)

(** The identifier [bson.NewObjectId] hands out at the [n]-th draw. *)
Definition gen (w : World) (n : nat) : bson.ObjectId :=
  be_bytes 12 (idsrc w n).

(** The part of the log a creation loop over [n] items writes when its
    first identifier is the [p]-th draw: one upsert per item, each under
    the next identifier, up to and including the first upsert that fails. *)
Inductive create_run (coll : string) (ids : nat → bson.ObjectId)
  : nat → nat → list (Op * option error) → Prop :=
| run_done p : create_run coll ids p 0 []
| run_fail p n e : create_run coll ids p (S n) [(OpUpsertId coll (ids p), Some e)]
| run_step p n tr :
    create_run coll ids (S p) n tr →
    create_run coll ids p (S n) ((OpUpsertId coll (ids p), None) :: tr).

(** The identifiers of the upserts into [coll] that succeeded, in the order
    of the log. *)
Definition created (coll : string) (tr : list (Op * option error))
  : list bson.ObjectId :=
  omap (λ entry, match entry with
                 | (OpUpsertId c id, None) =>
                     if String.eqb c coll then Some id else None
                 | _ => None
                 end) tr.

(** The error a creation loop returns: that of its last upsert. *)
Definition run_err (tr : list (Op * option error)) : option error :=
  match last tr with
  | Some (_, r) => r
  | None => None
  end.

(** The number of upserts into [coll] a log holds. *)
Definition is_upsert_into (coll : string) (entry : Op * option error) : bool :=
  match entry.1 with
  | OpUpsertId c _ => String.eqb c coll
  | _ => false
  end.
Definition upserts_into (coll : string) (tr : list (Op * option error)) : nat :=
  length (List.filter (is_upsert_into coll) tr).

(** The store lets the [i]-th coming call through. *)
Definition lets_through (i : nat) (w : World) : Prop :=
  ∀ e, faults w !! i ≠ Some (Some e).

(** The error of the first upsert into [coll] that failed, if any. *)
Definition failed (coll : string) (tr : list (Op * option error))
  : option error :=
  head (omap (λ entry, match entry with
                       | (OpUpsertId c _, Some e) =>
                           if String.eqb c coll then Some e else None
                       | _ => None
                       end) tr).

(** The reading of claim C1 under which no failure stops anything: every
    nested card and every nested address of the payload is attempted. *)
Definition every_nested_item_attempted (u : User) (w : World) : Prop :=
  ∀ r w', mongodb.CreateUser u w = Ok r w' →
    upserts_into "cards" (oplog w') =
      (upserts_into "cards" (oplog w) + length (read_cards (Cards u) w))%nat ∧
    upserts_into "addresses" (oplog w') =
      (upserts_into "addresses" (oplog w) +
       length (read_addrs (Addresses u) w))%nat.

(** The error and the log of a run, for the sample runs below. *)
Definition run_error {A} (r : Res (A * option error)) : option error :=
  match r with
  | Ok (_, e) _ => e
  | Panic _ _ => None
  end.
Definition run_log {A} (r : Res A) : list (Op * option error) :=
  match r with
  | Ok _ w => oplog w
  | Panic _ w => oplog w
  end.

(** The domain value [GetUserAttributes] builds from a document found
    under an identifier. *)
Definition hydrate_address (kv : bson.ObjectId * string) : Address :=
  mkAddress kv.2 (bson.Hex kv.1).
Definition hydrate_card (kv : bson.ObjectId * string) : Card :=
  mkCard kv.2 (bson.Hex kv.1).

(** The reference strings of the nested values of a user are well formed. *)
Definition address_refs_ok (u : User) (w : World) : Prop :=
  Forall (λ a, bson.IsObjectIdHex (Address_ID a) = true)
    (read_addrs (Addresses u) w).
Definition card_refs_ok (u : User) (w : World) : Prop :=
  Forall (λ c, bson.IsObjectIdHex (Card_ID c) = true)
    (read_cards (Cards u) w).

(** The reference array of a customer document that belongs to a nested
    collection. *)
Definition doc_refs (coll : string) (d : UserDoc) : list bson.ObjectId :=
  if String.eqb coll "addresses" then doc_addresses d
  else if String.eqb coll "cards" then doc_cards d
  else [].

(** [w'] differs from [w] in the memory of the process only. *)
Definition mem_only (w w' : World) : Prop :=
  customers w' = customers w ∧ addresses w' = addresses w ∧
  cards w' = cards w ∧ others w' = others w ∧ faults w' = faults w ∧
  idsrc w' = idsrc w ∧ idpos w' = idpos w ∧ oplog w' = oplog w.

(** The error of a call that addresses the user document under [oid] (the
    load of [GetUser], the link step of [CreateCard] and [CreateAddress]):
    that of the store, or [ErrNotFound] when no document has the
    identifier. *)
Definition find_result (oid : bson.ObjectId) (w : World) : option error :=
  match default None (head (faults w)) with
  | Some e => Some e
  | None =>
      match customers w !! oid with
      | Some _ => None
      | None => Some ErrNotFound
      end
  end.

(** The value an operation returns. *)
Definition run_result {A} (r : Res A) : option A :=
  match r with
  | Ok a _ => Some a
  | Panic _ _ => None
  end.

(** The error [CreateUser] builds from the errors of the two loops. *)
Definition partial_err (ce ae : option error) : option error :=
  match ce, ae with
  | None, None => None
  | _, _ => Some (fmt_v ce +:+ " " +:+ fmt_v ae)
  end.

(** What a creation loop leaves untouched, and how far it moves the
    environment, when [tr] is what it adds to the log. *)
Definition card_loop_frame (w w' : World) (tr : list (Op * option error))
  : Prop :=
  customers w' = customers w ∧ addresses w' = addresses w ∧
  others w' = others w ∧ addrMem w' = addrMem w ∧
  faults w' = drop (length tr) (faults w) ∧ idsrc w' = idsrc w ∧
  idpos w' = (idpos w + length tr)%nat ∧ oplog w' = oplog w ++ tr.
Definition addr_loop_frame (w w' : World) (tr : list (Op * option error))
  : Prop :=
  customers w' = customers w ∧ cards w' = cards w ∧
  others w' = others w ∧ cardMem w' = cardMem w ∧
  faults w' = drop (length tr) (faults w) ∧ idsrc w' = idsrc w ∧
  idpos w' = (idpos w + length tr)%nat ∧ oplog w' = oplog w ++ tr.

(** The identifiers of [n] consecutive draws, the first being the [p]-th. *)
Definition drawn (w : World) (p n : nat) : list bson.ObjectId :=
  map (gen w) (seq p n).

(** A collection after the upserts of the documents [kvs], in that order. *)
Definition insert_all {V} (kvs : list (bson.ObjectId * V))
    (m : gmap bson.ObjectId V) : gmap bson.ObjectId V :=
  foldl (λ m kv, <[kv.1 := kv.2]> m) m kvs.

(** The world a run leaves. *)
Definition run_world {A} (r : Res A) : World :=
  match r with
  | Ok _ w => w
  | Panic _ w => w
  end.

(** The document [GetUser] loads: the one stored under the identifier, when
    the store lets the call through. *)
Definition loaded (oid : bson.ObjectId) (w : World) : option UserDoc :=
  match find_result oid w with
  | None => customers w !! oid
  | Some _ => None
  end.

(** The store lets the next [k] calls through. *)
Definition quiet (k : nat) (w : World) : Prop :=
  ∀ i, (i < k)%nat → lets_through i w.

(** No stored user has the username. *)
Definition username_free (name : string) (w : World) : Prop :=
  ∀ k d, customers w !! k = Some d → doc_username d ≠ name.

(** The answer of the query by username: the document found, and the
    error. *)
Definition named (name : string) (w : World)
  : option (bson.ObjectId * UserDoc) :=
  match default None (head (faults w)) with
  | Some _ => None
  | None =>
      snd <$> list_find (λ kv, doc_username kv.2 = name)
                (map_to_list (customers w))
  end.

Definition name_result (name : string) (w : World) : option error :=
  match default None (head (faults w)) with
  | Some e => Some e
  | None =>
      match list_find (λ kv, doc_username kv.2 = name)
              (map_to_list (customers w)) with
      | Some _ => None
      | None => Some ErrNotFound
      end
  end.

(** What [GetUsers] makes of one stored document, in the memory of [w]. *)
Definition listed (w : World) (u : User) (kv : bson.ObjectId * UserDoc)
  : Prop :=
  UserID u = bson.Hex kv.1 ∧ Username u = doc_username kv.2 ∧
  Profile u = doc_profile kv.2 ∧
  read_addrs (Addresses u) w =
    map (λ id, mkAddress "" (bson.Hex id)) (doc_addresses kv.2) ∧
  read_cards (Cards u) w =
    map (λ id, mkCard "" (bson.Hex id)) (doc_cards kv.2).

(** The two slices of [u] have their backing arrays in the memory of [w]. *)
Definition allocated (w : World) (u : User) : Prop :=
  (∃ la, Addresses u = Some la ∧ is_Some (addrMem w !! la)) ∧
  (∃ lc, Cards u = Some lc ∧ is_Some (cardMem w !! lc)).

(** The keys of a list of log arguments, and whether the list is made of
    key/value pairs whose keys are strings. *)
Fixpoint log_keys (l : list api.value) : list api.value :=
  match l with
  | k :: _ :: rest => k :: log_keys rest
  | _ => []
  end.
Fixpoint keyvals (l : list api.value) : bool :=
  match l with
  | [] => true
  | api.VString _ :: _ :: rest => keyvals rest
  | _ => false
  end.

(** The response of [MakeUserGetEndpoint] for a user that was found: the
    part of [user] that [attr] selects. *)
Definition user_response (attr : string) (user : User) (w : World)
  : api.value :=
  if String.eqb attr "addresses" then
    api.VEmbedStruct (api.addressesResponse (read_addrs (Addresses user) w))
  else if String.eqb attr "cards" then
    api.VEmbedStruct (api.cardsResponse (read_cards (Cards user) w))
  else api.VUser user.

(** ** Sample worlds *)

(** An empty store and a process that holds two cards and one address, with
    the faults [fs] ahead. *)
Definition sample_world (fs : list (option error)) : World :=
  mkWorld ∅ ∅ ∅ ∅
    (<[5%positive := [mkCard "4111" ""; mkCard "5500" ""]]> ∅)
    (<[6%positive := [mkAddress "X" ""]]> ∅)
    fs (λ n, N.of_nat (S n)) 0 [].

Definition sample_user : User :=
  mkUser "alice" "" (Some 6%positive) (Some 5%positive) "".

(** A store that holds one address, and a process whose user value refers
    to that address and to an address that is not stored; its only card
    reference is malformed. *)
Definition stored_id : bson.ObjectId := be_bytes 12 1.
Definition orphan_id : bson.ObjectId := be_bytes 12 2.
Definition hydration_world (fs : list (option error)) : World :=
  mkWorld
    (<[be_bytes 12 9 := mkUserDoc "alice" "" [stored_id; orphan_id] []]> ∅)
    (<[stored_id := "X"]> ∅) ∅ ∅
    (<[5%positive := [mkCard "" "not-an-id"]]> ∅)
    (<[6%positive := [mkAddress "" (bson.Hex stored_id);
                      mkAddress "" (bson.Hex orphan_id)]]> ∅)
    fs (λ n, N.of_nat (S n)) 0 [].

(** A store with two users who share an address; the first also has a
    card.  The process holds a value of the first user that names the card
    twice and, next to the shared address, an address that is not stored. *)
Definition alice_id : bson.ObjectId := be_bytes 12 9.
Definition bob_id : bson.ObjectId := be_bytes 12 8.
Definition card_id : bson.ObjectId := be_bytes 12 3.
Definition shared_world (fs : list (option error)) : World :=
  mkWorld
    (<[alice_id := mkUserDoc "alice" "pa" [stored_id] [card_id]]>
       (<[bob_id := mkUserDoc "bob" "pb" [stored_id] []]> ∅))
    (<[stored_id := "X"]> ∅) (<[card_id := "4111"]> ∅) ∅
    (<[5%positive := [mkCard "" (bson.Hex card_id);
                      mkCard "" (bson.Hex card_id)]]> ∅)
    (<[6%positive := [mkAddress "" (bson.Hex stored_id);
                      mkAddress "" (bson.Hex orphan_id)]]> ∅)
    fs (λ n, N.of_nat (n + 20)) 0 [].
Definition shared_user : User :=
  mkUser "alice" "pa" (Some 6%positive) (Some 5%positive) (bson.Hex alice_id).

(** The process of [sample_world], with its two cards and its address, over
    a store where another user already has the username of [sample_user]. *)
Definition taken_world (fs : list (option error)) : World :=
  set_customers (<[bob_id := mkUserDoc "alice" "pb" [] []]> ∅)
    (sample_world fs).

(* ===================================================================== *)
(** * Theorems                                                            *)
(* ===================================================================== *)

(** ** The codec *)

Lemma byte_roundtrip (b : ascii) :
  let v := N_of_ascii b in
  hex.fromHexChar (hex.hexdigit (N.shiftr v 4)) = Some (N.shiftr v 4) ∧
  hex.fromHexChar (hex.hexdigit (N.land v 15)) = Some (N.land v 15) ∧
  ascii_of_N (N.lor (N.shiftl (N.shiftr v 4) 4) (N.land v 15)) = b.
Proof.
  destruct b as [[] [] [] [] [] [] [] []]; vm_compute; auto.
Qed.

Lemma decode_encode (x : string) :
  hex.DecodeString (hex.EncodeToString x) = Some x.
Proof.
  induction x as [|b x IH]; [reflexivity|].
  cbn [hex.EncodeToString hex.DecodeString].
  destruct (byte_roundtrip b) as (-> & -> & ->).
  by rewrite IH.
Qed.

Lemma length_encode (x : string) :
  String.length (hex.EncodeToString x) = (2 * String.length x)%nat.
Proof. induction x as [|b x IH]; simpl; [done | rewrite IH; lia]. Qed.

(** Induction on strings two bytes at a time, as [DecodeString] recurses. *)
Lemma string_pair_ind (P : string → Prop) :
  P EmptyString →
  (∀ c, P (String c EmptyString)) →
  (∀ p q r, P r → P (String p (String q r))) →
  ∀ s, P s.
Proof.
  intros H0 H1 H2 s.
  assert (P s ∧ ∀ c, P (String c s)) as [? _]; [|done].
  induction s as [|c s [IHs IHc]]; split; auto.
Qed.

Lemma length_decode (s d : string) :
  hex.DecodeString s = Some d → String.length s = (2 * String.length d)%nat.
Proof.
  revert d. induction s as [|c|p q r IH] using string_pair_ind; intros d.
  - intros [= <-]. done.
  - done.
  - cbn [hex.DecodeString].
    destruct (hex.fromHexChar p), (hex.fromHexChar q); try done.
    destruct (hex.DecodeString r) as [d'|]; [|done].
    intros [= <-]. simpl. rewrite (IH d' eq_refl). lia.
Qed.

(** [DecodeString] succeeds exactly on the strings of even length whose
    bytes are all hexadecimal digits. *)
Lemma decode_is_Some (s : string) :
  is_Some (hex.DecodeString s) ↔
  Nat.even (String.length s) = true ∧
  ∀ c, c ∈ bytes s → is_Some (hex.fromHexChar c).
Proof.
  induction s as [|c|p q r IH] using string_pair_ind.
  - split; [|by eauto]. intros _. split; [done|]. simpl.
    intros c Hc. by apply elem_of_nil in Hc.
  - split; [by intros [? [=]]|]. by intros [[=] _].
  - cbn [hex.DecodeString bytes String.length Nat.even]. split.
    + destruct (hex.fromHexChar p) as [a|] eqn:Hp; [|by intros [? [=]]].
      destruct (hex.fromHexChar q) as [b|] eqn:Hq; [|by intros [? [=]]].
      destruct (hex.DecodeString r) as [d|]; [|by intros [? [=]]].
      intros _. destruct IH as [IH _].
      destruct (IH (mk_is_Some _ _ eq_refl)) as [He Hall].
      split; [done|]. intros c Hc.
      apply elem_of_cons in Hc as [->|Hc]; [by rewrite Hp; eauto|].
      apply elem_of_cons in Hc as [->|Hc]; [by rewrite Hq; eauto|].
      by apply Hall.
    + intros [He Hall].
      destruct (Hall p) as [a ->]; [apply elem_of_cons; by left|].
      destruct (Hall q) as [b ->].
      { apply elem_of_cons; right. apply elem_of_cons; by left. }
      destruct IH as [_ IH].
      destruct IH as [d ->]; [|by eauto].
      split; [done|]. intros c Hc. apply Hall.
      apply elem_of_cons; right. by apply elem_of_cons; right.
Qed.

(** [IsObjectIdHex] accepts exactly the well-formed identifier strings. *)
Lemma IsObjectIdHex_false_iff (s : string) :
  bson.IsObjectIdHex s = false ↔ malformed s.
Proof.
  unfold bson.IsObjectIdHex, malformed.
  destruct (Nat.eqb_spec (String.length s) 24) as [Hlen|Hlen]; simpl.
  - destruct (hex.DecodeString s) as [d|] eqn:Hd.
    + split; [done|]. intros [?|(c & Hc & Hn)]; [done|].
      assert (is_Some (hex.DecodeString s)) as Hs by (rewrite Hd; eauto).
      apply decode_is_Some in Hs as [_ Hall].
      destruct (Hall c Hc) as [? ?]. congruence.
    + split; [|done]. intros _. right.
      destruct (decide (Forall (λ c, is_Some (hex.fromHexChar c)) (bytes s)))
        as [Hall|Hex].
      * assert (is_Some (hex.DecodeString s)) as [? ?]; [|congruence].
        apply decode_is_Some. split; [by rewrite Hlen|].
        by apply Forall_forall.
      * apply (not_Forall_Exists _) in Hex.
        apply Exists_exists in Hex as (c & Hc & Hn).
        exists c. split; [done|].
        destruct (hex.fromHexChar c) eqn:E; [|done].
        exfalso. apply Hn. rewrite E. eauto.
  - split; [auto|done].
Qed.

(** A string that [IsObjectIdHex] accepts decodes without a panic. *)
Lemma ObjectIdHex_of_IsObjectIdHex (s : string) :
  bson.IsObjectIdHex s = true →
  ∃ id, bson.ObjectIdHex s = Some id ∧ bson.Valid id.
Proof.
  unfold bson.IsObjectIdHex, bson.ObjectIdHex, bson.Valid.
  destruct (Nat.eqb_spec (String.length s) 24) as [Hlen|]; [simpl|done].
  destruct (hex.DecodeString s) as [d|] eqn:Hd; [|done]. intros _.
  apply length_decode in Hd.
  assert (String.length d = 12%nat) as Hl by lia.
  rewrite Hl. simpl. eauto.
Qed.

Lemma ObjectIdHex_Hex (x : bson.ObjectId) :
  bson.Valid x → bson.ObjectIdHex (bson.Hex x) = Some x.
Proof.
  unfold bson.ObjectIdHex, bson.Hex, bson.Valid. intros Hx.
  by rewrite decode_encode, Hx.
Qed.

Lemma IsObjectIdHex_Hex (x : bson.ObjectId) :
  bson.Valid x → bson.IsObjectIdHex (bson.Hex x) = true.
Proof.
  unfold bson.IsObjectIdHex, bson.Hex, bson.Valid. intros Hx.
  by rewrite length_encode, decode_encode, Hx.
Qed.

Lemma IsObjectIdHex_of_ObjectIdHex s id :
  bson.ObjectIdHex s = Some id → bson.IsObjectIdHex s = true ∧ bson.Valid id.
Proof.
  unfold bson.ObjectIdHex, bson.IsObjectIdHex, bson.Valid.
  destruct (hex.DecodeString s) as [d|] eqn:Hd; [|done].
  destruct (Nat.eqb_spec (String.length d) 12) as [Hl|]; [|done].
  intros [= <-]. apply length_decode in Hd. rewrite Hd, Hl. done.
Qed.

(** ** The driver and the process memory *)

(** A call that writes either fails on a fault of the store, or runs. *)
Lemma db_write_cases op run w :
  let w1 := set_faults (tail (faults w)) w in
  (∃ e, head (faults w) = Some (Some e) ∧
        db_write op run w = Ok (Some e) (record op (Some e) w1)) ∨
  (default None (head (faults w)) = None ∧
   db_write op run w = Ok (run w1).1 (record op (run w1).1 (run w1).2)).
Proof.
  unfold db_write, next_fault. simpl.
  destruct (head (faults w)) as [[e|]|] eqn:Hh; simpl.
  - left. eauto.
  - right. split; [done|]. by destruct (run _).
  - right. split; [done|]. by destruct (run _).
Qed.

Lemma alloc_nil_read {A} (m : gmap loc (list A)) (l : loc) :
  default [] (<[fresh (dom m) := []]> m !! l) = default [] (m !! l).
Proof.
  destruct (decide (l = fresh (dom m))) as [->|Hne].
  - rewrite lookup_insert_eq. simpl.
    assert (m !! fresh (dom m) = None) as ->; [|done].
    apply not_elem_of_dom, is_fresh.
  - by rewrite lookup_insert_ne.
Qed.

(** [New] allocates the two empty slices of [users.New] and nothing else. *)
Lemma New_run w :
  ∃ a c,
    mongodb.New w =
      Ok (mkMongoUser (mkUser "" "" a c "") "" [] [])
         (mkWorld (customers w) (addresses w) (cards w) (others w)
            (<[fresh (dom (cardMem w)) := []]> (cardMem w))
            (<[fresh (dom (addrMem w)) := []]> (addrMem w))
            (faults w) (idsrc w) (idpos w) (oplog w)).
Proof. eexists _, _. reflexivity. Qed.

(** [RemoveAll] fails only on a fault of the store; when it runs, the
    documents with the given identifiers are gone from the collection. *)
Lemma RemoveAll_eq coll ids w :
  let r := default None (head (faults w)) in
  let w1 := set_faults (tail (faults w)) w in
  RemoveAll coll ids w =
    Ok r (record (OpRemoveAll coll ids) r
            match r with
            | None => coll_remove coll ids w1
            | Some _ => w1
            end).
Proof.
  unfold RemoveAll, db_write, next_fault. simpl.
  by destruct (head (faults w)) as [[e|]|].
Qed.

(** The upsert of the user record fails on a fault of the store or on a
    taken username, and then changes nothing; otherwise the document is
    stored under its identifier. *)
Lemma UpsertId_customers_eq id mu w :
  let w1 := set_faults (tail (faults w)) w in
  ∃ r, UpsertId_customers id mu w =
    Ok r (record (OpUpsertId "customers" id) r
            match r with
            | None => set_customers (<[id := marshalUser mu]> (customers w)) w1
            | Some _ => w1
            end).
Proof.
  unfold UpsertId_customers, db_write, next_fault, upsert_customer. simpl.
  destruct (head (faults w)) as [[e|]|]; simpl.
  - by exists (Some e).
  - case_bool_decide; [by exists (Some ErrDuplicateKey) | by exists None].
  - case_bool_decide; [by exists (Some ErrDuplicateKey) | by exists None].
Qed.

Lemma cleanAttributes_eq mu w :
  let r1 := default None (head (faults w)) in
  let r2 := default None (head (tail (faults w))) in
  ∃ w',
    mongodb.cleanAttributes mu w = Ok r2 w' ∧
    oplog w' = oplog w ++ [(OpRemoveAll "addresses" (AddressIDs mu), r1);
                           (OpRemoveAll "cards" (CardIDs mu), r2)] ∧
    customers w' = customers w ∧ cardMem w' = cardMem w ∧
    addrMem w' = addrMem w ∧
    (r1 = None → ∀ id, id ∈ AddressIDs mu → addresses w' !! id = None) ∧
    (r2 = None → ∀ id, id ∈ CardIDs mu → cards w' !! id = None).
Proof.
  intros r1 r2. unfold mongodb.cleanAttributes, bind.
  rewrite RemoveAll_eq. fold r1. cbv beta iota zeta.
  destruct r1 eqn:E1; rewrite RemoveAll_eq; simpl; fold r2;
    (eexists; split; [reflexivity|]);
    destruct r2 eqn:E2; simpl; rewrite <- app_assoc;
    (split_and!; [done..| |]); intros; try done;
    by apply lookup_foldr_delete.
Qed.

(** ** The creation loops *)

Lemma run_err_cons_None op tr : run_err ((op, None) :: tr) = run_err tr.
Proof.
  unfold run_err. destruct tr as [|x tr]; [done|]. by rewrite last_cons_cons.
Qed.

Lemma drop_tail {A} (n : nat) (l : list A) : drop n (tail l) = drop (S n) l.
Proof. destruct l; simpl; [by destruct n | done]. Qed.

Lemma read_cards_lookup cs w k c :
  read_cards cs w !! k = Some c →
  ∃ l arr, cs = Some l ∧ cardMem w !! l = Some arr ∧ arr !! k = Some c.
Proof.
  destruct cs as [l|]; simpl; [|done].
  destruct (cardMem w !! l) as [arr|] eqn:E; simpl; [|done]. eauto.
Qed.

(** One turn of the loop of [createCards] whose upsert fails. *)
Lemma createCards_range_fail cs k ca rest ids w e :
  head (faults w) = Some (Some e) →
  mongodb.createCards_range cs k (ca :: rest) ids w =
    Ok (ids, Some e)
       (mkWorld (customers w) (addresses w) (cards w) (others w) (cardMem w)
          (addrMem w) (tail (faults w)) (idsrc w) (S (idpos w))
          (oplog w ++ [(OpUpsertId "cards" (gen w (idpos w)), Some e)])).
Proof.
  intros Hf. cbn [mongodb.createCards_range].
  unfold bind, NewObjectId, UpsertId_cards, db_write, next_fault.
  cbn [faults set_idpos]. rewrite Hf. reflexivity.
Qed.

(** One turn of the loop of [createCards] whose upsert goes through. *)
Lemma createCards_range_step l arr cs k ca rest ids w :
  default None (head (faults w)) = None →
  cs = Some l → cardMem w !! l = Some arr → arr !! k = Some ca →
  mongodb.createCards_range cs k (ca :: rest) ids w =
    mongodb.createCards_range cs (S k) rest (ids ++ [gen w (idpos w)])
       (mkWorld (customers w) (addresses w)
          (<[gen w (idpos w) := Card_Fields ca]> (cards w)) (others w)
          (<[l := <[k := mkCard (Card_Fields ca) (bson.Hex (gen w (idpos w)))]> arr]>
             (cardMem w))
          (addrMem w) (tail (faults w)) (idsrc w) (S (idpos w))
          (oplog w ++ [(OpUpsertId "cards" (gen w (idpos w)), None)])).
Proof.
  intros Hf -> Hl Hk. cbn [mongodb.createCards_range].
  unfold bind, NewObjectId, UpsertId_cards, db_write, next_fault.
  cbn [faults set_idpos]. rewrite Hf.
  unfold store_card_ID. cbn. rewrite Hl, Hk. reflexivity.
Qed.

Lemma createCards_range_run (elems : list Card) :
  ∀ cs k ids w,
  (∀ i c, elems !! i = Some c → read_cards cs w !! (k + i)%nat = Some c) →
  ∃ tr w',
    mongodb.createCards_range cs k elems ids w =
      Ok (ids ++ created "cards" tr, run_err tr) w' ∧
    create_run "cards" (gen w) (idpos w) (length elems) tr ∧
    card_loop_frame w w' tr ∧
    (∀ id, id ∈ created "cards" tr ∨ is_Some (cards w !! id) → is_Some (cards w' !! id)) ∧
    (∀ l, cs ≠ Some l → cardMem w' !! l = cardMem w !! l) ∧
    length (read_cards cs w') = length (read_cards cs w) ∧
    (∀ i, (i < k)%nat → read_cards cs w' !! i = read_cards cs w !! i) ∧
    (∀ i id c, created "cards" tr !! i = Some id → elems !! i = Some c →
       read_cards cs w' !! (k + i)%nat = Some (mkCard (Card_Fields c) (bson.Hex id))) ∧
    (∀ i, (length (created "cards" tr) ≤ i)%nat →
       read_cards cs w' !! (k + i)%nat = read_cards cs w !! (k + i)%nat).
Proof.
  induction elems as [|ca rest IH]; intros cs k ids w Hel.
  - exists [], w. simpl. unfold ret. rewrite app_nil_r.
    split_and!; auto.
    + apply run_done.
    + unfold card_loop_frame. rewrite Nat.add_0_r, app_nil_r, drop_0. auto 10.
    + intros id [H|H]; [by apply elem_of_nil in H | done].
    + intros i id c H. by rewrite lookup_nil in H.
  - destruct (default None (head (faults w))) as [e|] eqn:Hf.
    + (* the upsert fails: the loop returns *)
      assert (head (faults w) = Some (Some e)) as Hh.
      { destruct (head (faults w)) as [[?|]|]; simpl in Hf; congruence. }
      eexists [(OpUpsertId "cards" (gen w (idpos w)), Some e)], _.
      rewrite (createCards_range_fail _ _ _ _ _ _ e Hh).
      change (created "cards" [(OpUpsertId "cards" (gen w (idpos w)), Some e)])
        with (@nil bson.ObjectId).
      cbn [run_err last]. rewrite app_nil_r. split_and!.
      * reflexivity.
      * apply run_fail.
      * unfold card_loop_frame; simpl. rewrite Nat.add_1_r.
        split_and!; auto; by destruct (faults w).
      * intros id [H|H]; [by apply elem_of_nil in H | done].
      * done.
      * done.
      * done.
      * intros i id c H. by rewrite lookup_nil in H.
      * done.
    + (* the upsert goes through: the identifier is stored and the loop goes on *)
      destruct (read_cards_lookup cs w k ca) as (l & arr & -> & Hl & Hk).
      { rewrite <- (Nat.add_0_r k) at 1. by apply Hel. }
      rewrite (createCards_range_step l arr _ _ _ _ _ _ Hf eq_refl Hl Hk).
      set (id := gen w (idpos w)).
      match goal with |- context [mongodb.createCards_range _ _ _ _ ?x] =>
        set (w3 := x) end.
      assert (Hr3 : read_cards (Some l) w3 =
                    <[k := mkCard (Card_Fields ca) (bson.Hex id)]> arr).
      { unfold read_cards, w3. cbn [cardMem]. by rewrite lookup_insert_eq. }
      assert (Hr : read_cards (Some l) w = arr).
      { unfold read_cards. by rewrite Hl. }
      destruct (IH (Some l) (S k) (ids ++ [id]) w3)
        as (tr & w' & Hrun & Hcr & Hfr & Hcards & Hmem & Hlen & Hlow & Hset & Hhigh).
      { intros i c Hi. rewrite Hr3, list_lookup_insert_ne by lia.
        rewrite <- Hr. replace (S k + i)%nat with (k + S i)%nat by lia.
        by apply Hel. }
      exists ((OpUpsertId "cards" id, None) :: tr), w'.
      rewrite Hrun, run_err_cons_None.
      change (created "cards" ((OpUpsertId "cards" id, None) :: tr))
        with (id :: created "cards" tr).
      rewrite <- app_assoc. split_and!.
      * done.
      * apply run_step. exact Hcr.
      * destruct Hfr as (? & ? & ? & ? & Hfa & ? & Hp & Hlog).
        unfold card_loop_frame. split_and!; try done.
        -- rewrite Hfa. unfold w3; cbn [faults]. apply drop_tail.
        -- rewrite Hp. unfold w3; cbn [idpos length]. lia.
        -- rewrite Hlog. unfold w3; cbn [oplog]. by rewrite <- app_assoc.
      * intros x Hx. apply Hcards. unfold w3; cbn [cards].
        destruct (decide (x = id)) as [->|Hne].
        -- right. rewrite lookup_insert_eq. eauto.
        -- destruct Hx as [Hx|Hx].
           ++ apply elem_of_cons in Hx as [?|?]; [done|by left].
           ++ right. by rewrite lookup_insert_ne.
      * intros l' Hne. rewrite (Hmem l' Hne). unfold w3; cbn [cardMem].
        apply lookup_insert_ne. congruence.
      * rewrite Hlen, Hr3, Hr. apply length_insert.
      * intros i Hi. rewrite Hlow by lia. rewrite Hr3, Hr.
        apply list_lookup_insert_ne. lia.
      * intros [|i] x c Hx Hc; simpl in Hx, Hc.
        -- injection Hx as <-. injection Hc as <-.
           rewrite Hlow by lia. rewrite Hr3.
           rewrite Nat.add_0_r. apply list_lookup_insert_eq.
           by apply lookup_lt_Some in Hk.
        -- replace (k + S i)%nat with (S k + i)%nat by lia.
           by apply (Hset i x c).
      * intros [|i] Hi; simpl in Hi; [lia|].
        replace (k + S i)%nat with (S k + i)%nat by lia.
        rewrite (Hhigh i) by lia.
        rewrite Hr3, Hr. apply list_lookup_insert_ne. lia.
Qed.

Lemma read_addrs_lookup cs w k c :
  read_addrs cs w !! k = Some c →
  ∃ l arr, cs = Some l ∧ addrMem w !! l = Some arr ∧ arr !! k = Some c.
Proof.
  destruct cs as [l|]; simpl; [|done].
  destruct (addrMem w !! l) as [arr|] eqn:E; simpl; [|done]. eauto.
Qed.

(** One turn of the loop of [createAddresses] whose upsert fails. *)
Lemma createAddresses_range_fail cs k ca rest ids w e :
  head (faults w) = Some (Some e) →
  mongodb.createAddresses_range cs k (ca :: rest) ids w =
    Ok (ids, Some e)
       (mkWorld (customers w) (addresses w) (cards w) (others w) (cardMem w)
          (addrMem w) (tail (faults w)) (idsrc w) (S (idpos w))
          (oplog w ++ [(OpUpsertId "addresses" (gen w (idpos w)), Some e)])).
Proof.
  intros Hf. cbn [mongodb.createAddresses_range].
  unfold bind, NewObjectId, UpsertId_addresses, db_write, next_fault.
  cbn [faults set_idpos]. rewrite Hf. reflexivity.
Qed.

(** One turn of the loop of [createAddresses] whose upsert goes through. *)
Lemma createAddresses_range_step l arr cs k ca rest ids w :
  default None (head (faults w)) = None →
  cs = Some l → addrMem w !! l = Some arr → arr !! k = Some ca →
  mongodb.createAddresses_range cs k (ca :: rest) ids w =
    mongodb.createAddresses_range cs (S k) rest (ids ++ [gen w (idpos w)])
       (mkWorld (customers w)
          (<[gen w (idpos w) := Address_Fields ca]> (addresses w)) (cards w)
          (others w) (cardMem w)
          (<[l := <[k := mkAddress (Address_Fields ca)
                           (bson.Hex (gen w (idpos w)))]> arr]>
             (addrMem w))
          (tail (faults w)) (idsrc w) (S (idpos w))
          (oplog w ++ [(OpUpsertId "addresses" (gen w (idpos w)), None)])).
Proof.
  intros Hf -> Hl Hk. cbn [mongodb.createAddresses_range].
  unfold bind, NewObjectId, UpsertId_addresses, db_write, next_fault.
  cbn [faults set_idpos]. rewrite Hf.
  unfold store_addr_ID. cbn. rewrite Hl, Hk. reflexivity.
Qed.

Lemma createAddresses_range_run (elems : list Address) :
  ∀ cs k ids w,
  (∀ i c, elems !! i = Some c → read_addrs cs w !! (k + i)%nat = Some c) →
  ∃ tr w',
    mongodb.createAddresses_range cs k elems ids w =
      Ok (ids ++ created "addresses" tr, run_err tr) w' ∧
    create_run "addresses" (gen w) (idpos w) (length elems) tr ∧
    addr_loop_frame w w' tr ∧
    (∀ id, id ∈ created "addresses" tr ∨ is_Some (addresses w !! id) → is_Some (addresses w' !! id)) ∧
    (∀ l, cs ≠ Some l → addrMem w' !! l = addrMem w !! l) ∧
    length (read_addrs cs w') = length (read_addrs cs w) ∧
    (∀ i, (i < k)%nat → read_addrs cs w' !! i = read_addrs cs w !! i) ∧
    (∀ i id c, created "addresses" tr !! i = Some id → elems !! i = Some c →
       read_addrs cs w' !! (k + i)%nat = Some (mkAddress (Address_Fields c) (bson.Hex id))) ∧
    (∀ i, (length (created "addresses" tr) ≤ i)%nat →
       read_addrs cs w' !! (k + i)%nat = read_addrs cs w !! (k + i)%nat).
Proof.
  induction elems as [|ca rest IH]; intros cs k ids w Hel.
  - exists [], w. simpl. unfold ret. rewrite app_nil_r.
    split_and!; auto.
    + apply run_done.
    + unfold addr_loop_frame. rewrite Nat.add_0_r, app_nil_r, drop_0. auto 10.
    + intros id [H|H]; [by apply elem_of_nil in H | done].
    + intros i id c H. by rewrite lookup_nil in H.
  - destruct (default None (head (faults w))) as [e|] eqn:Hf.
    + (* the upsert fails: the loop returns *)
      assert (head (faults w) = Some (Some e)) as Hh.
      { destruct (head (faults w)) as [[?|]|]; simpl in Hf; congruence. }
      eexists [(OpUpsertId "addresses" (gen w (idpos w)), Some e)], _.
      rewrite (createAddresses_range_fail _ _ _ _ _ _ e Hh).
      change (created "addresses" [(OpUpsertId "addresses" (gen w (idpos w)), Some e)])
        with (@nil bson.ObjectId).
      cbn [run_err last]. rewrite app_nil_r. split_and!.
      * reflexivity.
      * apply run_fail.
      * unfold addr_loop_frame; simpl. rewrite Nat.add_1_r.
        split_and!; auto; by destruct (faults w).
      * intros id [H|H]; [by apply elem_of_nil in H | done].
      * done.
      * done.
      * done.
      * intros i id c H. by rewrite lookup_nil in H.
      * done.
    + (* the upsert goes through: the identifier is stored and the loop goes on *)
      destruct (read_addrs_lookup cs w k ca) as (l & arr & -> & Hl & Hk).
      { rewrite <- (Nat.add_0_r k) at 1. by apply Hel. }
      rewrite (createAddresses_range_step l arr _ _ _ _ _ _ Hf eq_refl Hl Hk).
      set (id := gen w (idpos w)).
      match goal with |- context [mongodb.createAddresses_range _ _ _ _ ?x] =>
        set (w3 := x) end.
      assert (Hr3 : read_addrs (Some l) w3 =
                    <[k := mkAddress (Address_Fields ca) (bson.Hex id)]> arr).
      { unfold read_addrs, w3. cbn [addrMem]. by rewrite lookup_insert_eq. }
      assert (Hr : read_addrs (Some l) w = arr).
      { unfold read_addrs. by rewrite Hl. }
      destruct (IH (Some l) (S k) (ids ++ [id]) w3)
        as (tr & w' & Hrun & Hcr & Hfr & Hcards & Hmem & Hlen & Hlow & Hset & Hhigh).
      { intros i c Hi. rewrite Hr3, list_lookup_insert_ne by lia.
        rewrite <- Hr. replace (S k + i)%nat with (k + S i)%nat by lia.
        by apply Hel. }
      exists ((OpUpsertId "addresses" id, None) :: tr), w'.
      rewrite Hrun, run_err_cons_None.
      change (created "addresses" ((OpUpsertId "addresses" id, None) :: tr))
        with (id :: created "addresses" tr).
      rewrite <- app_assoc. split_and!.
      * done.
      * apply run_step. exact Hcr.
      * destruct Hfr as (? & ? & ? & ? & Hfa & ? & Hp & Hlog).
        unfold addr_loop_frame. split_and!; try done.
        -- rewrite Hfa. unfold w3; cbn [faults]. apply drop_tail.
        -- rewrite Hp. unfold w3; cbn [idpos length]. lia.
        -- rewrite Hlog. unfold w3; cbn [oplog]. by rewrite <- app_assoc.
      * intros x Hx. apply Hcards. unfold w3; cbn [addresses].
        destruct (decide (x = id)) as [->|Hne].
        -- right. rewrite lookup_insert_eq. eauto.
        -- destruct Hx as [Hx|Hx].
           ++ apply elem_of_cons in Hx as [?|?]; [done|by left].
           ++ right. by rewrite lookup_insert_ne.
      * intros l' Hne. rewrite (Hmem l' Hne). unfold w3; cbn [addrMem].
        apply lookup_insert_ne. congruence.
      * rewrite Hlen, Hr3, Hr. apply length_insert.
      * intros i Hi. rewrite Hlow by lia. rewrite Hr3, Hr.
        apply list_lookup_insert_ne. lia.
      * intros [|i] x c Hx Hc; simpl in Hx, Hc.
        -- injection Hx as <-. injection Hc as <-.
           rewrite Hlow by lia. rewrite Hr3.
           rewrite Nat.add_0_r. apply list_lookup_insert_eq.
           by apply lookup_lt_Some in Hk.
        -- replace (k + S i)%nat with (S k + i)%nat by lia.
           by apply (Hset i x c).
      * intros [|i] Hi; simpl in Hi; [lia|].
        replace (k + S i)%nat with (S k + i)%nat by lia.
        rewrite (Hhigh i) by lia.
        rewrite Hr3, Hr. apply list_lookup_insert_ne. lia.
Qed.

(** ** CreateUser, step by step *)

Lemma CreateUser_run u w :
  let uid := gen w (idpos w) in
  ∃ ctr atr r post u' err w',
    mongodb.CreateUser u w = Ok (u', err) w' ∧
    create_run "cards" (gen w) (S (idpos w))
      (length (read_cards (Cards u) w)) ctr ∧
    create_run "addresses" (gen w) (S (idpos w) + length ctr)
      (length (read_addrs (Addresses u) w)) atr ∧
    oplog w' = oplog w ++ ctr ++ atr ++ (OpUpsertId "customers" uid, r) :: post ∧
    (∀ i id c, created "cards" ctr !! i = Some id →
       read_cards (Cards u) w !! i = Some c →
       read_cards (Cards u) w' !! i = Some (mkCard (Card_Fields c) (bson.Hex id))) ∧
    (∀ i, length (created "cards" ctr) ≤ i →
       read_cards (Cards u) w' !! i = read_cards (Cards u) w !! i) ∧
    (∀ i id a, created "addresses" atr !! i = Some id →
       read_addrs (Addresses u) w !! i = Some a →
       read_addrs (Addresses u) w' !! i =
         Some (mkAddress (Address_Fields a) (bson.Hex id))) ∧
    (∀ i, length (created "addresses" atr) ≤ i →
       read_addrs (Addresses u) w' !! i = read_addrs (Addresses u) w !! i) ∧
    match r with
    | Some e =>
        err = Some e ∧ u' = u ∧ customers w' = customers w ∧
        ∃ r1 r2,
          post = [(OpRemoveAll "addresses" (created "addresses" atr), r1);
                  (OpRemoveAll "cards" (created "cards" ctr), r2)] ∧
          (r1 = None → ∀ id, id ∈ created "addresses" atr → addresses w' !! id = None) ∧
          (r2 = None → ∀ id, id ∈ created "cards" ctr → cards w' !! id = None)
    | None =>
        post = [] ∧
        err = partial_err (run_err ctr) (run_err atr) ∧
        u' = match err with
             | None => mkUser (Username u) (Profile u) (Addresses u) (Cards u)
                         (bson.Hex uid)
             | Some _ => u
             end ∧
        customers w' =
          <[uid := mkUserDoc (Username u) (Profile u)
                     (created "addresses" atr) (created "cards" ctr)]>
            (customers w) ∧
        (∀ id, id ∈ created "cards" ctr → is_Some (cards w' !! id)) ∧
        (∀ id, id ∈ created "addresses" atr → is_Some (addresses w' !! id))
    end.
Proof.
  intros uid.
  destruct (New_run (set_idpos (S (idpos w)) w)) as (a0 & c0 & HN).
  cbn [customers addresses cards others cardMem addrMem faults idsrc idpos oplog set_idpos] in HN.
  match type of HN with _ = Ok _ ?x => set (wN := x) in HN end.
  assert (HrcN : read_cards (Cards u) wN = read_cards (Cards u) w).
  { destruct (Cards u) as [l|]; [|done]. apply alloc_nil_read. }
  assert (HraN : read_addrs (Addresses u) wN = read_addrs (Addresses u) w).
  { destruct (Addresses u) as [l|]; [|done]. apply alloc_nil_read. }
  destruct (createCards_range_run (read_cards (Cards u) wN) (Cards u) 0 [] wN)
    as (ctr & w3 & Hc & Hcrun & Hcfr & Hcdocs & _ & _ & _ & Hcset & Hchigh).
  { intros i c Hi. exact Hi. }
  destruct Hcfr as (Hc_cu & Hc_ad & Hc_ot & Hc_am & Hc_fa & Hc_is & Hc_ip & Hc_log).
  assert (Hra3 : read_addrs (Addresses u) w3 = read_addrs (Addresses u) w).
  { rewrite <- HraN. unfold read_addrs. by rewrite Hc_am. }
  destruct (createAddresses_range_run (read_addrs (Addresses u) w3)
              (Addresses u) 0 [] w3)
    as (atr & w4 & Ha & Harun & Hafr & Hadocs & _ & _ & _ & Haset & Hahigh).
  { intros i c Hi. exact Hi. }
  destruct Hafr as (Ha_cu & Ha_ca & Ha_ot & Ha_cm & Ha_fa & Ha_is & Ha_ip & Ha_log).
  assert (Hrc4 : read_cards (Cards u) w4 = read_cards (Cards u) w3).
  { unfold read_cards. by rewrite Ha_cm. }
  set (mu := mkMongoUser u uid (created "addresses" atr) (created "cards" ctr)).
  assert (Hcu : mongodb.CreateUser u w =
    match UpsertId_customers uid mu w4 with
    | Ok err w5 =>
        match err with
        | Some e => do _ <- mongodb.cleanAttributes mu; ret (u, Some e)
        | None =>
            match run_err ctr, run_err atr with
            | None, None =>
                ret (mkUser (Username u) (Profile u) (Addresses u) (Cards u)
                       (bson.Hex uid), None)
            | _, _ => ret (u, Some (fmt_v (run_err ctr) +:+ " " +:+ fmt_v (run_err atr)))
            end
        end w5
    | Panic m w5 => Panic m w5
    end).
  { unfold mongodb.CreateUser, bind, NewObjectId. cbv beta iota.
    rewrite HN. unfold mongodb.createCards. rewrite Hc.
    unfold mongodb.createAddresses. rewrite Ha. reflexivity. }
  assert (Hcrun' : create_run "cards" (gen w) (S (idpos w))
            (length (read_cards (Cards u) w)) ctr).
  { rewrite <- HrcN. exact Hcrun. }
  assert (Harun' : create_run "addresses" (gen w) (S (idpos w) + length ctr)
            (length (read_addrs (Addresses u) w)) atr).
  { rewrite <- Hra3. unfold gen in *. rewrite Hc_is, Hc_ip in Harun.
    exact Harun. }
  assert (Hlog4 : oplog w4 = oplog w ++ ctr ++ atr).
  { rewrite Ha_log, Hc_log. by rewrite <- app_assoc. }
  assert (Hcards4 : ∀ i id c, created "cards" ctr !! i = Some id →
            read_cards (Cards u) w !! i = Some c →
            read_cards (Cards u) w4 !! i =
              Some (mkCard (Card_Fields c) (bson.Hex id))).
  { intros i id c Hi Hci. rewrite Hrc4. apply (Hcset i id c Hi).
    by rewrite HrcN. }
  assert (Hcards4' : ∀ i, length (created "cards" ctr) ≤ i →
            read_cards (Cards u) w4 !! i = read_cards (Cards u) w !! i).
  { intros i Hi. rewrite Hrc4, <- HrcN. by apply (Hchigh i). }
  assert (Haddrs4 : ∀ i id a, created "addresses" atr !! i = Some id →
            read_addrs (Addresses u) w !! i = Some a →
            read_addrs (Addresses u) w4 !! i =
              Some (mkAddress (Address_Fields a) (bson.Hex id))).
  { intros i id a Hi Hai. apply (Haset i id a Hi). by rewrite Hra3. }
  assert (Haddrs4' : ∀ i, length (created "addresses" atr) ≤ i →
            read_addrs (Addresses u) w4 !! i = read_addrs (Addresses u) w !! i).
  { intros i Hi. rewrite <- Hra3. by apply (Hahigh i). }
  destruct (UpsertId_customers_eq uid mu w4) as [r Hup].
  rewrite Hup in Hcu. clear Hup.
  exists ctr, atr, r.
  destruct r as [e|].
  - (* the user record is refused: clean up and return its error *)
    unfold bind in Hcu.
    match type of Hcu with context [mongodb.cleanAttributes mu ?x] =>
      destruct (cleanAttributes_eq mu x)
        as (w' & Hcl & Hlog & Hcust & Hcm & Ham & Hgone1 & Hgone2) end.
    rewrite Hcl in Hcu. unfold ret in Hcu.
    eexists. exists u, (Some e), w'. split; [exact Hcu|].
    split; [exact Hcrun'|]. split; [exact Harun'|].
    split. { rewrite Hlog. cbn [record set_oplog set_faults oplog].
             rewrite Hlog4. by rewrite <- !app_assoc. }
    assert (Hrc' : ∀ cs, read_cards cs w' = read_cards cs w4).
    { intros cs. unfold read_cards. by rewrite Hcm. }
    assert (Hra' : ∀ xs, read_addrs xs w' = read_addrs xs w4).
    { intros xs. unfold read_addrs. by rewrite Ham. }
    rewrite Hrc', Hra'.
    split; [exact Hcards4|]. split; [exact Hcards4'|].
    split; [exact Haddrs4|]. split; [exact Haddrs4'|].
    split; [done|]. split; [done|].
    split. { rewrite Hcust. cbn [record set_oplog set_faults customers].
             by rewrite Ha_cu, Hc_cu. }
    do 2 eexists. split; [reflexivity|].
    split; [exact Hgone1 | exact Hgone2].
  - assert (∃ u' err,
      mongodb.CreateUser u w =
        Ok (u', err)
           (record (OpUpsertId "customers" uid) None
              (set_customers (<[uid:=marshalUser mu]> (customers w4))
                 (set_faults (tail (faults w4)) w4))) ∧
      err = partial_err (run_err ctr) (run_err atr) ∧
      u' = match err with
           | None => mkUser (Username u) (Profile u) (Addresses u) (Cards u)
                       (bson.Hex uid)
           | Some _ => u
           end) as (u' & err & Hrun & Herr & Hu').
    { rewrite Hcu. unfold ret.
      destruct (run_err ctr) as [ce|]; [|destruct (run_err atr) as [ae|]];
        by do 2 eexists. }
    exists [], u', err. eexists. split; [exact Hrun|].
    split; [exact Hcrun'|]. split; [exact Harun'|].
    cbn [record set_oplog set_customers set_faults oplog customers cards
         addresses].
    split. { rewrite Hlog4. by rewrite <- !app_assoc. }
    split; [exact Hcards4|]. split; [exact Hcards4'|].
    split; [exact Haddrs4|]. split; [exact Haddrs4'|].
    split; [done|]. split; [exact Herr|]. split; [exact Hu'|].
    split. { by rewrite Ha_cu, Hc_cu. }
    split.
    + intros id Hid. rewrite Ha_ca. apply Hcdocs. by left.
    + intros id Hid. apply Hadocs. by left.
Qed.

(** ** What a run of a creation loop looks like *)

Lemma create_run_entries coll ids p n tr :
  create_run coll ids p n tr →
  ∀ entry, entry ∈ tr → ∃ id r, entry = (OpUpsertId coll id, r).
Proof.
  induction 1 as [p|p n e|p n tr _ IH]; intros entry Hin.
  - by apply elem_of_nil in Hin.
  - apply list_elem_of_singleton in Hin as ->. eauto.
  - apply elem_of_cons in Hin as [->|Hin]; eauto.
Qed.

(** The run attempts the items in order, each under the next identifier; an
    upsert that fails is the last of the run; a run without failure covers
    all the items. *)
Lemma create_run_shape coll ids p n tr :
  create_run coll ids p n tr →
  length tr ≤ n ∧
  (∀ i entry, tr !! i = Some entry → entry.1 = OpUpsertId coll (ids (p + i))) ∧
  (∀ i op e, tr !! i = Some (op, Some e) → S i = length tr) ∧
  (run_err tr = None → length tr = n ∧ length (created coll tr) = n) ∧
  (∀ e, run_err tr = Some e → length tr = S (length (created coll tr))).
Proof.
  induction 1 as [p|p n e|p n tr _ (IH1 & IH2 & IH3 & IH4 & IH5)].
  - split_and!; [done| | |done|done]; intros i ?; by rewrite lookup_nil.
  - split_and!.
    + simpl; lia.
    + intros [|i] entry; simpl; [|by rewrite lookup_nil].
      intros [= <-]. by rewrite Nat.add_0_r.
    + intros [|i] op e'; simpl; [done|by rewrite lookup_nil].
    + done.
    + done.
  - rewrite run_err_cons_None.
    assert (created coll ((OpUpsertId coll (ids p), None) :: tr) =
            ids p :: created coll tr) as ->.
    { unfold created. simpl. by rewrite String.eqb_refl. }
    split_and!.
    + simpl; lia.
    + intros [|i] entry; simpl.
      * intros [= <-]. by rewrite Nat.add_0_r.
      * intros Hi. rewrite (IH2 i entry Hi). do 2 f_equal. lia.
    + intros [|i] op e'; simpl; [done|]. intros Hi. by rewrite (IH3 i op e' Hi).
    + intros Hn. destruct (IH4 Hn) as [H1 H2]. simpl. by rewrite H1, H2.
    + intros e Hn. simpl. by rewrite (IH5 e Hn).
Qed.

Lemma created_app coll tr1 tr2 :
  created coll (tr1 ++ tr2) = created coll tr1 ++ created coll tr2.
Proof. apply omap_app. Qed.

Lemma created_other coll coll' ids p n tr :
  create_run coll ids p n tr → coll ≠ coll' → created coll' tr = [].
Proof.
  intros Hrun Hne. assert (String.eqb coll coll' = false) as Hb.
  { by apply String.eqb_neq. }
  induction Hrun as [p|p n e|p n tr _ IH]; [done|done|].
  unfold created in *. simpl. by rewrite Hb.
Qed.

Lemma failed_run coll ids p n tr :
  create_run coll ids p n tr → failed coll tr = run_err tr.
Proof.
  induction 1 as [p|p n e|p n tr _ IH]; [done| |].
  - unfold failed. simpl. by rewrite String.eqb_refl.
  - by rewrite run_err_cons_None.
Qed.

Lemma failed_other coll coll' ids p n tr :
  create_run coll ids p n tr → coll ≠ coll' → failed coll' tr = None.
Proof.
  intros Hrun Hne. assert (String.eqb coll coll' = false) as Hb.
  { by apply String.eqb_neq. }
  induction Hrun as [p|p n e|p n tr _ IH]; [done| |done].
  unfold failed. simpl. by rewrite Hb.
Qed.

Lemma failed_app_None coll tr1 tr2 :
  failed coll tr1 = None → failed coll (tr1 ++ tr2) = failed coll tr2.
Proof.
  unfold failed. rewrite omap_app.
  destruct (omap _ tr1); [done|done].
Qed.

Lemma failed_app_Some coll tr1 tr2 e :
  failed coll tr1 = Some e → failed coll (tr1 ++ tr2) = Some e.
Proof.
  unfold failed. rewrite omap_app.
  destruct (omap _ tr1); [done|done].
Qed.

(** ** Sample runs *)

(** Without faults the sample user is created with its two cards and its
    address, one upsert each, then the user record. *)
Example CreateUser_sample_run :
  run_error (mongodb.CreateUser sample_user (sample_world [])) = None ∧
  run_log (mongodb.CreateUser sample_user (sample_world [])) =
    [(OpUpsertId "cards" (gen (sample_world []) 1), None);
     (OpUpsertId "cards" (gen (sample_world []) 2), None);
     (OpUpsertId "addresses" (gen (sample_world []) 3), None);
     (OpUpsertId "customers" (gen (sample_world []) 0), None)].
Proof. split; vm_compute; reflexivity. Qed.

(** A first card that fails: the second card is skipped, the address and the
    user record are still written, and the error names the card failure. *)
Example CreateUser_sample_card_failure :
  run_error (mongodb.CreateUser sample_user (sample_world [Some "boom"]))
    = Some "boom <nil>" ∧
  run_log (mongodb.CreateUser sample_user (sample_world [Some "boom"])) =
    [(OpUpsertId "cards" (gen (sample_world []) 1), Some "boom");
     (OpUpsertId "addresses" (gen (sample_world []) 2), None);
     (OpUpsertId "customers" (gen (sample_world []) 0), None)].
Proof. split; vm_compute; reflexivity. Qed.

(** A first card that fails and a user record that is refused: the error of
    the user record is returned alone, the failure of the card is dropped,
    and the address that was created is removed again. *)
Example CreateUser_sample_card_and_user_failure :
  run_error (mongodb.CreateUser sample_user
               (sample_world [Some "boom"; None; Some "dup"]))
    = Some "dup" ∧
  run_log (mongodb.CreateUser sample_user
             (sample_world [Some "boom"; None; Some "dup"])) =
    [(OpUpsertId "cards" (gen (sample_world []) 1), Some "boom");
     (OpUpsertId "addresses" (gen (sample_world []) 2), None);
     (OpUpsertId "customers" (gen (sample_world []) 0), Some "dup");
     (OpRemoveAll "addresses" [gen (sample_world []) 2], None);
     (OpRemoveAll "cards" [], None)].
Proof. split; vm_compute; reflexivity. Qed.

(** ** CreateUser: the claims *)

(** C1, as stated, at a user with two cards whose first upsert fails: the
    second card is never attempted. *)
Lemma C1_counterexample : ¬ (∀ u w, every_nested_item_attempted u w).
Proof.
  intros H.
  assert (Hn : upserts_into "cards"
            (run_log (mongodb.CreateUser sample_user
                        (sample_world [Some "boom"]))) = 1)
    by (vm_compute; reflexivity).
  destruct (CreateUser_run sample_user (sample_world [Some "boom"]))
    as (_ & _ & _ & _ & u' & err & w' & Hrun & _).
  rewrite Hrun in Hn. simpl in Hn.
  destruct (H sample_user (sample_world [Some "boom"]) _ _ Hrun) as [Hc _].
  rewrite Hn in Hc. vm_compute in Hc. discriminate.
Qed.

(** What the loop of [createCards] leaves in the collection: each item it
    created is stored under its identifier with the fields of the item at
    its position, unless the identifier is drawn again later in the loop;
    every other document is as it was. *)
Lemma createCards_range_stored (elems : list Card) :
  ∀ cs k ids w,
  (∀ i c, elems !! i = Some c → read_cards cs w !! (k + i)%nat = Some c) →
  ∃ new err w',
    mongodb.createCards_range cs k elems ids w = Ok (ids ++ new, err) w' ∧
    (∀ i id c, new !! i = Some id → elems !! i = Some c →
       (∀ j, (i < j)%nat → new !! j ≠ Some id) →
       cards w' !! id = Some (Card_Fields c)) ∧
    (∀ id, id ∉ new → cards w' !! id = cards w !! id).
Proof.
  induction elems as [|ca rest IH]; intros cs k ids w Hel.
  - exists [], None, w. cbn. unfold ret. rewrite app_nil_r.
    split; [done|]. split; [|done]. intros i id c H. by rewrite lookup_nil in H.
  - destruct (default None (head (faults w))) as [e|] eqn:Hf.
    + assert (head (faults w) = Some (Some e)) as Hh.
      { destruct (head (faults w)) as [[?|]|]; simpl in Hf; congruence. }
      exists [], (Some e). eexists.
      rewrite (createCards_range_fail _ _ _ _ _ _ e Hh), app_nil_r.
      split; [reflexivity|]. split; [|done].
      intros i id c H. by rewrite lookup_nil in H.
    + destruct (read_cards_lookup cs w k ca) as (l & arr & -> & Hl & Hk).
      { rewrite <- (Nat.add_0_r k) at 1. by apply Hel. }
      rewrite (createCards_range_step l arr _ _ _ _ _ _ Hf eq_refl Hl Hk).
      set (id0 := gen w (idpos w)).
      match goal with |- context [mongodb.createCards_range _ _ _ _ ?x] =>
        set (w3 := x) end.
      assert (Hr3 : read_cards (Some l) w3 =
                    <[k := mkCard (Card_Fields ca) (bson.Hex id0)]> arr).
      { unfold read_cards, w3. cbn [cardMem]. by rewrite lookup_insert_eq. }
      assert (Hr : read_cards (Some l) w = arr).
      { unfold read_cards. by rewrite Hl. }
      assert (Hc3 : cards w3 = <[id0 := Card_Fields ca]> (cards w))
        by reflexivity.
      destruct (IH (Some l) (S k) (ids ++ [id0]) w3)
        as (new & err & w' & Hrun & Hset & Hrest).
      { intros i c Hi. rewrite Hr3, list_lookup_insert_ne by lia.
        rewrite <- Hr. replace (S k + i)%nat with (k + S i)%nat by lia.
        by apply Hel. }
      clearbody w3 id0.
      exists (id0 :: new), err, w'. rewrite Hrun, <- app_assoc.
      split; [done|]. split.
      * intros [|i] id c Hi Hc Hlast; simpl in Hi, Hc.
        -- injection Hi as <-. injection Hc as <-.
           rewrite Hrest, Hc3; [apply lookup_insert_eq|].
           intros Hin. apply list_elem_of_lookup in Hin as [j Hj].
           by apply (Hlast (S j)); [lia|].
        -- apply (Hset i id c Hi Hc). intros j Hj.
           apply (Hlast (S j)). lia.
      * intros id Hid. apply not_elem_of_cons in Hid as [Hne Hid].
        rewrite (Hrest id Hid), Hc3. by apply lookup_insert_ne.
Qed.

(** What the loop of [createAddresses] leaves in the collection: each item it
    created is stored under its identifier with the fields of the item at
    its position, unless the identifier is drawn again later in the loop;
    every other document is as it was. *)
Lemma createAddresses_range_stored (elems : list Address) :
  ∀ cs k ids w,
  (∀ i c, elems !! i = Some c → read_addrs cs w !! (k + i)%nat = Some c) →
  ∃ new err w',
    mongodb.createAddresses_range cs k elems ids w = Ok (ids ++ new, err) w' ∧
    (∀ i id c, new !! i = Some id → elems !! i = Some c →
       (∀ j, (i < j)%nat → new !! j ≠ Some id) →
       addresses w' !! id = Some (Address_Fields c)) ∧
    (∀ id, id ∉ new → addresses w' !! id = addresses w !! id).
Proof.
  induction elems as [|ca rest IH]; intros cs k ids w Hel.
  - exists [], None, w. cbn. unfold ret. rewrite app_nil_r.
    split; [done|]. split; [|done]. intros i id c H. by rewrite lookup_nil in H.
  - destruct (default None (head (faults w))) as [e|] eqn:Hf.
    + assert (head (faults w) = Some (Some e)) as Hh.
      { destruct (head (faults w)) as [[?|]|]; simpl in Hf; congruence. }
      exists [], (Some e). eexists.
      rewrite (createAddresses_range_fail _ _ _ _ _ _ e Hh), app_nil_r.
      split; [reflexivity|]. split; [|done].
      intros i id c H. by rewrite lookup_nil in H.
    + destruct (read_addrs_lookup cs w k ca) as (l & arr & -> & Hl & Hk).
      { rewrite <- (Nat.add_0_r k) at 1. by apply Hel. }
      rewrite (createAddresses_range_step l arr _ _ _ _ _ _ Hf eq_refl Hl Hk).
      set (id0 := gen w (idpos w)).
      match goal with |- context [mongodb.createAddresses_range _ _ _ _ ?x] =>
        set (w3 := x) end.
      assert (Hr3 : read_addrs (Some l) w3 =
                    <[k := mkAddress (Address_Fields ca) (bson.Hex id0)]> arr).
      { unfold read_addrs, w3. cbn [addrMem]. by rewrite lookup_insert_eq. }
      assert (Hr : read_addrs (Some l) w = arr).
      { unfold read_addrs. by rewrite Hl. }
      assert (Hc3 : addresses w3 = <[id0 := Address_Fields ca]> (addresses w))
        by reflexivity.
      destruct (IH (Some l) (S k) (ids ++ [id0]) w3)
        as (new & err & w' & Hrun & Hset & Hrest).
      { intros i c Hi. rewrite Hr3, list_lookup_insert_ne by lia.
        rewrite <- Hr. replace (S k + i)%nat with (k + S i)%nat by lia.
        by apply Hel. }
      clearbody w3 id0.
      exists (id0 :: new), err, w'. rewrite Hrun, <- app_assoc.
      split; [done|]. split.
      * intros [|i] id c Hi Hc Hlast; simpl in Hi, Hc.
        -- injection Hi as <-. injection Hc as <-.
           rewrite Hrest, Hc3; [apply lookup_insert_eq|].
           intros Hin. apply list_elem_of_lookup in Hin as [j Hj].
           by apply (Hlast (S j)); [lia|].
        -- apply (Hset i id c Hi Hc). intros j Hj.
           apply (Hlast (S j)). lia.
      * intros id Hid. apply not_elem_of_cons in Hid as [Hne Hid].
        rewrite (Hrest id Hid), Hc3. by apply lookup_insert_ne.
Qed.

(** [CreateUser] with what it returns and what it leaves stored. *)
Lemma CreateUser_stored u w :
  let uid := gen w (idpos w) in
  ∃ ctr atr r post u' err w',
    mongodb.CreateUser u w = Ok (u', err) w' ∧
    oplog w' = oplog w ++ ctr ++ atr ++ (OpUpsertId "customers" uid, r) :: post ∧
    create_run "cards" (gen w) (S (idpos w))
      (length (read_cards (Cards u) w)) ctr ∧
    create_run "addresses" (gen w) (S (idpos w) + length ctr)
      (length (read_addrs (Addresses u) w)) atr ∧
    err = match r with
          | Some e => Some e
          | None => partial_err (run_err ctr) (run_err atr)
          end ∧
    (r = None →
     (∀ i id c, created "cards" ctr !! i = Some id →
        read_cards (Cards u) w !! i = Some c →
        (∀ j, (i < j)%nat → created "cards" ctr !! j ≠ Some id) →
        cards w' !! id = Some (Card_Fields c)) ∧
     (∀ i id a, created "addresses" atr !! i = Some id →
        read_addrs (Addresses u) w !! i = Some a →
        (∀ j, (i < j)%nat → created "addresses" atr !! j ≠ Some id) →
        addresses w' !! id = Some (Address_Fields a)) ∧
     (∀ id, id ∈ created "cards" ctr → is_Some (cards w' !! id)) ∧
     (∀ id, id ∈ created "addresses" atr → is_Some (addresses w' !! id))).
Proof.
  intros uid.
  destruct (New_run (set_idpos (S (idpos w)) w)) as (a0 & c0 & HN).
  cbn [customers addresses cards others cardMem addrMem faults idsrc idpos
       oplog set_idpos] in HN.
  match type of HN with _ = Ok _ ?x => set (wN := x) in HN end.
  assert (HrcN : read_cards (Cards u) wN = read_cards (Cards u) w).
  { destruct (Cards u) as [l|]; [|done]. apply alloc_nil_read. }
  assert (HraN : read_addrs (Addresses u) wN = read_addrs (Addresses u) w).
  { destruct (Addresses u) as [l|]; [|done]. apply alloc_nil_read. }
  destruct (createCards_range_run (read_cards (Cards u) wN) (Cards u) 0 [] wN)
    as (ctr & w3 & Hc & Hcrun & Hcfr & Hcdocs & _).
  { intros i c Hi. exact Hi. }
  destruct (createCards_range_stored (read_cards (Cards u) wN) (Cards u) 0 []
              wN) as (newc & errc & w3' & Hc' & Hcset & _).
  { intros i c Hi. exact Hi. }
  rewrite Hc in Hc'. injection Hc' as <- _ <-.
  destruct Hcfr as (Hc_cu & Hc_ad & Hc_ot & Hc_am & Hc_fa & Hc_is & Hc_ip &
                    Hc_log).
  assert (Hra3 : read_addrs (Addresses u) w3 = read_addrs (Addresses u) w).
  { rewrite <- HraN. unfold read_addrs. by rewrite Hc_am. }
  destruct (createAddresses_range_run (read_addrs (Addresses u) w3)
              (Addresses u) 0 [] w3)
    as (atr & w4 & Ha & Harun & Hafr & Hadocs & _).
  { intros i c Hi. exact Hi. }
  destruct (createAddresses_range_stored (read_addrs (Addresses u) w3)
              (Addresses u) 0 [] w3) as (newa & erra & w4' & Ha' & Haset & _).
  { intros i c Hi. exact Hi. }
  rewrite Ha in Ha'. injection Ha' as <- _ <-.
  destruct Hafr as (Ha_cu & Ha_ca & Ha_ot & Ha_cm & Ha_fa & Ha_is & Ha_ip &
                    Ha_log).
  set (mu := mkMongoUser u uid (created "addresses" atr) (created "cards" ctr)).
  assert (Hcu : mongodb.CreateUser u w =
    match UpsertId_customers uid mu w4 with
    | Ok err w5 =>
        match err with
        | Some e => do _ <- mongodb.cleanAttributes mu; ret (u, Some e)
        | None =>
            match run_err ctr, run_err atr with
            | None, None =>
                ret (mkUser (Username u) (Profile u) (Addresses u) (Cards u)
                       (bson.Hex uid), None)
            | _, _ => ret (u, Some (fmt_v (run_err ctr) +:+ " " +:+
                                    fmt_v (run_err atr)))
            end
        end w5
    | Panic m w5 => Panic m w5
    end).
  { unfold mongodb.CreateUser, bind, NewObjectId. cbv beta iota.
    rewrite HN. unfold mongodb.createCards. rewrite Hc.
    unfold mongodb.createAddresses. rewrite Ha. reflexivity. }
  assert (Hcrun' : create_run "cards" (gen w) (S (idpos w))
            (length (read_cards (Cards u) w)) ctr).
  { rewrite <- HrcN. exact Hcrun. }
  assert (Harun' : create_run "addresses" (gen w) (S (idpos w) + length ctr)
            (length (read_addrs (Addresses u) w)) atr).
  { rewrite <- Hra3. unfold gen in *. rewrite Hc_is, Hc_ip in Harun.
    exact Harun. }
  assert (Hlog4 : oplog w4 = oplog w ++ ctr ++ atr).
  { rewrite Ha_log, Hc_log. by rewrite <- app_assoc. }
  destruct (UpsertId_customers_eq uid mu w4) as [r Hup].
  rewrite Hup in Hcu. clear Hup.
  exists ctr, atr, r.
  destruct r as [e|].
  - unfold bind in Hcu.
    match type of Hcu with context [mongodb.cleanAttributes mu ?x] =>
      destruct (cleanAttributes_eq mu x) as (w' & Hcl & Hlog & _) end.
    rewrite Hcl in Hcu. unfold ret in Hcu.
    eexists. exists u, (Some e), w'. split; [exact Hcu|].
    split. { rewrite Hlog. cbn [record set_oplog set_faults oplog].
             rewrite Hlog4. by rewrite <- !app_assoc. }
    split; [exact Hcrun'|]. split; [exact Harun'|]. split; [done|]. done.
  - assert (∃ u',
      mongodb.CreateUser u w =
        Ok (u', partial_err (run_err ctr) (run_err atr))
           (record (OpUpsertId "customers" uid) None
              (set_customers (<[uid:=marshalUser mu]> (customers w4))
                 (set_faults (tail (faults w4)) w4)))) as (u' & Hrun).
    { rewrite Hcu. unfold ret, partial_err.
      destruct (run_err ctr) as [ce|]; [|destruct (run_err atr) as [ae|]];
        by eexists. }
    exists [], u'. do 2 eexists. split; [exact Hrun|].
    cbn [record set_oplog set_customers set_faults oplog customers cards
         addresses].
    split. { rewrite Hlog4. by rewrite <- !app_assoc. }
    split; [exact Hcrun'|]. split; [exact Harun'|]. split; [done|].
    intros _. split_and!.
    + intros i id c Hi Hci Hlast. rewrite Ha_ca.
      apply (Hcset i id c Hi); [by rewrite HrcN|done].
    + intros i id a Hi Hai Hlast.
      apply (Haset i id a Hi); [by rewrite Hra3|done].
    + intros id Hid. rewrite Ha_ca. apply Hcdocs. by left.
    + intros id Hid. apply Hadocs. by left.
Qed.

Section CreateUser.

Variables (u : User) (w : World).

(** C1 (amended): [CreateUser] runs the loop over the nested cards, then the
    loop over the nested addresses, then upserts the user record, whatever
    the loops returned.  Each loop upserts its items in order, each under the
    next generated identifier, and stops at the first upsert that fails.
    The failures are not collected item by item: a loop returns the error of
    the upsert that stopped it.  When the upsert of the user record fails,
    [CreateUser] returns that error alone and the errors of the loops are
    dropped; when it goes through, [CreateUser] returns no error if both
    loops succeeded and otherwise the two loop errors in one message, and
    every item created is stored, with the fields of the payload item at
    its position unless its identifier is handed out again later in the
    same loop. *)
Theorem CreateUser_nested_creation :
  ∃ ctr atr r post u' err w',
    mongodb.CreateUser u w = Ok (u', err) w' ∧
    oplog w' =
      oplog w ++ ctr ++ atr ++
      (OpUpsertId "customers" (gen w (idpos w)), r) :: post ∧
    create_run "cards" (gen w) (S (idpos w))
      (length (read_cards (Cards u) w)) ctr ∧
    create_run "addresses" (gen w) (S (idpos w) + length ctr)
      (length (read_addrs (Addresses u) w)) atr ∧
    err = match r with
          | Some e => Some e
          | None => partial_err (run_err ctr) (run_err atr)
          end ∧
    (r = None →
     (∀ i id c, created "cards" ctr !! i = Some id →
        read_cards (Cards u) w !! i = Some c →
        (∀ j, (i < j)%nat → created "cards" ctr !! j ≠ Some id) →
        cards w' !! id = Some (Card_Fields c)) ∧
     (∀ i id a, created "addresses" atr !! i = Some id →
        read_addrs (Addresses u) w !! i = Some a →
        (∀ j, (i < j)%nat → created "addresses" atr !! j ≠ Some id) →
        addresses w' !! id = Some (Address_Fields a)) ∧
     (∀ id, id ∈ created "cards" ctr → is_Some (cards w' !! id)) ∧
     (∀ id, id ∈ created "addresses" atr → is_Some (addresses w' !! id))).
Proof.
  destruct (CreateUser_stored u w)
    as (ctr & atr & r & post & u' & err & w' & Hrun & Hlog & Hc & Ha & Herr &
        Hdocs).
  exists ctr, atr, r, post, u', err, w'.
  split; [exact Hrun|]. split; [exact Hlog|]. split; [exact Hc|].
  split; [exact Ha|]. split; [exact Herr|]. exact Hdocs.
Qed.

(** The entry of the user record in what [CreateUser] adds to the log is
    the one after the two loops. *)
Lemma customers_entry ids ids' p p' n n' ctr atr uid r post x :
  create_run "cards" ids p n ctr →
  create_run "addresses" ids' p' n' atr →
  match r with
  | Some _ => ∃ l1 r1 l2 r2, post = [(OpRemoveAll "addresses" l1, r1);
                                     (OpRemoveAll "cards" l2, r2)]
  | None => post = []
  end →
  (OpUpsertId "customers" uid, x) ∈
    ctr ++ atr ++ (OpUpsertId "customers" uid, r) :: post →
  x = r.
Proof.
  intros Hc Ha Hpost Hin.
  apply elem_of_app in Hin as [Hin|Hin].
  { destruct (create_run_entries _ _ _ _ _ Hc _ Hin) as (? & ? & [=]). }
  apply elem_of_app in Hin as [Hin|Hin].
  { destruct (create_run_entries _ _ _ _ _ Ha _ Hin) as (? & ? & [=]). }
  apply elem_of_cons in Hin as [[=]|Hin]; [done|].
  destruct r as [e|].
  - destruct Hpost as (l1 & r1 & l2 & r2 & ->).
    apply elem_of_cons in Hin as [[=]|Hin].
    apply elem_of_cons in Hin as [[=]|Hin].
    by apply elem_of_nil in Hin.
  - subst post. by apply elem_of_nil in Hin.
Qed.

Lemma created_trace ids ids' p p' n n' ctr atr uid r post :
  create_run "cards" ids p n ctr →
  create_run "addresses" ids' p' n' atr →
  created "cards" (ctr ++ atr) = created "cards" ctr ∧
  created "addresses" (ctr ++ atr) = created "addresses" atr ∧
  created "cards" (ctr ++ atr ++ [(OpUpsertId "customers" uid, r)] ++ post)
  = created "cards" ctr ++ created "cards" post ∧
  created "addresses" (ctr ++ atr ++ [(OpUpsertId "customers" uid, r)] ++ post)
  = created "addresses" atr ++ created "addresses" post.
Proof.
  intros Hc Ha. rewrite !created_app.
  rewrite (created_other _ "addresses" _ _ _ _ Hc) by done.
  rewrite (created_other _ "cards" _ _ _ _ Ha) by done.
  assert (∀ c, c = "cards" ∨ c = "addresses" →
            created c [(OpUpsertId "customers" uid, r)] = []) as Hu.
  { intros c [-> | ->]; by destruct r. }
  rewrite !Hu by auto. rewrite !app_nil_r, !app_nil_l. done.
Qed.

(** What [CreateUser] adds to the log, with everything [CreateUser_run]
    says about it. *)
Ltac createuser_run u w :=
  let ctr := fresh "ctr" in let atr := fresh "atr" in
  let r := fresh "r" in let post := fresh "post" in
  let u' := fresh "u'" in let err := fresh "err" in let w' := fresh "w'" in
  destruct (CreateUser_run u w)
    as (ctr & atr & r & post & u' & err & w' & Hrun & Hctr & Hatr & Hlog &
        Hcset & Hckeep & Haset & Hakeep & Hfin);
  exists u', err, w', (ctr ++ atr ++ [(OpUpsertId "customers" (gen w (idpos w)), r)] ++ post);
  split; [exact Hrun|]; split; [exact Hlog|].

(** C2: when the upsert of the user record fails with [e], [CreateUser]
    asks the store to remove the addresses and then the cards it created in
    this call, and returns [e], whatever the two removals answered; the
    removals that went through left none of those documents behind. *)
Theorem CreateUser_compensates :
  ∃ u' err w' tr,
    mongodb.CreateUser u w = Ok (u', err) w' ∧
    oplog w' = oplog w ++ tr ∧
    ∀ e, (OpUpsertId "customers" (gen w (idpos w)), Some e) ∈ tr →
      err = Some e ∧
      customers w' = customers w ∧
      ∃ pre r1 r2,
        tr = pre ++
             [(OpUpsertId "customers" (gen w (idpos w)), Some e);
              (OpRemoveAll "addresses" (created "addresses" pre), r1);
              (OpRemoveAll "cards" (created "cards" pre), r2)] ∧
        (r1 = None →
         ∀ id, id ∈ created "addresses" pre → addresses w' !! id = None) ∧
        (r2 = None →
         ∀ id, id ∈ created "cards" pre → cards w' !! id = None).
Proof.
  createuser_run u w.
  intros e Hin.
  assert (Some e = r) as <-.
  { eapply customers_entry; [exact Hctr|exact Hatr| |exact Hin].
    destruct r; [|tauto]. destruct Hfin as (_ & _ & _ & r1 & r2 & -> & _).
    eauto. }
  destruct Hfin as (-> & -> & Hcust & r1 & r2 & -> & Hg1 & Hg2).
  split; [done|]. split; [done|].
  exists (ctr ++ atr), r1, r2.
  destruct (created_trace _ _ _ _ _ _ _ _ (gen w (idpos w)) (Some e) []
              Hctr Hatr) as (-> & -> & _).
  split; [by rewrite <- !app_assoc|]. done.
Qed.

Lemma failed_trace ids ids' p p' n n' ctr atr uid :
  create_run "cards" ids p n ctr →
  create_run "addresses" ids' p' n' atr →
  failed "cards" (ctr ++ atr ++ [(OpUpsertId "customers" uid, None)])
  = run_err ctr ∧
  failed "addresses" (ctr ++ atr ++ [(OpUpsertId "customers" uid, None)])
  = run_err atr.
Proof.
  intros Hc Ha.
  pose proof (failed_run _ _ _ _ _ Hc) as Hfc.
  pose proof (failed_run _ _ _ _ _ Ha) as Hfa.
  pose proof (failed_other _ "addresses" _ _ _ _ Hc) as Hoc.
  pose proof (failed_other _ "cards" _ _ _ _ Ha) as Hoa.
  split.
  - destruct (failed "cards" ctr) as [e|] eqn:E.
    + rewrite <- Hfc. by apply failed_app_Some.
    + rewrite failed_app_None by done. rewrite failed_app_None by auto.
      by rewrite <- Hfc.
  - rewrite failed_app_None by auto.
    destruct (failed "addresses" atr) as [e|] eqn:E.
    + rewrite <- Hfa. by apply failed_app_Some.
    + rewrite failed_app_None by done. by rewrite <- Hfa.
Qed.

(** C3: when the upsert of the user record went through and a nested
    creation had failed, [CreateUser] returns an error whose message is the
    error of the cards followed by the error of the addresses; the user
    record is stored with the identifiers of the nested items that were
    created, and those items are still in their collections. *)
Theorem CreateUser_partial_failure :
  ∃ u' err w' tr,
    mongodb.CreateUser u w = Ok (u', err) w' ∧
    oplog w' = oplog w ++ tr ∧
    ((OpUpsertId "customers" (gen w (idpos w)), None) ∈ tr →
     failed "cards" tr ≠ None ∨ failed "addresses" tr ≠ None →
     err = Some (fmt_v (failed "cards" tr) +:+ " " +:+
                 fmt_v (failed "addresses" tr)) ∧
     customers w' !! gen w (idpos w) =
       Some (mkUserDoc (Username u) (Profile u)
               (created "addresses" tr) (created "cards" tr)) ∧
     (∀ id, id ∈ created "cards" tr → is_Some (cards w' !! id)) ∧
     (∀ id, id ∈ created "addresses" tr → is_Some (addresses w' !! id))).
Proof.
  createuser_run u w.
  intros Hin Hfail.
  assert (None = r) as <-.
  { eapply customers_entry; [exact Hctr|exact Hatr| |exact Hin].
    destruct r; [|tauto]. destruct Hfin as (_ & _ & _ & r1 & r2 & -> & _).
    eauto. }
  destruct Hfin as (-> & Herr & Hu' & Hcust & Hcd & Had).
  rewrite app_nil_r in *.
  destruct (failed_trace _ _ _ _ _ _ _ _ (gen w (idpos w)) Hctr Hatr)
    as (Hfc & Hfa).
  rewrite Hfc, Hfa in *.
  destruct (created_trace _ _ _ _ _ _ _ _ (gen w (idpos w)) None []
              Hctr Hatr) as (_ & _ & Hc1 & Hc2).
  rewrite !app_nil_r in Hc1, Hc2. rewrite Hc1, Hc2.
  split_and!; [|by rewrite Hcust, lookup_insert_eq|done|done].
  rewrite Herr. unfold partial_err.
  destruct (run_err ctr), (run_err atr); try done. by destruct Hfail.
Qed.

(** C10: when [CreateUser] returns the error of a partial failure, the
    user value of the caller is the one it passed in, so a [UserID] that
    was empty is still empty although the record is stored under a
    generated identifier; the nested items that were created carry their
    identifier in the backing arrays of the caller's slices. *)
Theorem CreateUser_partial_failure_frame :
  ∃ u' err w' tr,
    mongodb.CreateUser u w = Ok (u', err) w' ∧
    oplog w' = oplog w ++ tr ∧
    ((OpUpsertId "customers" (gen w (idpos w)), None) ∈ tr →
     err ≠ None →
     u' = u ∧
     (UserID u = "" → UserID u' = "") ∧
     is_Some (customers w' !! gen w (idpos w)) ∧
     bson.Hex (gen w (idpos w)) ≠ "" ∧
     (∀ i id c, created "cards" tr !! i = Some id →
        read_cards (Cards u) w !! i = Some c →
        read_cards (Cards u') w' !! i =
          Some (mkCard (Card_Fields c) (bson.Hex id))) ∧
     (∀ i, length (created "cards" tr) ≤ i →
        read_cards (Cards u') w' !! i = read_cards (Cards u) w !! i) ∧
     (∀ i id a, created "addresses" tr !! i = Some id →
        read_addrs (Addresses u) w !! i = Some a →
        read_addrs (Addresses u') w' !! i =
          Some (mkAddress (Address_Fields a) (bson.Hex id))) ∧
     (∀ i, length (created "addresses" tr) ≤ i →
        read_addrs (Addresses u') w' !! i = read_addrs (Addresses u) w !! i)).
Proof.
  createuser_run u w.
  intros Hin Herr.
  assert (None = r) as <-.
  { eapply customers_entry; [exact Hctr|exact Hatr| |exact Hin].
    destruct r; [|tauto]. destruct Hfin as (_ & _ & _ & r1 & r2 & -> & _).
    eauto. }
  destruct Hfin as (-> & _ & Hu' & Hcust & _ & _).
  destruct err as [e|]; [|done]. subst u'.
  destruct (created_trace _ _ _ _ _ _ _ _ (gen w (idpos w)) None []
              Hctr Hatr) as (_ & _ & Hc1 & Hc2).
  rewrite !app_nil_r in Hc1, Hc2. rewrite app_nil_r, Hc1, Hc2.
  split_and!; [done|done| | |exact Hcset|exact Hckeep|exact Haset|exact Hakeep].
  - rewrite Hcust, lookup_insert_eq. eauto.
  - done.
Qed.

End CreateUser.

Lemma CreateUser_compensates_witness :
  ∃ u' w',
    mongodb.CreateUser sample_user
      (sample_world [None; None; None; Some "boom"; Some "down"])
    = Ok (u', Some "boom") w' ∧
    customers w' = ∅.
Proof.
  destruct (CreateUser_compensates sample_user
              (sample_world [None; None; None; Some "boom"; Some "down"]))
    as (u' & err & w' & tr & Hrun & Hlog & H).
  exists u', w'.
  assert (Htr : run_log (mongodb.CreateUser sample_user
                   (sample_world [None; None; None; Some "boom"; Some "down"])) =
      [(OpUpsertId "cards" (gen (sample_world []) 1), None);
       (OpUpsertId "cards" (gen (sample_world []) 2), None);
       (OpUpsertId "addresses" (gen (sample_world []) 3), None);
       (OpUpsertId "customers" (gen (sample_world []) 0), Some "boom");
       (OpRemoveAll "addresses" [gen (sample_world []) 3], Some "down");
       (OpRemoveAll "cards" [gen (sample_world []) 1; gen (sample_world []) 2],
        None)])
    by (vm_compute; reflexivity).
  rewrite Hrun in Htr. simpl in Htr, Hlog. rewrite Htr in Hlog. subst tr.
  destruct (H "boom") as (-> & Hcust & _).
  - apply list_elem_of_In. simpl. auto 10.
  - split; [exact Hrun | exact Hcust].
Defined.

Lemma CreateUser_partial_failure_witness :
  ∃ u' w',
    mongodb.CreateUser sample_user (sample_world [None; Some "boom"])
    = Ok (u', Some "boom <nil>") w' ∧
    customers w' !! gen (sample_world []) 0 =
      Some (mkUserDoc "alice" "" [gen (sample_world []) 3]
              [gen (sample_world []) 1]).
Proof.
  destruct (CreateUser_partial_failure sample_user
              (sample_world [None; Some "boom"]))
    as (u' & err & w' & tr & Hrun & Hlog & H).
  exists u', w'.
  assert (Herr : run_error (mongodb.CreateUser sample_user
                   (sample_world [None; Some "boom"])) = Some "boom <nil>")
    by (vm_compute; reflexivity).
  assert (Htr : run_log (mongodb.CreateUser sample_user
                   (sample_world [None; Some "boom"])) =
      [(OpUpsertId "cards" (gen (sample_world []) 1), None);
       (OpUpsertId "cards" (gen (sample_world []) 2), Some "boom");
       (OpUpsertId "addresses" (gen (sample_world []) 3), None);
       (OpUpsertId "customers" (gen (sample_world []) 0), None)])
    by (vm_compute; reflexivity).
  rewrite Hrun in Herr, Htr. simpl in Herr, Htr, Hlog. subst err.
  rewrite Htr in Hlog. subst tr.
  destruct H as (_ & Hdoc & _).
  - apply list_elem_of_In. simpl. auto 10.
  - left. vm_compute. discriminate.
  - split; [exact Hrun | exact Hdoc].
Defined.

Lemma CreateUser_partial_failure_frame_witness :
  ∃ u' w',
    mongodb.CreateUser sample_user (sample_world [None; Some "boom"])
    = Ok (u', Some "boom <nil>") w' ∧
    UserID u' = "" ∧
    read_cards (Cards u') w' !! 0 =
      Some (mkCard "4111" (bson.Hex (gen (sample_world []) 1))) ∧
    read_addrs (Addresses u') w' !! 0 =
      Some (mkAddress "X" (bson.Hex (gen (sample_world []) 3))).
Proof.
  destruct (CreateUser_partial_failure_frame sample_user
              (sample_world [None; Some "boom"]))
    as (u' & err & w' & tr & Hrun & Hlog & H).
  exists u', w'.
  assert (Herr : run_error (mongodb.CreateUser sample_user
                   (sample_world [None; Some "boom"])) = Some "boom <nil>")
    by (vm_compute; reflexivity).
  assert (Htr : run_log (mongodb.CreateUser sample_user
                   (sample_world [None; Some "boom"])) =
      [(OpUpsertId "cards" (gen (sample_world []) 1), None);
       (OpUpsertId "cards" (gen (sample_world []) 2), Some "boom");
       (OpUpsertId "addresses" (gen (sample_world []) 3), None);
       (OpUpsertId "customers" (gen (sample_world []) 0), None)])
    by (vm_compute; reflexivity).
  rewrite Hrun in Herr, Htr. simpl in Herr, Htr, Hlog. subst err.
  rewrite Htr in Hlog. subst tr.
  destruct H as (_ & Hid & _ & _ & Hc & _ & Ha & _).
  - apply list_elem_of_In. simpl. auto 10.
  - discriminate.
  - split; [exact Hrun|]. split; [apply Hid; reflexivity|].
    split.
    + apply (Hc 0 (gen (sample_world []) 1) (mkCard "4111" ""));
        vm_compute; reflexivity.
    + apply (Ha 0 (gen (sample_world []) 3) (mkAddress "X" ""));
        vm_compute; reflexivity.
Defined.

(** ** Reads of the store *)

Lemma db_read_eq {A} op (run : World → A + error) w :
  let w1 := set_faults (tail (faults w)) w in
  db_read op run w =
    match default None (head (faults w)) with
    | Some e => Ok (inr e) (record op (Some e) w1)
    | None => Ok (run w1) (record op (err_of (run w1)) w1)
    end.
Proof. reflexivity. Qed.

Lemma lets_through_0 w :
  lets_through 0 w → default None (head (faults w)) = None.
Proof.
  unfold lets_through. intros H.
  destruct (faults w) as [|[e|] fs]; simpl in *; [done| |done].
  by destruct (H e).
Qed.

Lemma lets_through_1 w :
  lets_through 1 w → default None (head (tail (faults w))) = None.
Proof.
  unfold lets_through. intros H.
  destruct (faults w) as [|f [|[e|] fs]]; simpl in *; try done.
  by destruct (H e).
Qed.

(** The documents a membership query returns. *)
Lemma elem_of_docs_in ids (m : gmap bson.ObjectId string) id d :
  (id, d) ∈ docs_in ids m ↔ id ∈ ids ∧ m !! id = Some d.
Proof.
  unfold docs_in. rewrite list_elem_of_filter, elem_of_map_to_list. naive_solver.
Qed.

(** ** The reference loops of GetUserAttributes *)

Lemma checked_ids_ok refs : ∀ ids w,
  Forall (λ s, bson.IsObjectIdHex s = true) refs →
  ∃ ids',
    mongodb.checked_ids refs ids w = Ok (inl (ids ++ ids')) w ∧
    Forall2 (λ s id, bson.ObjectIdHex s = Some id) refs ids'.
Proof.
  induction refs as [|s refs IH]; intros ids w Hall.
  - exists []. rewrite app_nil_r. split; [done|constructor].
  - apply Forall_cons in Hall as [Hs Hall].
    destruct (ObjectIdHex_of_IsObjectIdHex s Hs) as (id & Hid & _).
    destruct (IH (ids ++ [id]) w Hall) as (ids' & Hrun & Hf).
    exists (id :: ids'). split; [|by constructor].
    cbn [mongodb.checked_ids]. rewrite Hs. cbn [negb].
    unfold bind, ObjectIdHex. rewrite Hid. unfold ret at 1.
    rewrite Hrun. by rewrite <- app_assoc.
Qed.

Lemma checked_ids_bad refs : ∀ ids w,
  Exists (λ s, bson.IsObjectIdHex s = false) refs →
  mongodb.checked_ids refs ids w = Ok (inr ErrInvalidHexID) w.
Proof.
  induction refs as [|s refs IH]; intros ids w Hex.
  - by apply Exists_nil in Hex.
  - cbn [mongodb.checked_ids].
    destruct (bson.IsObjectIdHex s) eqn:Hs; cbn [negb]; [|done].
    apply Exists_cons in Hex as [Hbad|Hex]; [congruence|].
    destruct (ObjectIdHex_of_IsObjectIdHex s Hs) as (id & Hid & _).
    unfold bind, ObjectIdHex. rewrite Hid. unfold ret at 1. by apply IH.
Qed.

(** ** GetUserAttributes *)

Lemma hydrated_addresses docs :
  map (λ a, mkAddress (Address_Fields (MongoAddress_Address a))
              (bson.Hex (MongoAddress_ID a)))
    (map unmarshalAddress docs) = map hydrate_address docs.
Proof. rewrite map_map. apply map_ext. by intros [id d]. Qed.

Lemma hydrated_cards docs :
  map (λ c, mkCard (Card_Fields (MongoCard_Card c))
              (bson.Hex (MongoCard_ID c)))
    (map unmarshalCard docs) = map hydrate_card docs.
Proof. rewrite map_map. apply map_ext. by intros [id d]. Qed.

(** A malformed address reference ends the operation before anything is
    touched. *)
Lemma GetUserAttributes_address_malformed u w :
  ¬ address_refs_ok u w →
  mongodb.GetUserAttributes u w = Ok (u, Some ErrInvalidHexID) w.
Proof.
  intros Hbad. unfold mongodb.GetUserAttributes. unfold bind at 1.
  unfold bind at 1. rewrite checked_ids_bad; [done|].
  apply Exists_fmap. apply (not_Forall_Exists _) in Hbad.
  eapply Exists_impl; [exact Hbad|]. simpl. intros a Ha.
  by destruct (bson.IsObjectIdHex (Address_ID a)).
Qed.

(** With well-formed address references and the address query let through,
    the addresses are hydrated into a fresh slice, and the operation goes on
    to the cards in the world described here. *)
Lemma GetUserAttributes_addresses u w :
  address_refs_ok u w → lets_through 0 w →
  ∃ aids,
    let la := fresh (dom (addrMem w)) in
    let u1 := mkUser (Username u) (Profile u) (Some la) (Cards u) (UserID u) in
    let w1 :=
      mkWorld (customers w) (addresses w) (cards w) (others w) (cardMem w)
        (<[la := map hydrate_address (docs_in aids (addresses w))]> (addrMem w))
        (tail (faults w)) (idsrc w) (idpos w)
        (oplog w ++ [(OpFindIn "addresses" aids, None)]) in
    Forall2 (λ a id, bson.ObjectIdHex (Address_ID a) = Some id)
      (read_addrs (Addresses u) w) aids ∧
    mongodb.GetUserAttributes u w =
      (do r <- mongodb.checked_ids (map Card_ID (read_cards (Cards u) w)) [];
       match r with
       | inr e => ret (u1, Some e)
       | inl ids =>
           do r <- FindIn_cards ids;
           match r with
           | inr e => ret (u1, Some e)
           | inl docs =>
               do nc <- new_cards
                          (map (λ c, mkCard (Card_Fields (MongoCard_Card c))
                                      (bson.Hex (MongoCard_ID c)))
                             (map unmarshalCard docs));
               ret (mkUser (Username u) (Profile u) (Some la) nc (UserID u),
                    None)
           end
       end) w1.
Proof.
  intros Hok H0.
  destruct (checked_ids_ok (map Address_ID (read_addrs (Addresses u) w)) [] w)
    as (aids & Hids & Hf2).
  { by apply Forall_fmap. }
  exists aids. split.
  { by apply Forall2_fmap_l in Hf2. }
  unfold mongodb.GetUserAttributes. unfold bind at 1. unfold bind at 1.
  rewrite Hids. cbn [app]. unfold bind at 1. unfold FindIn_addresses.
  rewrite db_read_eq, (lets_through_0 w H0). cbv beta iota zeta.
  rewrite hydrated_addresses. unfold bind at 1. unfold new_addrs.
  cbv beta iota zeta. unfold bind at 1. cbn [err_of].
  unfold bind at 1. reflexivity.
Qed.

(** With all references well formed and both queries let through, the
    operation succeeds and leaves this world. *)
Lemma GetUserAttributes_ok u w :
  address_refs_ok u w → card_refs_ok u w →
  lets_through 0 w → lets_through 1 w →
  ∃ aids cids,
    let la := fresh (dom (addrMem w)) in
    let lc := fresh (dom (cardMem w)) in
    Forall2 (λ a id, bson.ObjectIdHex (Address_ID a) = Some id)
      (read_addrs (Addresses u) w) aids ∧
    Forall2 (λ c id, bson.ObjectIdHex (Card_ID c) = Some id)
      (read_cards (Cards u) w) cids ∧
    mongodb.GetUserAttributes u w =
      Ok (mkUser (Username u) (Profile u) (Some la) (Some lc) (UserID u), None)
         (mkWorld (customers w) (addresses w) (cards w) (others w)
            (<[lc := map hydrate_card (docs_in cids (cards w))]> (cardMem w))
            (<[la := map hydrate_address (docs_in aids (addresses w))]>
               (addrMem w))
            (tail (tail (faults w))) (idsrc w) (idpos w)
            (oplog w ++ [(OpFindIn "addresses" aids, None);
                         (OpFindIn "cards" cids, None)])).
Proof.
  intros Hoka Hokc H0 H1.
  destruct (GetUserAttributes_addresses u w Hoka H0) as (aids & Hfa & Hrun).
  cbv zeta in Hrun. rewrite Hrun. clear Hrun.
  match goal with |- context [Ok _ _ = _] => idtac | _ => idtac end.
  match goal with |- context [bind _ _ ?x] => set (w1 := x) end.
  destruct (checked_ids_ok (map Card_ID (read_cards (Cards u) w)) [] w1)
    as (cids & Hids & Hf2).
  { by apply Forall_fmap. }
  exists aids, cids. split; [exact Hfa|]. split.
  { by apply Forall2_fmap_l in Hf2. }
  unfold bind at 1. rewrite Hids. cbn [app]. unfold bind at 1.
  unfold FindIn_cards. rewrite db_read_eq.
  unfold w1 at 1. cbn [faults]. rewrite (lets_through_1 w H1).
  cbv beta iota zeta. rewrite hydrated_cards. unfold bind at 1.
  unfold new_cards, ret, w1, record.
  cbn [set_faults set_oplog set_cardMem customers addresses cards others
       cardMem addrMem faults idsrc idpos oplog err_of].
  by rewrite <- app_assoc.
Qed.

(** C8: with well-formed references, [GetUserAttributes] succeeds whether or
    not the referenced documents exist: the hydrated addresses and cards are
    exactly the referenced documents that are stored, and a reference without
    a document contributes nothing. *)
Theorem GetUserAttributes_drops_orphans (u : User) (w : World) :
  address_refs_ok u w → card_refs_ok u w →
  lets_through 0 w → lets_through 1 w →
  ∃ u' w' aids cids,
    mongodb.GetUserAttributes u w = Ok (u', None) w' ∧
    Forall2 (λ a id, bson.ObjectIdHex (Address_ID a) = Some id)
      (read_addrs (Addresses u) w) aids ∧
    Forall2 (λ c id, bson.ObjectIdHex (Card_ID c) = Some id)
      (read_cards (Cards u) w) cids ∧
    (∀ a, a ∈ read_addrs (Addresses u') w' ↔
          ∃ id d, id ∈ aids ∧ addresses w !! id = Some d ∧
                  a = mkAddress d (bson.Hex id)) ∧
    (∀ c, c ∈ read_cards (Cards u') w' ↔
          ∃ id d, id ∈ cids ∧ cards w !! id = Some d ∧
                  c = mkCard d (bson.Hex id)).
Proof.
  intros Hoka Hokc H0 H1.
  destruct (GetUserAttributes_ok u w Hoka Hokc H0 H1)
    as (aids & cids & Hfa & Hfc & Hrun).
  cbv zeta in Hrun.
  eexists _, _, aids, cids. split; [exact Hrun|].
  split; [exact Hfa|]. split; [exact Hfc|].
  cbn [read_addrs read_cards Addresses Cards addrMem cardMem].
  rewrite !lookup_insert_eq. cbn [default].
  repeat match goal with
         | |- context [map ?f ?l] => change (map f l) with (f <$> l)
         end.
  unfold id. split.
  - intros a. rewrite list_elem_of_fmap. split.
    + intros ([id d] & -> & Hin). apply elem_of_docs_in in Hin as [? ?].
      by exists id, d.
    + intros (id & d & Hin & Hd & ->). exists (id, d).
      split; [done|]. by apply elem_of_docs_in.
  - intros c. rewrite list_elem_of_fmap. split.
    + intros ([id d] & -> & Hin). apply elem_of_docs_in in Hin as [? ?].
      by exists id, d.
    + intros (id & d & Hin & Hd & ->). exists (id, d).
      split; [done|]. by apply elem_of_docs_in.
Qed.

(** C9: a malformed address reference returns [ErrInvalidHexID] with the
    user value and the world as they were; a malformed card reference, the
    address references being well formed, returns [ErrInvalidHexID] with the
    [Addresses] field already replaced by the hydrated addresses. *)
Theorem GetUserAttributes_not_atomic (u : User) (w : World) :
  (¬ address_refs_ok u w →
   mongodb.GetUserAttributes u w = Ok (u, Some ErrInvalidHexID) w) ∧
  (address_refs_ok u w → ¬ card_refs_ok u w → lets_through 0 w →
   ∃ aids na w',
     mongodb.GetUserAttributes u w =
       Ok (mkUser (Username u) (Profile u) na (Cards u) (UserID u),
           Some ErrInvalidHexID) w' ∧
     Forall2 (λ a id, bson.ObjectIdHex (Address_ID a) = Some id)
       (read_addrs (Addresses u) w) aids ∧
     na = Some (fresh (dom (addrMem w))) ∧
     read_addrs na w' = map hydrate_address (docs_in aids (addresses w)) ∧
     oplog w' = oplog w ++ [(OpFindIn "addresses" aids, None)]).
Proof.
  split; [apply GetUserAttributes_address_malformed|].
  intros Hoka Hbad H0.
  destruct (GetUserAttributes_addresses u w Hoka H0) as (aids & Hfa & Hrun).
  cbv zeta in Hrun. rewrite Hrun. clear Hrun.
  exists aids. do 2 eexists. split.
  - unfold bind at 1. rewrite checked_ids_bad; [reflexivity|].
    apply Exists_fmap. apply (not_Forall_Exists _) in Hbad.
    eapply Exists_impl; [exact Hbad|]. simpl. intros c Hc.
    by destruct (bson.IsObjectIdHex (Card_ID c)).
  - split; [exact Hfa|]. split; [reflexivity|].
    cbn [read_addrs addrMem oplog]. by rewrite lookup_insert_eq.
Qed.

Lemma hydration_world_addrs fs :
  read_addrs (Some 6%positive) (hydration_world fs) =
    [mkAddress "" (bson.Hex stored_id); mkAddress "" (bson.Hex orphan_id)].
Proof. reflexivity. Qed.

Lemma hydration_world_refs_ok fs u :
  Addresses u = Some 6%positive → address_refs_ok u (hydration_world fs).
Proof.
  intros Hu. unfold address_refs_ok. rewrite Hu, hydration_world_addrs.
  repeat (constructor; [vm_compute; reflexivity|]). constructor.
Qed.

Lemma hydration_world_aids fs aids :
  Forall2 (λ a id, bson.ObjectIdHex (Address_ID a) = Some id)
    (read_addrs (Some 6%positive) (hydration_world fs)) aids →
  aids = [stored_id; orphan_id].
Proof.
  rewrite hydration_world_addrs. intros Hfa.
  apply Forall2_cons_inv_l in Hfa as (y1 & k1 & H1 & Hfa & ->).
  apply Forall2_cons_inv_l in Hfa as (y2 & k2 & H2 & Hfa & ->).
  apply Forall2_nil_inv_l in Hfa as ->.
  cbn [Address_ID] in H1, H2.
  rewrite ObjectIdHex_Hex in H1, H2 by reflexivity.
  by injection H1 as <-; injection H2 as <-.
Qed.

Lemma GetUserAttributes_drops_orphans_witness :
  ∃ u' w',
    mongodb.GetUserAttributes (mkUser "alice" "" (Some 6%positive) None "")
      (hydration_world []) = Ok (u', None) w' ∧
    ∀ a, a ∈ read_addrs (Addresses u') w' ↔
         ∃ id d, id ∈ [stored_id; orphan_id] ∧
                 addresses (hydration_world []) !! id = Some d ∧
                 a = mkAddress d (bson.Hex id).
Proof.
  destruct (GetUserAttributes_drops_orphans
              (mkUser "alice" "" (Some 6%positive) None "") (hydration_world []))
    as (u' & w' & aids & cids & Hrun & Hfa & _ & Ha & _).
  - by apply hydration_world_refs_ok.
  - constructor.
  - intros e. discriminate.
  - intros e. discriminate.
  - exists u', w'. split; [exact Hrun|].
    by rewrite <- (hydration_world_aids [] aids Hfa).
Defined.

Lemma GetUserAttributes_not_atomic_witness :
  ∃ na w',
    mongodb.GetUserAttributes
      (mkUser "alice" "" (Some 6%positive) (Some 5%positive) "")
      (hydration_world []) =
      Ok (mkUser "alice" "" na (Some 5%positive) "", Some ErrInvalidHexID) w' ∧
    read_addrs na w' = [mkAddress "X" (bson.Hex stored_id)].
Proof.
  destruct (proj2 (GetUserAttributes_not_atomic
              (mkUser "alice" "" (Some 6%positive) (Some 5%positive) "")
              (hydration_world [])))
    as (aids & na & w' & Hrun & Hfa & _ & Hna & _).
  - by apply hydration_world_refs_ok.
  - unfold card_refs_ok. intros H.
    apply Forall_cons in H as [Hbad _]. vm_compute in Hbad. discriminate.
  - intros e. discriminate.
  - exists na, w'. split; [exact Hrun|]. rewrite Hna.
    rewrite (hydration_world_aids [] aids Hfa). vm_compute. reflexivity.
Defined.

(** ** GetUser *)

(** [AddUserIDs] on a value whose two slices are empty: the slices it
    returns hold one stub per stored identifier. *)
Lemma AddUserIDs_fresh mu la lc w :
  Addresses (MongoUser_User mu) = Some la →
  Cards (MongoUser_User mu) = Some lc →
  addrMem w !! la = Some [] → cardMem w !! lc = Some [] →
  ∃ a c w',
    mongodb.AddUserIDs mu w =
      Ok (mkMongoUser
            (mkUser (Username (MongoUser_User mu)) (Profile (MongoUser_User mu))
               a c (bson.Hex (MongoUser_ID mu)))
            (MongoUser_ID mu) (AddressIDs mu) (CardIDs mu)) w' ∧
    read_addrs a w' = map (λ id, mkAddress "" (bson.Hex id)) (AddressIDs mu) ∧
    read_cards c w' = map (λ id, mkCard "" (bson.Hex id)) (CardIDs mu) ∧
    mem_only w w'.
Proof.
  intros Ha Hc Hla Hlc. unfold mongodb.AddUserIDs. rewrite Ha, Hc.
  unfold bind, ret, mongodb.append_addrs, mongodb.append_cards, mem_only.
  destruct (AddressIDs mu) as [|i1 l1]; destruct (CardIDs mu) as [|i2 l2];
    cbn [map]; unfold new_addrs, new_cards;
    do 3 eexists; (split; [reflexivity|]);
    unfold read_addrs, read_cards;
    cbn [set_addrMem set_cardMem customers addresses cards others cardMem
         addrMem faults idsrc idpos oplog];
    rewrite ?lookup_insert_eq, ?Hla, ?Hlc; cbn [default app];
    rewrite ?lookup_insert_eq, ?Hla, ?Hlc; auto 10.
Qed.

Lemma GetUser_run id oid w :
  bson.ObjectIdHex id = Some oid →
  ∃ u w',
    mongodb.GetUser id w = Ok (u, find_result oid w) w' ∧
    customers w' = customers w ∧ addresses w' = addresses w ∧
    cards w' = cards w ∧ others w' = others w ∧
    faults w' = tail (faults w) ∧ idsrc w' = idsrc w ∧ idpos w' = idpos w ∧
    oplog w' = oplog w ++ [(OpFindId "customers" oid, find_result oid w)] ∧
    (∀ doc, find_result oid w = None → customers w !! oid = Some doc →
       read_addrs (Addresses u) w' =
         map (λ id, mkAddress "" (bson.Hex id)) (doc_addresses doc) ∧
       read_cards (Cards u) w' =
         map (λ id, mkCard "" (bson.Hex id)) (doc_cards doc)).
Proof.
  intros Hid. destruct (IsObjectIdHex_of_ObjectIdHex _ _ Hid) as [Hok _].
  unfold mongodb.GetUser. rewrite Hok. cbn [negb].
  unfold bind at 1.
  set (la := fresh (dom (addrMem w))). set (lc := fresh (dom (cardMem w))).
  assert (HN : mongodb.New w =
    Ok (mkMongoUser (mkUser "" "" (Some la) (Some lc) "") "" [] [])
       (set_cardMem (<[lc := []]> (cardMem w))
          (set_addrMem (<[la := []]> (addrMem w)) w))) by reflexivity.
  rewrite HN. clear HN.
  unfold bind at 1. unfold ObjectIdHex. rewrite Hid. unfold ret at 1.
  unfold bind at 1. unfold FindId_customers. rewrite db_read_eq.
  cbn [faults set_faults set_cardMem set_addrMem customers].
  unfold find_result.
  destruct (default None (head (faults w))) as [e|] eqn:Hf;
    [|destruct (customers w !! oid) as [doc|] eqn:Hdoc];
    cbv beta iota zeta; unfold bind at 1;
    match goal with |- context [mongodb.AddUserIDs ?mu ?x] =>
      destruct (AddUserIDs_fresh mu la lc x)
        as (a & c & w' & Hrun & Hra & Hrc & Hm);
      [reflexivity|reflexivity|
       cbn [record set_oplog set_faults set_cardMem set_addrMem addrMem];
       apply lookup_insert_eq|
       cbn [record set_oplog set_faults set_cardMem set_addrMem cardMem];
       apply lookup_insert_eq|]
    end;
    rewrite Hrun; clear Hrun; unfold ret;
    destruct Hm as (E1 & E2 & E3 & E4 & E5 & E6 & E7 & E8);
    (do 2 eexists; split; [reflexivity|]);
    rewrite E1, E2, E3, E4, E5, E6, E7, E8;
    cbn [record set_oplog set_faults set_cardMem set_addrMem customers
         addresses cards others faults idsrc idpos oplog];
    (split_and!; [reflexivity..|]);
    intros doc' Hr Hd; try discriminate.
  injection Hd as <-.
  cbn [Addresses Cards MongoUser_User AddressIDs CardIDs unmarshalUser]
    in Hra, Hrc |- *.
  by rewrite Hra, Hrc.
Qed.

(** ** Delete *)

Lemma decoded_ids_Hex l : ∀ ids w,
  Forall bson.Valid l →
  mongodb.decoded_ids (map bson.Hex l) ids w = Ok (ids ++ l) w.
Proof.
  induction l as [|x l IH]; intros ids w Hall.
  - by rewrite app_nil_r.
  - apply Forall_cons in Hall as [Hx Hall]. cbn [map mongodb.decoded_ids].
    unfold bind, ObjectIdHex. rewrite (ObjectIdHex_Hex x Hx). unfold ret at 1.
    rewrite IH by done. by rewrite <- app_assoc.
Qed.

(** [Remove] fails on a fault of the store or, with [ErrNotFound], when the
    collection has no such document; otherwise the document is gone. *)
Lemma Remove_eq coll id w :
  let w1 := set_faults (tail (faults w)) w in
  let r := match default None (head (faults w)) with
           | Some e => Some e
           | None => if coll_has coll id w1 then None else Some ErrNotFound
           end in
  Remove coll id w =
    Ok r (record (OpRemove coll id) r
            match r with
            | None => coll_remove coll [id] w1
            | Some _ => w1
            end).
Proof.
  unfold Remove, db_write, next_fault. simpl.
  destruct (head (faults w)) as [[e|]|]; simpl; [done| |];
    by destruct (coll_has _ _ _).
Qed.

(** C4: [Delete] of a user that is stored, the identifiers held by its
    document being twelve bytes as BSON has them and the store letting the
    load through: the user is loaded, the addresses and then the cards its
    document refers to are removed in bulk, and the user document is
    removed; the result is that of the last removal alone.  After a delete
    that returned no error the user document is gone, [GetUser] answers
    [ErrNotFound], and each bulk removal that went through left none of the
    documents it was asked to remove. *)
Theorem Delete_customers_cascades
    (id : string) (oid : bson.ObjectId) (doc : UserDoc) (w : World) :
  bson.ObjectIdHex id = Some oid →
  customers w !! oid = Some doc →
  Forall bson.Valid (doc_addresses doc) → Forall bson.Valid (doc_cards doc) →
  lets_through 0 w →
  ∃ r1 r2 r3 w',
    mongodb.Delete "customers" id w = Ok r3 w' ∧
    r1 = default None (head (tail (faults w))) ∧
    r2 = default None (head (tail (tail (faults w)))) ∧
    oplog w' =
      oplog w ++ [(OpFindId "customers" oid, None);
                  (OpRemoveAll "addresses" (doc_addresses doc), r1);
                  (OpRemoveAll "cards" (doc_cards doc), r2);
                  (OpRemove "customers" oid, r3)] ∧
    (r3 = None →
     customers w' !! oid = None ∧
     (r1 = None → ∀ a, a ∈ doc_addresses doc → addresses w' !! a = None) ∧
     (r2 = None → ∀ c, c ∈ doc_cards doc → cards w' !! c = None) ∧
     (lets_through 0 w' →
      ∃ u' w'', mongodb.GetUser id w' = Ok (u', Some ErrNotFound) w'')).
Proof.
  intros Hid Hdoc Hva Hvc H0.
  destruct (IsObjectIdHex_of_ObjectIdHex _ _ Hid) as [Hok _].
  destruct (GetUser_run id oid w Hid)
    as (u & w1 & Hget & Hcu & Had & Hca & Hot & Hfa & His & Hip & Hlog & Hrefs).
  assert (Hfind : find_result oid w = None).
  { unfold find_result. by rewrite (lets_through_0 w H0), Hdoc. }
  rewrite Hfind in *. destruct (Hrefs doc eq_refl Hdoc) as [Hra Hrc].
  set (r1 := default None (head (faults w1))).
  set (r2 := default None (head (tail (faults w1)))).
  set (w2 := record (OpRemoveAll "addresses" (doc_addresses doc)) r1
               match r1 with
               | None => coll_remove "addresses" (doc_addresses doc)
                           (set_faults (tail (faults w1)) w1)
               | Some _ => set_faults (tail (faults w1)) w1
               end).
  set (w3 := record (OpRemoveAll "cards" (doc_cards doc)) r2
               match r2 with
               | None => coll_remove "cards" (doc_cards doc)
                           (set_faults (tail (faults w2)) w2)
               | Some _ => set_faults (tail (faults w2)) w2
               end).
  assert (Hf2 : faults w2 = tail (faults w1)).
  { unfold w2. by destruct r1. }
  assert (Hma : map Address_ID (read_addrs (Addresses u) w1) =
                map bson.Hex (doc_addresses doc)).
  { rewrite Hra, map_map. reflexivity. }
  assert (Hmc : map Card_ID (read_cards (Cards u) w1) =
                map bson.Hex (doc_cards doc)).
  { rewrite Hrc, map_map. reflexivity. }
  assert (Hstep : mongodb.Delete "customers" id w = Remove "customers" oid w3).
  { unfold mongodb.Delete. rewrite Hok. cbn [negb String.eqb Ascii.eqb Bool.eqb].
    unfold bind at 1. unfold bind at 1. rewrite Hget. cbv beta iota.
    unfold bind at 1. unfold bind at 1. rewrite Hma.
    rewrite (decoded_ids_Hex _ [] w1 Hva). cbn [app].
    unfold bind at 1. unfold bind at 1. rewrite Hmc.
    rewrite (decoded_ids_Hex _ [] w1 Hvc). cbn [app].
    unfold bind at 1. rewrite RemoveAll_eq. fold r1. cbv beta iota zeta.
    fold w2. unfold bind at 1. rewrite RemoveAll_eq. rewrite Hf2. fold r2.
    cbv beta iota zeta. rewrite <- Hf2. fold w3. unfold ret at 1.
    unfold bind at 1. unfold ObjectIdHex. rewrite Hid. unfold ret at 1.
    unfold bind. by destruct (Remove "customers" oid w3). }
  assert (Hl3 : oplog w3 = oplog w ++
            [(OpFindId "customers" oid, None);
             (OpRemoveAll "addresses" (doc_addresses doc), r1);
             (OpRemoveAll "cards" (doc_cards doc), r2)]).
  { unfold w3, w2. destruct r1, r2; simpl; rewrite Hlog;
      by rewrite <- !app_assoc. }
  assert (Hc3 : customers w3 = customers w).
  { unfold w3, w2. destruct r1, r2; simpl; by rewrite Hcu. }
  assert (Ha3 : r1 = None →
            ∀ a, a ∈ doc_addresses doc → addresses w3 !! a = None).
  { intros E a Ha. unfold w3, w2. rewrite E. destruct r2; simpl;
      by apply lookup_foldr_delete. }
  assert (Hd3 : r2 = None → ∀ c, c ∈ doc_cards doc → cards w3 !! c = None).
  { intros E c Hc. unfold w3. rewrite E. simpl. by apply lookup_foldr_delete. }
  assert (Hr1 : r1 = default None (head (tail (faults w)))).
  { unfold r1. by rewrite Hfa. }
  assert (Hr2 : r2 = default None (head (tail (tail (faults w))))).
  { unfold r2. by rewrite Hfa. }
  clearbody w3. clear Hf2. clearbody w2 r1 r2.
  rewrite Hstep, Remove_eq. cbv zeta.
  match goal with |- context [Ok ?r _] => remember r as r3 eqn:Hr3 end.
  exists r1, r2, r3. eexists. split; [reflexivity|].
  split; [exact Hr1|]. split; [exact Hr2|].
  split.
  { destruct r3; simpl; rewrite Hl3; by rewrite <- !app_assoc. }
  intros ->. simpl. rewrite Hc3.
  split; [by apply lookup_delete_eq|].
  split; [exact Ha3|]. split; [exact Hd3|].
  intros Hlt.
  match type of Hlt with lets_through 0 ?x => set (w4 := x) in * end.
  destruct (GetUser_run id oid w4 Hid) as (u' & w'' & Hget' & _).
  exists u', w''. rewrite Hget'. do 3 f_equal.
  unfold find_result. rewrite (lets_through_0 w4 Hlt).
  unfold w4. simpl. by rewrite Hc3, lookup_delete_eq.
Qed.

Lemma Delete_customers_cascades_witness :
  ∃ w',
    mongodb.Delete "customers" (bson.Hex (be_bytes 12 9))
      (hydration_world [None; Some "down"]) = Ok None w' ∧
    customers w' !! be_bytes 12 9 = None ∧
    oplog w' =
      [(OpFindId "customers" (be_bytes 12 9), None);
       (OpRemoveAll "addresses" [stored_id; orphan_id], Some "down");
       (OpRemoveAll "cards" [], None);
       (OpRemove "customers" (be_bytes 12 9), None)].
Proof.
  destruct (Delete_customers_cascades (bson.Hex (be_bytes 12 9))
              (be_bytes 12 9)
              (mkUserDoc "alice" "" [stored_id; orphan_id] [])
              (hydration_world [None; Some "down"]))
    as (r1 & r2 & r3 & w' & Hrun & Hr1 & Hr2 & Hlog & H).
  - by apply ObjectIdHex_Hex.
  - reflexivity.
  - repeat (constructor; [reflexivity|]). constructor.
  - constructor.
  - intros e. discriminate.
  - assert (Hres : run_result (mongodb.Delete "customers"
                      (bson.Hex (be_bytes 12 9))
                      (hydration_world [None; Some "down"])) = Some None)
      by (vm_compute; reflexivity).
    rewrite Hrun in Hres. injection Hres as ->.
    destruct (H eq_refl) as (Hgone & _).
    exists w'. split; [exact Hrun|]. split; [exact Hgone|].
    rewrite Hlog, Hr1, Hr2. reflexivity.
Defined.

Lemma UpdateAll_customers_eq modifier attr v f w :
  let w1 := set_faults (tail (faults w)) w in
  let r := default None (head (faults w)) in
  UpdateAll_customers modifier attr v f w =
    Ok r (record (OpUpdateAll modifier attr v) r
            match r with
            | None => set_customers (modify_refs attr f <$> customers w) w1
            | Some _ => w1
            end).
Proof.
  unfold UpdateAll_customers, db_write, next_fault. simpl.
  by destruct (head (faults w)) as [[e|]|].
Qed.

Lemma Hex_inj x y : bson.Hex x = bson.Hex y → x = y.
Proof.
  unfold bson.Hex. intros H.
  assert (Some x = Some y) as [= ->]; [|done].
  by rewrite <- !decode_encode, H.
Qed.

Lemma doc_refs_modify coll f d :
  coll = "addresses" ∨ coll = "cards" →
  doc_refs coll (modify_refs coll f d) = f (doc_refs coll d).
Proof. by intros [-> | ->]. Qed.

Lemma not_elem_of_pull v l : v ∉ pull v l.
Proof. unfold pull. rewrite list_elem_of_filter. tauto. Qed.

Lemma coll_remove_oplog coll ids w :
  oplog (coll_remove coll ids w) = oplog w.
Proof.
  unfold coll_remove.
  by destruct (String.eqb coll "customers"), (String.eqb coll "addresses"),
       (String.eqb coll "cards").
Qed.

Lemma coll_remove_customers coll ids w :
  coll = "addresses" ∨ coll = "cards" →
  customers (coll_remove coll ids w) = customers w.
Proof. by intros [-> | ->]. Qed.

(** C5: [Delete] of an address or a card: one update pulls the identifier
    out of the matching reference array of every user document, then the
    entity document is removed; the result is that of the removal alone.
    Where the update went through no user document refers to the
    identifier any more; after a delete that returned no error the entity
    is gone from its collection and [GetUserAttributes], on any user value
    with well-formed references, succeeds without the entity. *)
Theorem Delete_nested_cleans
    (entity id : string) (oid : bson.ObjectId) (w : World) :
  entity = "addresses" ∨ entity = "cards" →
  bson.ObjectIdHex id = Some oid →
  ∃ r1 r2 w',
    mongodb.Delete entity id w = Ok r2 w' ∧
    r1 = default None (head (faults w)) ∧
    oplog w' = oplog w ++ [(OpUpdateAll "$pull" entity oid, r1);
                           (OpRemove entity oid, r2)] ∧
    (r1 = None →
     ∀ k d, customers w' !! k = Some d → oid ∉ doc_refs entity d) ∧
    (r2 = None →
     coll_has entity oid w' = false ∧
     ∀ u, address_refs_ok u w' → card_refs_ok u w' →
          lets_through 0 w' → lets_through 1 w' →
          ∃ u' w'',
            mongodb.GetUserAttributes u w' = Ok (u', None) w'' ∧
            (entity = "addresses" →
             ∀ a, a ∈ read_addrs (Addresses u') w'' →
                  Address_ID a ≠ bson.Hex oid) ∧
            (entity = "cards" →
             ∀ c, c ∈ read_cards (Cards u') w'' →
                  Card_ID c ≠ bson.Hex oid)).
Proof.
  intros Hent Hid.
  destruct (IsObjectIdHex_of_ObjectIdHex _ _ Hid) as [Hok _].
  set (r1 := default None (head (faults w))).
  set (w1 := record (OpUpdateAll "$pull" entity oid) r1
               match r1 with
               | None => set_customers
                           (modify_refs entity (pull oid) <$> customers w)
                           (set_faults (tail (faults w)) w)
               | Some _ => set_faults (tail (faults w)) w
               end).
  assert (Hstep : mongodb.Delete entity id w = Remove entity oid w1).
  { unfold mongodb.Delete. rewrite Hok. cbn [negb].
    assert (String.eqb entity "customers" = false) as ->.
    { by destruct Hent as [-> | ->]. }
    unfold bind at 1. unfold bind at 1. unfold ObjectIdHex. rewrite Hid.
    unfold ret at 1. unfold bind at 1. rewrite UpdateAll_customers_eq.
    fold r1. cbv beta iota zeta. fold w1. unfold ret at 1.
    unfold bind at 1. unfold ret at 1. unfold bind.
    by destruct (Remove entity oid w1). }
  assert (Hl1 : oplog w1 = oplog w ++ [(OpUpdateAll "$pull" entity oid, r1)]).
  { unfold w1. by destruct r1. }
  assert (Hc1 : r1 = None →
            customers w1 = modify_refs entity (pull oid) <$> customers w).
  { intros E. unfold w1. by rewrite E. }
  clearbody w1. clearbody r1.
  rewrite Hstep, Remove_eq. cbv zeta.
  match goal with |- context [Ok ?r _] => remember r as r2 eqn:Hr2 end.
  exists r1, r2. eexists. split; [reflexivity|]. split; [reflexivity|].
  split.
  { destruct r2; cbn [record set_oplog oplog]; rewrite ?coll_remove_oplog;
      cbn [set_faults oplog]; rewrite Hl1; by rewrite <- !app_assoc. }
  split.
  - intros E k d Hk.
    assert (customers
              (record (OpRemove entity oid) r2
                 match r2 with
                 | Some _ => set_faults (tail (faults w1)) w1
                 | None => coll_remove entity [oid]
                             (set_faults (tail (faults w1)) w1)
                 end) = customers w1) as Hsame.
    { destruct r2; [done|]. cbn [record set_oplog customers].
      by rewrite coll_remove_customers. }
    rewrite Hsame, (Hc1 E), lookup_fmap in Hk.
    destruct (customers w !! k) as [d0|]; [|done]. injection Hk as <-.
    rewrite doc_refs_modify by done. apply not_elem_of_pull.
  - intros ->.
    match goal with |- context [coll_has _ _ ?x] => set (w2 := x) end.
    assert (Hgone : (entity = "addresses" → addresses w2 !! oid = None) ∧
                    (entity = "cards" → cards w2 !! oid = None)).
    { unfold w2. split; intros ->; simpl; apply lookup_delete_eq. }
    destruct Hgone as [Hga Hgc]. clearbody w2.
    split.
    { unfold coll_has. destruct Hent as [-> | ->]; simpl;
        [rewrite Hga by done | rewrite Hgc by done];
        apply bool_decide_eq_false; by intros [? ?]. }
    intros u Hoka Hokc H0 H1.
    destruct (GetUserAttributes_ok u w2 Hoka Hokc H0 H1)
      as (aids & cids & _ & _ & Hrun).
    cbv zeta in Hrun. do 2 eexists. split; [exact Hrun|].
    cbn [read_addrs read_cards Addresses Cards addrMem cardMem].
    rewrite !lookup_insert_eq. cbn [default]. unfold Datatypes.id.
    split.
    + intros E a Hin. apply list_elem_of_In, in_map_iff in Hin
        as ([i d] & <- & Hin).
      apply list_elem_of_In, elem_of_docs_in in Hin as [_ Hd].
      simpl. intros Heq. apply Hex_inj in Heq as ->.
      rewrite (Hga E) in Hd. discriminate.
    + intros E c Hin. apply list_elem_of_In, in_map_iff in Hin
        as ([i d] & <- & Hin).
      apply list_elem_of_In, elem_of_docs_in in Hin as [_ Hd].
      simpl. intros Heq. apply Hex_inj in Heq as ->.
      rewrite (Hgc E) in Hd. discriminate.
Qed.

Lemma Delete_nested_cleans_witness :
  ∃ w',
    mongodb.Delete "addresses" (bson.Hex stored_id) (hydration_world [])
      = Ok None w' ∧
    coll_has "addresses" stored_id w' = false ∧
    ∀ k d, customers w' !! k = Some d → stored_id ∉ doc_refs "addresses" d.
Proof.
  destruct (Delete_nested_cleans "addresses" (bson.Hex stored_id) stored_id
              (hydration_world []))
    as (r1 & r2 & w' & Hrun & Hr1 & _ & Hpull & Hgone).
  - by left.
  - by apply ObjectIdHex_Hex.
  - assert (Hres : run_result (mongodb.Delete "addresses"
                      (bson.Hex stored_id) (hydration_world [])) = Some None)
      by (vm_compute; reflexivity).
    rewrite Hrun in Hres. injection Hres as ->.
    exists w'. split; [exact Hrun|].
    split; [apply (Hgone eq_refl)|]. apply Hpull. by rewrite Hr1.
Defined.

(** ** CreateCard and CreateAddress *)

Lemma appendAttributeId_eq attr id userid uid w :
  bson.ObjectIdHex userid = Some uid →
  let w1 := set_faults (tail (faults w)) w in
  let r := find_result uid w in
  mongodb.appendAttributeId attr id userid w =
    Ok r (record (OpUpdate uid "$addToSet" attr id) r
            match r, customers w !! uid with
            | None, Some d =>
                set_customers
                  (<[uid := modify_refs attr (addToSet id) d]> (customers w)) w1
            | _, _ => w1
            end).
Proof.
  intros Hid. unfold mongodb.appendAttributeId, bind, ObjectIdHex.
  rewrite Hid. unfold ret, Update_customers, db_write, next_fault, find_result.
  simpl.
  destruct (head (faults w)) as [[e|]|]; simpl; [done| |];
    by destruct (customers w !! uid).
Qed.

Lemma elem_of_addToSet v l : v ∈ addToSet v l.
Proof.
  unfold addToSet. case_bool_decide; [done|].
  apply elem_of_app. right. by apply list_elem_of_singleton.
Qed.

Lemma CreateCard_run ca userid w :
  let id := gen w (idpos w) in
  (userid = "" ∨ bson.IsObjectIdHex userid = true) → lets_through 0 w →
  ∃ ca' err w',
    mongodb.CreateCard ca userid w = Ok (ca', err) w' ∧
    cards w' !! id = Some (Card_Fields ca) ∧
    (userid = "" →
     err = None ∧ ca' = mkCard (Card_Fields ca) (bson.Hex id) ∧
     oplog w' = oplog w ++ [(OpUpsertId "cards" id, None)]) ∧
    (userid ≠ "" →
     ∃ uid, bson.ObjectIdHex userid = Some uid ∧
       oplog w' = oplog w ++ [(OpUpsertId "cards" id, None);
                              (OpUpdate uid "$addToSet" "cards" id, err)] ∧
       match err with
       | Some _ => ca' = ca
       | None =>
           ca' = mkCard (Card_Fields ca) (bson.Hex id) ∧
           ∃ d, customers w' !! uid = Some d ∧ id ∈ doc_cards d
       end).
Proof.
  intros id Huid H0. unfold mongodb.CreateCard.
  assert (negb (String.eqb userid "") && negb (bson.IsObjectIdHex userid)
          = false) as ->.
  { destruct Huid as [-> | ->]; [done|]. by rewrite andb_false_r. }
  unfold bind at 1. unfold NewObjectId. fold (gen w (idpos w)). fold id.
  clearbody id.
  unfold bind at 1. unfold UpsertId_cards, db_write, next_fault.
  cbn [faults set_idpos]. rewrite (lets_through_0 w H0).
  cbv beta iota zeta. cbn [MongoCard_ID MongoCard_Card].
  destruct (String.eqb_spec userid "") as [->|Hne]; cbn [negb].
  - unfold bind, ret. do 3 eexists. split; [reflexivity|].
    cbn [record set_oplog set_cards set_faults set_idpos cards oplog].
    split; [by rewrite lookup_insert_eq|]. split; [done|]. done.
  - destruct Huid as [->|Hok]; [done|].
    destruct (ObjectIdHex_of_IsObjectIdHex _ Hok) as (uid & Hid & _).
    unfold bind at 1. rewrite (appendAttributeId_eq _ _ _ uid _ Hid).
    cbv zeta.
    match goal with |- context [find_result uid ?x] =>
      set (w1 := x); set (r := find_result uid w1) end.
    assert (Hc1 : cards w1 !! id = Some (Card_Fields ca)).
    { unfold w1. cbn [record set_oplog set_cards cards].
      by rewrite lookup_insert_eq. }
    assert (Hl1 : oplog w1 = oplog w ++ [(OpUpsertId "cards" id, None)]).
    { reflexivity. }
    assert (Hr : r = find_result uid w1) by reflexivity.
    clearbody r. clearbody w1.
    destruct r as [e|].
    + unfold ret. do 3 eexists. split; [reflexivity|].
      cbn [record set_oplog set_faults cards oplog].
      split; [exact Hc1|]. split; [done|]. intros _. exists uid.
      split; [done|]. split; [|done]. rewrite Hl1. by rewrite <- app_assoc.
    + unfold find_result in Hr.
      destruct (default None (head (faults w1))); [done|].
      destruct (customers w1 !! uid) as [d|] eqn:Hd; [|done].
      unfold ret. do 3 eexists. split; [reflexivity|].
      cbn [record set_oplog set_faults set_customers cards oplog customers].
      split; [exact Hc1|]. split; [done|]. intros _. exists uid.
      split; [done|]. split; [rewrite Hl1; by rewrite <- app_assoc|].
      split; [done|]. eexists. rewrite lookup_insert_eq. split; [done|].
      cbn [modify_refs String.eqb Ascii.eqb Bool.eqb doc_cards].
      apply elem_of_addToSet.
Qed.

Lemma CreateAddress_run ca userid w :
  let id := gen w (idpos w) in
  (userid = "" ∨ bson.IsObjectIdHex userid = true) → lets_through 0 w →
  ∃ ca' err w',
    mongodb.CreateAddress ca userid w = Ok (ca', err) w' ∧
    addresses w' !! id = Some (Address_Fields ca) ∧
    (userid = "" →
     err = None ∧ ca' = mkAddress (Address_Fields ca) (bson.Hex id) ∧
     oplog w' = oplog w ++ [(OpUpsertId "addresses" id, None)]) ∧
    (userid ≠ "" →
     ∃ uid, bson.ObjectIdHex userid = Some uid ∧
       oplog w' = oplog w ++ [(OpUpsertId "addresses" id, None);
                              (OpUpdate uid "$addToSet" "addresses" id, err)] ∧
       match err with
       | Some _ => ca' = ca
       | None =>
           ca' = mkAddress (Address_Fields ca) (bson.Hex id) ∧
           ∃ d, customers w' !! uid = Some d ∧ id ∈ doc_addresses d
       end).
Proof.
  intros id Huid H0. unfold mongodb.CreateAddress.
  assert (negb (String.eqb userid "") && negb (bson.IsObjectIdHex userid)
          = false) as ->.
  { destruct Huid as [-> | ->]; [done|]. by rewrite andb_false_r. }
  unfold bind at 1. unfold NewObjectId. fold (gen w (idpos w)). fold id.
  clearbody id.
  unfold bind at 1. unfold UpsertId_addresses, db_write, next_fault.
  cbn [faults set_idpos]. rewrite (lets_through_0 w H0).
  cbv beta iota zeta. cbn [MongoAddress_ID MongoAddress_Address].
  destruct (String.eqb_spec userid "") as [->|Hne]; cbn [negb].
  - unfold bind, ret. do 3 eexists. split; [reflexivity|].
    cbn [record set_oplog set_addresses set_faults set_idpos addresses oplog].
    split; [by rewrite lookup_insert_eq|]. split; [done|]. done.
  - destruct Huid as [->|Hok]; [done|].
    destruct (ObjectIdHex_of_IsObjectIdHex _ Hok) as (uid & Hid & _).
    unfold bind at 1. rewrite (appendAttributeId_eq _ _ _ uid _ Hid).
    cbv zeta.
    match goal with |- context [find_result uid ?x] =>
      set (w1 := x); set (r := find_result uid w1) end.
    assert (Hc1 : addresses w1 !! id = Some (Address_Fields ca)).
    { unfold w1. cbn [record set_oplog set_addresses addresses].
      by rewrite lookup_insert_eq. }
    assert (Hl1 : oplog w1 = oplog w ++ [(OpUpsertId "addresses" id, None)]).
    { reflexivity. }
    assert (Hr : r = find_result uid w1) by reflexivity.
    clearbody r. clearbody w1.
    destruct r as [e|].
    + unfold ret. do 3 eexists. split; [reflexivity|].
      cbn [record set_oplog set_faults addresses oplog].
      split; [exact Hc1|]. split; [done|]. intros _. exists uid.
      split; [done|]. split; [|done]. rewrite Hl1. by rewrite <- app_assoc.
    + unfold find_result in Hr.
      destruct (default None (head (faults w1))); [done|].
      destruct (customers w1 !! uid) as [d|] eqn:Hd; [|done].
      unfold ret. do 3 eexists. split; [reflexivity|].
      cbn [record set_oplog set_faults set_customers addresses oplog customers].
      split; [exact Hc1|]. split; [done|]. intros _. exists uid.
      split; [done|]. split; [rewrite Hl1; by rewrite <- app_assoc|].
      split; [done|]. eexists. rewrite lookup_insert_eq. split; [done|].
      cbn [modify_refs String.eqb Ascii.eqb Bool.eqb doc_addresses].
      apply elem_of_addToSet.
Qed.

(** C6: [CreateCard] and [CreateAddress], the store letting the insert
    through: the entity is upserted first, under a newly generated
    identifier; no link step follows for an empty user id, and otherwise the
    identifier is added to the reference array of the user.  When the link
    step fails its error is returned, the entity stays in its collection, and
    the value of the caller is left as it was. *)
Theorem Create_entity_inserts_then_links :
  (∀ ca userid w,
     let id := gen w (idpos w) in
     (userid = "" ∨ bson.IsObjectIdHex userid = true) → lets_through 0 w →
     ∃ ca' err w',
       mongodb.CreateCard ca userid w = Ok (ca', err) w' ∧
       cards w' !! id = Some (Card_Fields ca) ∧
       (userid = "" →
        err = None ∧ ca' = mkCard (Card_Fields ca) (bson.Hex id) ∧
        oplog w' = oplog w ++ [(OpUpsertId "cards" id, None)]) ∧
       (userid ≠ "" →
        ∃ uid, bson.ObjectIdHex userid = Some uid ∧
          oplog w' = oplog w ++ [(OpUpsertId "cards" id, None);
                                 (OpUpdate uid "$addToSet" "cards" id, err)] ∧
          match err with
          | Some _ => ca' = ca
          | None =>
              ca' = mkCard (Card_Fields ca) (bson.Hex id) ∧
              ∃ d, customers w' !! uid = Some d ∧ id ∈ doc_cards d
          end)) ∧
  (∀ a userid w,
     let id := gen w (idpos w) in
     (userid = "" ∨ bson.IsObjectIdHex userid = true) → lets_through 0 w →
     ∃ a' err w',
       mongodb.CreateAddress a userid w = Ok (a', err) w' ∧
       addresses w' !! id = Some (Address_Fields a) ∧
       (userid = "" →
        err = None ∧ a' = mkAddress (Address_Fields a) (bson.Hex id) ∧
        oplog w' = oplog w ++ [(OpUpsertId "addresses" id, None)]) ∧
       (userid ≠ "" →
        ∃ uid, bson.ObjectIdHex userid = Some uid ∧
          oplog w' = oplog w ++ [(OpUpsertId "addresses" id, None);
                                 (OpUpdate uid "$addToSet" "addresses" id, err)] ∧
          match err with
          | Some _ => a' = a
          | None =>
              a' = mkAddress (Address_Fields a) (bson.Hex id) ∧
              ∃ d, customers w' !! uid = Some d ∧ id ∈ doc_addresses d
          end)).
Proof. split; [apply CreateCard_run | apply CreateAddress_run]. Qed.

Lemma Create_entity_inserts_then_links_witness :
  ∃ ca' w',
    mongodb.CreateCard (mkCard "4111" "") (bson.Hex (be_bytes 12 7))
      (sample_world []) = Ok (ca', Some ErrNotFound) w' ∧
    ca' = mkCard "4111" "" ∧
    cards w' !! gen (sample_world []) 0 = Some "4111".
Proof.
  destruct (proj1 Create_entity_inserts_then_links (mkCard "4111" "")
              (bson.Hex (be_bytes 12 7)) (sample_world []))
    as (ca' & err & w' & Hrun & Hdoc & _ & Hlink).
  - right. by apply IsObjectIdHex_Hex.
  - intros e. discriminate.
  - assert (Herr : run_error (mongodb.CreateCard (mkCard "4111" "")
                      (bson.Hex (be_bytes 12 7)) (sample_world []))
                   = Some ErrNotFound) by (vm_compute; reflexivity).
    rewrite Hrun in Herr. simpl in Herr. subst err.
    destruct Hlink as (uid & _ & _ & Hca); [discriminate|].
    exists ca', w'. split; [exact Hrun|]. split; [exact Hca | exact Hdoc].
Defined.

(** ** The identifier codec at the public operations *)

Lemma ObjectIdHex_malformed s : malformed s → bson.ObjectIdHex s = None.
Proof.
  intros Hm. apply IsObjectIdHex_false_iff in Hm.
  destruct (bson.ObjectIdHex s) as [id|] eqn:E; [|done].
  apply IsObjectIdHex_of_ObjectIdHex in E as [E _]. congruence.
Qed.

(** C7: encoding a valid identifier and decoding the string gives the
    identifier back; a malformed string is refused by [IsObjectIdHex], never
    decodes to an identifier, and makes every public operation that takes an
    identifier return the invalid-identifier error before it calls the
    store. *)
Theorem identifier_codec :
  (∀ x, bson.Valid x →
        bson.IsObjectIdHex (bson.Hex x) = true ∧
        bson.ObjectIdHex (bson.Hex x) = Some x) ∧
  (∀ s, malformed s →
        bson.IsObjectIdHex s = false ∧
        bson.ObjectIdHex s = None ∧
        (∀ w, ∃ u w',
           mongodb.GetUser s w = Ok (u, Some ErrInvalidHexID) w' ∧
           UserID u = "" ∧ oplog w' = oplog w) ∧
        (∀ w, mongodb.GetCard s w =
              Ok (mkCard "" "", Some ErrInvalidHexID) w) ∧
        (∀ w, mongodb.GetAddress s w =
              Ok (mkAddress "" "", Some ErrInvalidHexID) w) ∧
        (∀ entity w, mongodb.Delete entity s w = Ok (Some ErrInvalidHexID) w) ∧
        (s ≠ "" →
         (∀ ca w, mongodb.CreateCard ca s w = Ok (ca, Some ErrInvalidHexID) w) ∧
         (∀ a w, mongodb.CreateAddress a s w =
                 Ok (a, Some ErrInvalidHexID) w)) ∧
        (∀ u w, s ∈ map Address_ID (read_addrs (Addresses u) w) →
                mongodb.GetUserAttributes u w =
                  Ok (u, Some ErrInvalidHexID) w)).
Proof.
  split.
  - intros x Hx. split; [by apply IsObjectIdHex_Hex | by apply ObjectIdHex_Hex].
  - intros s Hm. pose proof (ObjectIdHex_malformed s Hm) as Hnone.
    apply IsObjectIdHex_false_iff in Hm.
    split; [exact Hm|]. split; [exact Hnone|].
    split_and!.
    + intros w. unfold mongodb.GetUser. rewrite Hm. cbn [negb].
      do 2 eexists. split; [reflexivity|]. done.
    + intros w. unfold mongodb.GetCard. by rewrite Hm.
    + intros w. unfold mongodb.GetAddress. by rewrite Hm.
    + intros entity w. unfold mongodb.Delete. by rewrite Hm.
    + intros Hne. apply String.eqb_neq in Hne.
      split; intros x w; unfold mongodb.CreateCard, mongodb.CreateAddress;
        by rewrite Hm, Hne.
    + intros u w Hin. apply GetUserAttributes_address_malformed.
      unfold address_refs_ok. intros Hall.
      apply list_elem_of_In, in_map_iff in Hin as (a & <- & Hin).
      apply list_elem_of_In in Hin.
      rewrite Forall_forall in Hall. specialize (Hall a Hin). congruence.
Qed.

Lemma identifier_codec_witness :
  bson.ObjectIdHex (bson.Hex (be_bytes 12 1)) = Some (be_bytes 12 1) ∧
  mongodb.Delete "customers" "not-an-id" (sample_world []) =
    Ok (Some ErrInvalidHexID) (sample_world []).
Proof.
  destruct identifier_codec as [Hrt Hbad]. split.
  - apply Hrt. reflexivity.
  - destruct (Hbad "not-an-id") as (_ & _ & _ & _ & _ & Hdel & _).
    + left. vm_compute. discriminate.
    + apply Hdel.
Defined.

(* ===================================================================== *)
(** * Further properties of the layer                                     *)
(* ===================================================================== *)

(** ** Creating and fetching a card or an address *)

Lemma length_be_bytes n v : String.length (be_bytes n v) = n.
Proof. induction n as [|n IH]; [done|]. cbn [be_bytes String.length]. by rewrite IH. Qed.

Lemma gen_Valid w n : bson.Valid (gen w n).
Proof. apply length_be_bytes. Qed.

Lemma CreateCard_success ca userid w ca' w' :
  mongodb.CreateCard ca userid w = Ok (ca', None) w' →
  let id := gen w (idpos w) in
  ca' = mkCard (Card_Fields ca) (bson.Hex id) ∧
  cards w' = <[id := Card_Fields ca]> (cards w) ∧
  addresses w' = addresses w ∧
  (userid = "" →
   customers w' = customers w ∧ faults w' = tail (faults w)) ∧
  (userid ≠ "" →
   ∃ uid d, bson.ObjectIdHex userid = Some uid ∧
     customers w !! uid = Some d ∧
     customers w' = <[uid := modify_refs "cards" (addToSet id) d]> (customers w) ∧
     faults w' = tail (tail (faults w))).
Proof.
  intros Hrun id. unfold mongodb.CreateCard in Hrun.
  destruct (String.eqb_spec userid "") as [->|Hne]; cbn [negb andb] in Hrun.
  - unfold bind at 1 in Hrun. unfold NewObjectId in Hrun.
    fold (gen w (idpos w)) in Hrun. fold id in Hrun. clearbody id.
    unfold bind at 1 in Hrun. unfold UpsertId_cards, db_write, next_fault in Hrun.
    cbn [faults set_idpos] in Hrun.
    destruct (default None (head (faults w))) as [e|] eqn:Hf;
      cbv beta iota zeta in Hrun; unfold bind, ret in Hrun; [done|].
    injection Hrun as <- <-.
    cbn [record set_oplog set_cards set_faults set_idpos cards addresses
         customers faults mongodb.MongoCard_AddID MongoCard_Card MongoCard_ID].
    split_and!; try done.
  - destruct (bson.IsObjectIdHex userid) eqn:Hok; cbn [negb] in Hrun;
      [|by injection Hrun].
    destruct (ObjectIdHex_of_IsObjectIdHex _ Hok) as (uid & Hid & _).
    unfold bind at 1 in Hrun. unfold NewObjectId in Hrun.
    fold (gen w (idpos w)) in Hrun. fold id in Hrun. clearbody id.
    unfold bind at 1 in Hrun. unfold UpsertId_cards, db_write, next_fault in Hrun.
    cbn [faults set_idpos] in Hrun.
    destruct (default None (head (faults w))) as [e|] eqn:Hf;
      cbv beta iota zeta in Hrun; [unfold bind, ret in Hrun; done|].
    unfold bind at 1 in Hrun.
    rewrite (appendAttributeId_eq _ _ _ uid _ Hid) in Hrun.
    cbv zeta in Hrun. unfold find_result in Hrun.
    cbn [record set_oplog set_cards set_faults set_idpos faults customers
         MongoCard_ID MongoCard_Card] in Hrun.
    destruct (default None (head (tail (faults w)))) as [e|] eqn:Hf2;
      [unfold ret in Hrun; done|].
    destruct (customers w !! uid) as [d|] eqn:Hd; [|unfold ret in Hrun; done].
    unfold ret in Hrun. injection Hrun as <- <-.
    cbn [record set_oplog set_cards set_customers set_faults set_idpos cards
         addresses customers faults mongodb.MongoCard_AddID MongoCard_Card MongoCard_ID].
    split_and!; try done. intros _. by exists uid, d.
Qed.

Lemma CreateAddress_success a userid w a' w' :
  mongodb.CreateAddress a userid w = Ok (a', None) w' →
  let id := gen w (idpos w) in
  a' = mkAddress (Address_Fields a) (bson.Hex id) ∧
  addresses w' = <[id := Address_Fields a]> (addresses w) ∧
  cards w' = cards w ∧
  (userid = "" →
   customers w' = customers w ∧ faults w' = tail (faults w)) ∧
  (userid ≠ "" →
   ∃ uid d, bson.ObjectIdHex userid = Some uid ∧
     customers w !! uid = Some d ∧
     customers w' =
       <[uid := modify_refs "addresses" (addToSet id) d]> (customers w) ∧
     faults w' = tail (tail (faults w))).
Proof.
  intros Hrun id. unfold mongodb.CreateAddress in Hrun.
  destruct (String.eqb_spec userid "") as [->|Hne]; cbn [negb andb] in Hrun.
  - unfold bind at 1 in Hrun. unfold NewObjectId in Hrun.
    fold (gen w (idpos w)) in Hrun. fold id in Hrun. clearbody id.
    unfold bind at 1 in Hrun.
    unfold UpsertId_addresses, db_write, next_fault in Hrun.
    cbn [faults set_idpos] in Hrun.
    destruct (default None (head (faults w))) as [e|] eqn:Hf;
      cbv beta iota zeta in Hrun; unfold bind, ret in Hrun; [done|].
    injection Hrun as <- <-.
    cbn [record set_oplog set_addresses set_faults set_idpos cards addresses
         customers faults mongodb.MongoAddress_AddID MongoAddress_Address
         MongoAddress_ID].
    split_and!; try done.
  - destruct (bson.IsObjectIdHex userid) eqn:Hok; cbn [negb] in Hrun;
      [|by injection Hrun].
    destruct (ObjectIdHex_of_IsObjectIdHex _ Hok) as (uid & Hid & _).
    unfold bind at 1 in Hrun. unfold NewObjectId in Hrun.
    fold (gen w (idpos w)) in Hrun. fold id in Hrun. clearbody id.
    unfold bind at 1 in Hrun.
    unfold UpsertId_addresses, db_write, next_fault in Hrun.
    cbn [faults set_idpos] in Hrun.
    destruct (default None (head (faults w))) as [e|] eqn:Hf;
      cbv beta iota zeta in Hrun; [unfold bind, ret in Hrun; done|].
    unfold bind at 1 in Hrun.
    rewrite (appendAttributeId_eq _ _ _ uid _ Hid) in Hrun.
    cbv zeta in Hrun. unfold find_result in Hrun.
    cbn [record set_oplog set_addresses set_faults set_idpos faults customers
         MongoAddress_ID MongoAddress_Address] in Hrun.
    destruct (default None (head (tail (faults w)))) as [e|] eqn:Hf2;
      [unfold ret in Hrun; done|].
    destruct (customers w !! uid) as [d|] eqn:Hd; [|unfold ret in Hrun; done].
    unfold ret in Hrun. injection Hrun as <- <-.
    cbn [record set_oplog set_addresses set_customers set_faults set_idpos
         cards addresses customers faults mongodb.MongoAddress_AddID
         MongoAddress_Address MongoAddress_ID].
    split_and!; try done. intros _. by exists uid, d.
Qed.

(** What [GetCard] and [GetAddress] answer for a well-formed identifier. *)
Lemma GetCard_eq id oid w :
  bson.ObjectIdHex id = Some oid →
  let w1 := set_faults (tail (faults w)) w in
  mongodb.GetCard id w =
    match default None (head (faults w)) with
    | Some e => Ok (mkCard "" "", Some e) (record (OpFindId "cards" oid) (Some e) w1)
    | None =>
        match cards w !! oid with
        | Some d =>
            Ok (mkCard d (bson.Hex oid), None)
               (record (OpFindId "cards" oid) None w1)
        | None =>
            Ok (mkCard "" "", Some ErrNotFound)
               (record (OpFindId "cards" oid) (Some ErrNotFound) w1)
        end
    end.
Proof.
  intros Hid. destruct (IsObjectIdHex_of_ObjectIdHex _ _ Hid) as [Hok _].
  unfold mongodb.GetCard. rewrite Hok. cbn [negb].
  unfold bind at 1. unfold ObjectIdHex. rewrite Hid. unfold ret at 1.
  unfold bind. unfold FindId_cards. rewrite db_read_eq.
  cbn [set_faults cards].
  destruct (default None (head (faults w))) as [e|]; [done|].
  by destruct (cards w !! oid).
Qed.

Lemma GetAddress_eq id oid w :
  bson.ObjectIdHex id = Some oid →
  let w1 := set_faults (tail (faults w)) w in
  mongodb.GetAddress id w =
    match default None (head (faults w)) with
    | Some e =>
        Ok (mkAddress "" "", Some e)
           (record (OpFindId "addresses" oid) (Some e) w1)
    | None =>
        match addresses w !! oid with
        | Some d =>
            Ok (mkAddress d (bson.Hex oid), None)
               (record (OpFindId "addresses" oid) None w1)
        | None =>
            Ok (mkAddress "" "", Some ErrNotFound)
               (record (OpFindId "addresses" oid) (Some ErrNotFound) w1)
        end
    end.
Proof.
  intros Hid. destruct (IsObjectIdHex_of_ObjectIdHex _ _ Hid) as [Hok _].
  unfold mongodb.GetAddress. rewrite Hok. cbn [negb].
  unfold bind at 1. unfold ObjectIdHex. rewrite Hid. unfold ret at 1.
  unfold bind. unfold FindId_addresses. rewrite db_read_eq.
  cbn [set_faults addresses].
  destruct (default None (head (faults w))) as [e|]; [done|].
  by destruct (addresses w !! oid).
Qed.

(** X1: [CreateCard] and [GetCard] round trip: after a [CreateCard] that
    returned no error, whether anonymous or linked to a user, and with the
    store letting the next call through, [GetCard] on the identifier
    written into the card returns that very card without error: the fields
    that were submitted and a well-formed identifier. *)
Theorem CreateCard_then_GetCard ca userid w ca' w' :
  mongodb.CreateCard ca userid w = Ok (ca', None) w' →
  lets_through 0 w' →
  ∃ w'', mongodb.GetCard (Card_ID ca') w' = Ok (ca', None) w'' ∧
         Card_Fields ca' = Card_Fields ca ∧
         bson.IsObjectIdHex (Card_ID ca') = true.
Proof.
  intros Hrun H0.
  destruct (CreateCard_success _ _ _ _ _ Hrun) as (-> & Hc & _).
  cbn [Card_ID Card_Fields].
  pose proof (gen_Valid w (idpos w)) as Hv.
  rewrite (GetCard_eq _ _ _ (ObjectIdHex_Hex _ Hv)).
  rewrite (lets_through_0 _ H0), Hc, lookup_insert_eq.
  eexists. split; [reflexivity|]. split; [done|]. by apply IsObjectIdHex_Hex.
Qed.

Lemma CreateCard_then_GetCard_witness :
  ∃ w'',
    mongodb.GetCard (bson.Hex (be_bytes 12 20))
      (run_world (mongodb.CreateCard (mkCard "5500" "") (bson.Hex alice_id)
                    (shared_world [])))
    = Ok (mkCard "5500" (bson.Hex (be_bytes 12 20)), None) w''.
Proof.
  destruct (CreateCard_then_GetCard (mkCard "5500" "") (bson.Hex alice_id)
              (shared_world [])
              (mkCard "5500" (bson.Hex (be_bytes 12 20)))
              (run_world (mongodb.CreateCard (mkCard "5500" "")
                            (bson.Hex alice_id) (shared_world []))))
    as (w'' & H & _).
  - vm_compute; reflexivity.
  - intros e. vm_compute. discriminate.
  - exists w''. exact H.
Defined.

(** X2: [CreateAddress] and [GetAddress] round trip: after a
    [CreateAddress] that returned no error, and with the store letting the
    next call through, [GetAddress] on the identifier written into the
    address returns that very address without error. *)
Theorem CreateAddress_then_GetAddress a userid w a' w' :
  mongodb.CreateAddress a userid w = Ok (a', None) w' →
  lets_through 0 w' →
  ∃ w'', mongodb.GetAddress (Address_ID a') w' = Ok (a', None) w'' ∧
         Address_Fields a' = Address_Fields a ∧
         bson.IsObjectIdHex (Address_ID a') = true.
Proof.
  intros Hrun H0.
  destruct (CreateAddress_success _ _ _ _ _ Hrun) as (-> & Hc & _).
  cbn [Address_ID Address_Fields].
  pose proof (gen_Valid w (idpos w)) as Hv.
  rewrite (GetAddress_eq _ _ _ (ObjectIdHex_Hex _ Hv)).
  rewrite (lets_through_0 _ H0), Hc, lookup_insert_eq.
  eexists. split; [reflexivity|]. split; [done|]. by apply IsObjectIdHex_Hex.
Qed.

Lemma CreateAddress_then_GetAddress_witness :
  ∃ w'',
    mongodb.GetAddress (bson.Hex (be_bytes 12 20))
      (run_world (mongodb.CreateAddress (mkAddress "Y" "") ""
                    (shared_world [])))
    = Ok (mkAddress "Y" (bson.Hex (be_bytes 12 20)), None) w''.
Proof.
  destruct (CreateAddress_then_GetAddress (mkAddress "Y" "") ""
              (shared_world [])
              (mkAddress "Y" (bson.Hex (be_bytes 12 20)))
              (run_world (mongodb.CreateAddress (mkAddress "Y" "") ""
                            (shared_world []))))
    as (w'' & H & _).
  - vm_compute; reflexivity.
  - intros e. vm_compute. discriminate.
  - exists w''. exact H.
Defined.

(** ** Missing documents and the reference arrays *)

Lemma GetUser_full id oid w :
  bson.ObjectIdHex id = Some oid →
  let d := loaded oid w in
  ∃ a c w',
    mongodb.GetUser id w =
      Ok (mkUser (from_option doc_username "" d) (from_option doc_profile "" d)
            a c (from_option (λ _, bson.Hex oid) "" d),
          find_result oid w) w' ∧
    read_addrs a w' =
      map (λ id, mkAddress "" (bson.Hex id)) (from_option doc_addresses [] d) ∧
    read_cards c w' =
      map (λ id, mkCard "" (bson.Hex id)) (from_option doc_cards [] d) ∧
    customers w' = customers w ∧ addresses w' = addresses w ∧
    cards w' = cards w ∧ others w' = others w ∧
    faults w' = tail (faults w) ∧ idsrc w' = idsrc w ∧ idpos w' = idpos w ∧
    oplog w' = oplog w ++ [(OpFindId "customers" oid, find_result oid w)].
Proof.
  intros Hid. destruct (IsObjectIdHex_of_ObjectIdHex _ _ Hid) as [Hok _].
  unfold mongodb.GetUser. rewrite Hok. cbn [negb].
  unfold bind at 1.
  set (la := fresh (dom (addrMem w))). set (lc := fresh (dom (cardMem w))).
  assert (HN : mongodb.New w =
    Ok (mkMongoUser (mkUser "" "" (Some la) (Some lc) "") "" [] [])
       (set_cardMem (<[lc := []]> (cardMem w))
          (set_addrMem (<[la := []]> (addrMem w)) w))) by reflexivity.
  rewrite HN. clear HN.
  unfold bind at 1. unfold ObjectIdHex. rewrite Hid. unfold ret at 1.
  unfold bind at 1. unfold FindId_customers. rewrite db_read_eq.
  cbn [faults set_faults set_cardMem set_addrMem customers].
  unfold loaded, find_result.
  destruct (default None (head (faults w))) as [e|] eqn:Hf;
    [|destruct (customers w !! oid) as [doc|] eqn:Hdoc];
    cbv beta iota zeta; unfold bind at 1;
    match goal with |- context [mongodb.AddUserIDs ?mu ?x] =>
      destruct (AddUserIDs_fresh mu la lc x)
        as (a & c & w' & Hrun & Hra & Hrc & Hm);
      [reflexivity|reflexivity|
       cbn [record set_oplog set_faults set_cardMem set_addrMem addrMem];
       apply lookup_insert_eq|
       cbn [record set_oplog set_faults set_cardMem set_addrMem cardMem];
       apply lookup_insert_eq|]
    end;
    rewrite Hrun; clear Hrun; unfold ret;
    destruct Hm as (E1 & E2 & E3 & E4 & E5 & E6 & E7 & E8);
    exists a, c, w'; (split; [reflexivity|]);
    rewrite E1, E2, E3, E4, E5, E6, E7, E8;
    cbn [record set_oplog set_faults set_cardMem set_addrMem customers
         addresses cards others faults idsrc idpos oplog];
    cbn [Addresses Cards MongoUser_User AddressIDs CardIDs unmarshalUser
         from_option] in Hra, Hrc |- *;
    by split_and!.
Qed.

(** X3: a well-formed identifier under which nothing is stored, the store
    letting the call through: [GetCard] and [GetAddress] return the driver's
    [ErrNotFound] with the zero value, whose id is the empty string and not
    the identifier asked for; [GetUser] returns [ErrNotFound] with an empty
    user: no name, an empty [UserID], two empty slices. *)
Theorem lookup_of_missing_id id oid w :
  bson.ObjectIdHex id = Some oid → lets_through 0 w →
  (cards w !! oid = None →
   run_result (mongodb.GetCard id w) = Some (mkCard "" "", Some ErrNotFound)) ∧
  (addresses w !! oid = None →
   run_result (mongodb.GetAddress id w) =
     Some (mkAddress "" "", Some ErrNotFound)) ∧
  (customers w !! oid = None →
   ∃ a c w', mongodb.GetUser id w =
               Ok (mkUser "" "" a c "", Some ErrNotFound) w' ∧
             read_addrs a w' = [] ∧ read_cards c w' = []).
Proof.
  intros Hid H0. apply lets_through_0 in H0. split_and!.
  - intros Hm. by rewrite (GetCard_eq _ _ _ Hid), H0, Hm.
  - intros Hm. by rewrite (GetAddress_eq _ _ _ Hid), H0, Hm.
  - intros Hm.
    destruct (GetUser_full id oid w Hid) as (a & c & w' & Hrun & Ha & Hc & _).
    unfold loaded, find_result in Hrun, Ha, Hc. rewrite H0, Hm in Hrun, Ha, Hc.
    by exists a, c, w'.
Qed.

Lemma lookup_of_missing_id_witness :
  run_result (mongodb.GetCard (bson.Hex orphan_id) (shared_world [])) =
    Some (mkCard "" "", Some ErrNotFound).
Proof.
  destruct (lookup_of_missing_id (bson.Hex orphan_id) orphan_id
              (shared_world [])) as (H & _).
  - by apply ObjectIdHex_Hex.
  - intros e. discriminate.
  - apply H. reflexivity.
Defined.

Lemma appendAttributeId_success attr id userid w w' :
  mongodb.appendAttributeId attr id userid w = Ok None w' →
  ∃ uid d, bson.ObjectIdHex userid = Some uid ∧
    customers w !! uid = Some d ∧
    customers w' = <[uid := modify_refs attr (addToSet id) d]> (customers w) ∧
    addresses w' = addresses w ∧ cards w' = cards w ∧
    faults w' = tail (faults w).
Proof.
  intros Hrun.
  destruct (bson.ObjectIdHex userid) as [uid|] eqn:Hid.
  - rewrite (appendAttributeId_eq _ _ _ uid _ Hid) in Hrun. cbv zeta in Hrun.
    unfold find_result in Hrun.
    destruct (default None (head (faults w))) as [e|]; [done|].
    destruct (customers w !! uid) as [d|] eqn:Hd; [|done].
    injection Hrun as <-. by exists uid, d.
  - unfold mongodb.appendAttributeId, bind, ObjectIdHex in Hrun.
    by rewrite Hid in Hrun.
Qed.

Lemma removeAttributeId_eq attr id userid uid w :
  bson.ObjectIdHex userid = Some uid →
  let w1 := set_faults (tail (faults w)) w in
  let r := find_result uid w in
  mongodb.removeAttributeId attr id userid w =
    Ok r (record (OpUpdate uid "$pull" attr id) r
            match r, customers w !! uid with
            | None, Some d =>
                set_customers
                  (<[uid := modify_refs attr (pull id) d]> (customers w)) w1
            | _, _ => w1
            end).
Proof.
  intros Hid. unfold mongodb.removeAttributeId, bind, ObjectIdHex.
  rewrite Hid. unfold ret, Update_customers, db_write, next_fault, find_result.
  simpl.
  destruct (head (faults w)) as [[e|]|]; simpl; [done| |];
    by destruct (customers w !! uid).
Qed.

Lemma addToSet_idemp v l : addToSet v (addToSet v l) = addToSet v l.
Proof.
  unfold addToSet at 1. rewrite bool_decide_eq_true_2; [done|].
  apply elem_of_addToSet.
Qed.

Lemma modify_refs_twice attr f g d :
  modify_refs attr f (modify_refs attr g d) = modify_refs attr (f ∘ g) d.
Proof.
  unfold modify_refs.
  destruct (String.eqb attr "addresses") eqn:E1; [done|].
  by destruct (String.eqb attr "cards") eqn:E2.
Qed.

Lemma modify_refs_ext attr f g d :
  (∀ l, f l = g l) → modify_refs attr f d = modify_refs attr g d.
Proof.
  intros H. unfold modify_refs.
  destruct (String.eqb attr "addresses"); [by rewrite H|].
  destruct (String.eqb attr "cards"); [by rewrite H|done].
Qed.

(** X4: linking is idempotent: when [appendAttributeId] has succeeded,
    repeating it with the same arguments succeeds again (the store letting
    the call through) and leaves every collection as the first call left
    it. *)
Theorem appendAttributeId_idempotent attr id userid w w1 :
  mongodb.appendAttributeId attr id userid w = Ok None w1 →
  lets_through 0 w1 →
  ∃ w2, mongodb.appendAttributeId attr id userid w1 = Ok None w2 ∧
        customers w2 = customers w1 ∧ addresses w2 = addresses w1 ∧
        cards w2 = cards w1.
Proof.
  intros Hrun H0.
  destruct (appendAttributeId_success _ _ _ _ _ Hrun)
    as (uid & d & Hid & Hd & Hc & _).
  rewrite (appendAttributeId_eq _ _ _ uid _ Hid). cbv zeta.
  unfold find_result. rewrite (lets_through_0 _ H0), Hc, lookup_insert_eq.
  eexists. split; [reflexivity|].
  cbn [record set_oplog set_customers set_faults customers addresses cards].
  split; [|done].
  rewrite insert_insert_eq, modify_refs_twice.
  f_equal. apply modify_refs_ext. intros l. apply addToSet_idemp.
Qed.

Lemma appendAttributeId_idempotent_witness :
  ∃ w2,
    mongodb.appendAttributeId "cards" card_id (bson.Hex bob_id)
      (run_world (mongodb.appendAttributeId "cards" card_id (bson.Hex bob_id)
                    (shared_world []))) = Ok None w2 ∧
    customers w2 !! bob_id = Some (mkUserDoc "bob" "pb" [stored_id] [card_id]).
Proof.
  destruct (appendAttributeId_idempotent "cards" card_id (bson.Hex bob_id)
              (shared_world [])
              (run_world (mongodb.appendAttributeId "cards" card_id
                            (bson.Hex bob_id) (shared_world []))))
    as (w2 & H & Hc & _).
  - vm_compute; reflexivity.
  - intros e. vm_compute. discriminate.
  - exists w2. split; [exact H|]. rewrite Hc. vm_compute. reflexivity.
Defined.

Lemma pull_absent v l : v ∉ l → pull v l = l.
Proof.
  unfold pull. induction l as [|x l IH]; intros Hv; [done|].
  apply not_elem_of_cons in Hv as [Hne Hv].
  rewrite filter_cons, decide_True by done. by rewrite IH.
Qed.

Lemma pull_addToSet v l : v ∉ l → pull v (addToSet v l) = l.
Proof.
  intros Hv. unfold addToSet. rewrite bool_decide_eq_false_2 by done.
  unfold pull. rewrite filter_app. fold (pull v l). rewrite pull_absent by done.
  rewrite filter_cons, decide_False; [apply app_nil_r|]. by intros H; apply H.
Qed.

(** X5: [removeAttributeId] undoes [appendAttributeId]: when the
    identifier was not in the reference array of the user before it was
    appended, removing it again, with the store letting the call through,
    succeeds and gives back the collections as they were before the
    append. *)
Theorem removeAttributeId_undoes_append attr id userid w w1 uid d :
  mongodb.appendAttributeId attr id userid w = Ok None w1 →
  bson.ObjectIdHex userid = Some uid → customers w !! uid = Some d →
  id ∉ doc_refs attr d →
  lets_through 0 w1 →
  ∃ w2, mongodb.removeAttributeId attr id userid w1 = Ok None w2 ∧
        customers w2 = customers w ∧ addresses w2 = addresses w ∧
        cards w2 = cards w.
Proof.
  intros Hrun Hid Hd Hnew H0.
  destruct (appendAttributeId_success _ _ _ _ _ Hrun)
    as (uid' & d' & Hid' & Hd' & Hcu & Had & Hca & _).
  rewrite Hid in Hid'. injection Hid' as <-.
  rewrite Hd in Hd'. injection Hd' as <-.
  rewrite (removeAttributeId_eq _ _ _ uid _ Hid). cbv zeta.
  unfold find_result. rewrite (lets_through_0 _ H0), Hcu, lookup_insert_eq.
  eexists. split; [reflexivity|].
  cbn [record set_oplog set_customers set_faults customers addresses cards].
  split; [|done].
  rewrite insert_insert_eq, modify_refs_twice.
  apply insert_id. rewrite Hd. f_equal.
  unfold modify_refs, doc_refs, compose in *. destruct d as [n p das dcs].
  cbn in *.
  destruct (String.eqb attr "addresses"); [by rewrite pull_addToSet|].
  destruct (String.eqb attr "cards"); [by rewrite pull_addToSet|done].
Qed.

Lemma removeAttributeId_undoes_append_witness :
  ∃ w2,
    mongodb.removeAttributeId "cards" card_id (bson.Hex bob_id)
      (run_world (mongodb.appendAttributeId "cards" card_id (bson.Hex bob_id)
                    (shared_world []))) = Ok None w2 ∧
    customers w2 = customers (shared_world []).
Proof.
  destruct (removeAttributeId_undoes_append "cards" card_id (bson.Hex bob_id)
              (shared_world [])
              (run_world (mongodb.appendAttributeId "cards" card_id
                            (bson.Hex bob_id) (shared_world [])))
              bob_id (mkUserDoc "bob" "pb" [stored_id] []))
    as (w2 & H & Hc & _).
  - vm_compute; reflexivity.
  - by apply ObjectIdHex_Hex.
  - reflexivity.
  - cbn. apply not_elem_of_nil.
  - intros e. vm_compute. discriminate.
  - exists w2. split; [exact H|exact Hc].
Defined.

(** X6: a card created for a user shows up on that user: after a
    [CreateCard] with a non-empty user id that returned no error, [GetUser]
    on that user id (the store letting the call through) succeeds, and the
    card stubs of the user it returns are the stub of the new card and the
    stubs of the cards the user document referred to before, nothing else;
    the address stubs are those of the document, unchanged. *)
Theorem CreateCard_link_visible ca userid w ca' w' :
  mongodb.CreateCard ca userid w = Ok (ca', None) w' → userid ≠ "" →
  lets_through 0 w' →
  ∃ uid d u w'',
    bson.ObjectIdHex userid = Some uid ∧ customers w !! uid = Some d ∧
    mongodb.GetUser userid w' = Ok (u, None) w'' ∧
    Username u = doc_username d ∧ UserID u = bson.Hex uid ∧
    (∀ c, c ∈ read_cards (Cards u) w'' ↔
          c = mkCard "" (Card_ID ca') ∨
          ∃ x, x ∈ doc_cards d ∧ c = mkCard "" (bson.Hex x)) ∧
    read_addrs (Addresses u) w'' =
      map (λ x, mkAddress "" (bson.Hex x)) (doc_addresses d).
Proof.
  intros Hrun Hne H0.
  destruct (CreateCard_success _ _ _ _ _ Hrun) as (-> & _ & _ & _ & Hl).
  destruct (Hl Hne) as (uid & d & Hid & Hd & Hcu & _).
  destruct (GetUser_full userid uid w' Hid)
    as (a & c & w'' & Hget & Ha & Hc & _).
  unfold loaded, find_result in Hget, Ha, Hc.
  rewrite (lets_through_0 _ H0), Hcu, lookup_insert_eq in Hget, Ha, Hc.
  cbn [from_option modify_refs String.eqb Ascii.eqb Bool.eqb doc_username
       doc_profile doc_addresses doc_cards] in Hget, Ha, Hc.
  exists uid, d. do 2 eexists. split; [done|]. split; [done|].
  split; [exact Hget|]. cbn [Username UserID Cards Addresses Card_ID].
  split; [done|]. split; [done|]. split; [|exact Ha].
  intros x. rewrite Hc.
  change (map ?f ?l) with (f <$> l). rewrite list_elem_of_fmap.
  unfold addToSet. case_bool_decide as Hin.
  - split.
    + intros (y & -> & Hy). right. by exists y.
    + intros [-> | (y & Hy & ->)]; eauto.
  - split.
    + intros (y & -> & Hy). apply elem_of_app in Hy as [Hy|Hy].
      * right. by exists y.
      * apply list_elem_of_singleton in Hy as ->. by left.
    + intros [-> | (y & Hy & ->)].
      * eexists. split; [done|]. apply elem_of_app. right.
        by apply list_elem_of_singleton.
      * exists y. split; [done|]. apply elem_of_app. by left.
Qed.

Lemma CreateCard_link_visible_witness :
  ∃ u w'',
    mongodb.GetUser (bson.Hex bob_id)
      (run_world (mongodb.CreateCard (mkCard "5500" "") (bson.Hex bob_id)
                    (shared_world []))) = Ok (u, None) w'' ∧
    Username u = "bob" ∧
    mkCard "" (bson.Hex (be_bytes 12 20)) ∈ read_cards (Cards u) w''.
Proof.
  destruct (CreateCard_link_visible (mkCard "5500" "") (bson.Hex bob_id)
              (shared_world [])
              (mkCard "5500" (bson.Hex (be_bytes 12 20)))
              (run_world (mongodb.CreateCard (mkCard "5500" "")
                            (bson.Hex bob_id) (shared_world []))))
    as (uid & d & u & w'' & Hid & Hd & Hget & Hn & _ & Hin & _).
  - vm_compute; reflexivity.
  - discriminate.
  - intros e. vm_compute. discriminate.
  - exists u, w''. split; [exact Hget|].
    assert (Hu : uid = bob_id).
    { rewrite ObjectIdHex_Hex in Hid by reflexivity. by injection Hid. }
    subst uid. injection Hd as <-.
    split; [exact Hn|]. apply Hin. by left.
Defined.

(** X7: an address created for a user shows up on that user: after a
    [CreateAddress] with a non-empty user id that returned no error,
    [GetUser] on that user id (the store letting the call through) succeeds,
    and the address stubs of the user it returns are the stub of the new
    address and the stubs of the addresses the user document referred to
    before, nothing else; the card stubs are those of the document. *)
Theorem CreateAddress_link_visible a userid w a' w' :
  mongodb.CreateAddress a userid w = Ok (a', None) w' → userid ≠ "" →
  lets_through 0 w' →
  ∃ uid d u w'',
    bson.ObjectIdHex userid = Some uid ∧ customers w !! uid = Some d ∧
    mongodb.GetUser userid w' = Ok (u, None) w'' ∧
    Username u = doc_username d ∧ UserID u = bson.Hex uid ∧
    (∀ c, c ∈ read_addrs (Addresses u) w'' ↔
          c = mkAddress "" (Address_ID a') ∨
          ∃ x, x ∈ doc_addresses d ∧ c = mkAddress "" (bson.Hex x)) ∧
    read_cards (Cards u) w'' =
      map (λ x, mkCard "" (bson.Hex x)) (doc_cards d).
Proof.
  intros Hrun Hne H0.
  destruct (CreateAddress_success _ _ _ _ _ Hrun) as (-> & _ & _ & _ & Hl).
  destruct (Hl Hne) as (uid & d & Hid & Hd & Hcu & _).
  destruct (GetUser_full userid uid w' Hid)
    as (aa & c & w'' & Hget & Ha & Hc & _).
  unfold loaded, find_result in Hget, Ha, Hc.
  rewrite (lets_through_0 _ H0), Hcu, lookup_insert_eq in Hget, Ha, Hc.
  cbn [from_option modify_refs String.eqb Ascii.eqb Bool.eqb doc_username
       doc_profile doc_addresses doc_cards] in Hget, Ha, Hc.
  exists uid, d. do 2 eexists. split; [done|]. split; [done|].
  split; [exact Hget|]. cbn [Username UserID Cards Addresses Address_ID].
  split; [done|]. split; [done|]. split; [|exact Hc].
  intros x. rewrite Ha.
  change (map ?f ?l) with (f <$> l). rewrite list_elem_of_fmap.
  unfold addToSet. case_bool_decide as Hin.
  - split.
    + intros (y & -> & Hy). right. by exists y.
    + intros [-> | (y & Hy & ->)]; eauto.
  - split.
    + intros (y & -> & Hy). apply elem_of_app in Hy as [Hy|Hy].
      * right. by exists y.
      * apply list_elem_of_singleton in Hy as ->. by left.
    + intros [-> | (y & Hy & ->)].
      * eexists. split; [done|]. apply elem_of_app. right.
        by apply list_elem_of_singleton.
      * exists y. split; [done|]. apply elem_of_app. by left.
Qed.

Lemma CreateAddress_link_visible_witness :
  ∃ u w'',
    mongodb.GetUser (bson.Hex bob_id)
      (run_world (mongodb.CreateAddress (mkAddress "Y" "") (bson.Hex bob_id)
                    (shared_world []))) = Ok (u, None) w'' ∧
    Username u = "bob" ∧
    mkAddress "" (bson.Hex (be_bytes 12 20)) ∈ read_addrs (Addresses u) w'' ∧
    mkAddress "" (bson.Hex stored_id) ∈ read_addrs (Addresses u) w''.
Proof.
  destruct (CreateAddress_link_visible (mkAddress "Y" "") (bson.Hex bob_id)
              (shared_world [])
              (mkAddress "Y" (bson.Hex (be_bytes 12 20)))
              (run_world (mongodb.CreateAddress (mkAddress "Y" "")
                            (bson.Hex bob_id) (shared_world []))))
    as (uid & d & u & w'' & Hid & Hd & Hget & Hn & _ & Hin & _).
  - vm_compute; reflexivity.
  - discriminate.
  - intros e. vm_compute. discriminate.
  - exists u, w''. split; [exact Hget|].
    assert (Hu : uid = bob_id).
    { rewrite ObjectIdHex_Hex in Hid by reflexivity. by injection Hid. }
    subst uid. injection Hd as <-.
    split; [exact Hn|]. split; apply Hin; [by left|right].
    exists stored_id. split; [|done]. apply list_elem_of_singleton. reflexivity.
Defined.

(** ** Edges and frame of Delete *)

(** [Delete] of anything but a user: the world the removal runs in. *)
Lemma Delete_nested_step entity id oid w :
  String.eqb entity "customers" = false →
  bson.ObjectIdHex id = Some oid →
  let r1 := default None (head (faults w)) in
  mongodb.Delete entity id w =
    Remove entity oid
      (record (OpUpdateAll "$pull" entity oid) r1
         match r1 with
         | None => set_customers
                     (modify_refs entity (pull oid) <$> customers w)
                     (set_faults (tail (faults w)) w)
         | Some _ => set_faults (tail (faults w)) w
         end).
Proof.
  intros Hent Hid r1.
  destruct (IsObjectIdHex_of_ObjectIdHex _ _ Hid) as [Hok _].
  unfold mongodb.Delete. rewrite Hok, Hent. cbn [negb].
  unfold bind at 1. unfold bind at 1. unfold ObjectIdHex. rewrite Hid.
  unfold ret at 1. unfold bind at 1. rewrite UpdateAll_customers_eq.
  fold r1. cbv beta iota zeta. unfold ret at 1.
  unfold bind at 1. unfold ret at 1. unfold bind.
  by destruct (Remove entity oid _).
Qed.

(** X8: [Delete] of a user whose load fails, because the store fails the
    call or because no user is stored under the identifier, returns the
    error of the load ([ErrNotFound] for a missing user) and stops there: the
    only call made on the store is the load, and the three collections are
    as they were. *)
Theorem Delete_customers_load_failure id oid w e :
  bson.ObjectIdHex id = Some oid →
  find_result oid w = Some e →
  ∃ w', mongodb.Delete "customers" id w = Ok (Some e) w' ∧
        customers w' = customers w ∧ addresses w' = addresses w ∧
        cards w' = cards w ∧
        oplog w' = oplog w ++ [(OpFindId "customers" oid, Some e)].
Proof.
  intros Hid Hfind.
  destruct (IsObjectIdHex_of_ObjectIdHex _ _ Hid) as [Hok _].
  destruct (GetUser_run id oid w Hid)
    as (u & w1 & Hget & Hcu & Had & Hca & _ & _ & _ & _ & Hlog & _).
  rewrite Hfind in Hget, Hlog.
  unfold mongodb.Delete. rewrite Hok. cbn [negb String.eqb Ascii.eqb Bool.eqb].
  unfold bind at 1. unfold bind at 1. rewrite Hget. cbv beta iota.
  unfold ret. by exists w1.
Qed.

Lemma Delete_customers_load_failure_witness :
  ∃ w',
    mongodb.Delete "customers" (bson.Hex orphan_id) (shared_world [])
      = Ok (Some ErrNotFound) w' ∧
    customers w' = customers (shared_world []) ∧
    oplog w' = [(OpFindId "customers" orphan_id, Some ErrNotFound)].
Proof.
  destruct (Delete_customers_load_failure (bson.Hex orphan_id) orphan_id
              (shared_world []) ErrNotFound)
    as (w' & Hrun & Hc & _ & _ & Hlog).
  - by apply ObjectIdHex_Hex.
  - reflexivity.
  - exists w'. split; [exact Hrun|]. split; [exact Hc|exact Hlog].
Defined.

(** X9: [Delete] of an address or card that is not stored, the store
    letting both calls through, returns [ErrNotFound], and yet the
    identifier has been pulled out of the matching reference array of every
    user document; the address and card collections are as they were. *)
Theorem Delete_nested_missing entity id oid w :
  entity = "addresses" ∨ entity = "cards" →
  bson.ObjectIdHex id = Some oid →
  coll_has entity oid w = false →
  lets_through 0 w → lets_through 1 w →
  ∃ w', mongodb.Delete entity id w = Ok (Some ErrNotFound) w' ∧
        customers w' = modify_refs entity (pull oid) <$> customers w ∧
        addresses w' = addresses w ∧ cards w' = cards w.
Proof.
  intros Hent Hid Hhas H0 H1.
  rewrite (Delete_nested_step entity id oid w) by
    (by destruct Hent as [-> | ->]).
  cbv zeta. rewrite (lets_through_0 _ H0), Remove_eq. cbv zeta.
  cbn [record set_oplog set_customers set_faults faults].
  rewrite (lets_through_1 _ H1).
  match goal with |- context [coll_has entity oid ?x] =>
    assert (coll_has entity oid x = false) as ->
  end.
  { rewrite <- Hhas. by destruct Hent as [-> | ->]. }
  eexists. split; [reflexivity|]. done.
Qed.

Lemma Delete_nested_missing_witness :
  ∃ w',
    mongodb.Delete "addresses" (bson.Hex orphan_id)
      (hydration_world []) = Ok (Some ErrNotFound) w' ∧
    customers w' !! be_bytes 12 9 = Some (mkUserDoc "alice" "" [stored_id] []).
Proof.
  destruct (Delete_nested_missing "addresses" (bson.Hex orphan_id) orphan_id
              (hydration_world []))
    as (w' & Hrun & Hc & _).
  - by left.
  - by apply ObjectIdHex_Hex.
  - reflexivity.
  - intros e. discriminate.
  - intros e. discriminate.
  - exists w'. split; [exact Hrun|]. rewrite Hc. vm_compute. reflexivity.
Defined.

(** X10: what [Delete] of an address or a card never touches, whatever
    the store does to its calls: it returns, every other document of the
    address and card collections stays as it was, the other nested
    collection is untouched as a whole, no user document appears or
    disappears, and every user document keeps its username, its profile
    and each reference other than the deleted identifier. *)
Theorem Delete_nested_frame entity id oid w :
  entity = "addresses" ∨ entity = "cards" →
  bson.ObjectIdHex id = Some oid →
  ∃ r w',
    mongodb.Delete entity id w = Ok r w' ∧
    (∀ k, k ≠ oid →
       addresses w' !! k = addresses w !! k ∧ cards w' !! k = cards w !! k) ∧
    (entity = "addresses" → cards w' = cards w) ∧
    (entity = "cards" → addresses w' = addresses w) ∧
    ∀ uid,
      match customers w !! uid, customers w' !! uid with
      | Some d, Some d' =>
          doc_username d' = doc_username d ∧ doc_profile d' = doc_profile d ∧
          ∀ x, x ≠ oid →
            (x ∈ doc_addresses d' ↔ x ∈ doc_addresses d) ∧
            (x ∈ doc_cards d' ↔ x ∈ doc_cards d)
      | None, None => True
      | _, _ => False
      end.
Proof.
  intros Hent Hid.
  rewrite (Delete_nested_step entity id oid w) by
    (by destruct Hent as [-> | ->]).
  cbv zeta. rewrite Remove_eq. cbv zeta.
  match goal with |- context [Ok ?r _] => generalize r end.
  intros r2. exists r2. eexists. split; [reflexivity|].
  set (r1 := default None (head (faults w))). clearbody r1.
  split_and!.
  - intros k Hk. destruct Hent as [-> | ->]; destruct r1, r2;
      cbn; rewrite ?lookup_delete_ne; done.
  - intros ->. by destruct r1, r2.
  - intros ->. by destruct r1, r2.
  - intros uid.
    assert (Hcust : ∀ m : gmap bson.ObjectId UserDoc,
              m = customers w ∨
              m = modify_refs entity (pull oid) <$> customers w →
              match customers w !! uid, m !! uid with
              | Some d, Some d' =>
                  doc_username d' = doc_username d ∧
                  doc_profile d' = doc_profile d ∧
                  ∀ x, x ≠ oid →
                    (x ∈ doc_addresses d' ↔ x ∈ doc_addresses d) ∧
                    (x ∈ doc_cards d' ↔ x ∈ doc_cards d)
              | None, None => True
              | _, _ => False
              end).
    { intros m [-> | ->].
      - by destruct (customers w !! uid).
      - rewrite lookup_fmap. destruct (customers w !! uid) as [d|]; [|done].
        cbn. destruct Hent as [-> | ->]; cbn; (split; [done|]);
          (split; [done|]); intros x Hx; unfold pull;
          rewrite list_elem_of_filter; tauto. }
    apply Hcust.
    destruct Hent as [-> | ->]; destruct r1, r2; cbn; auto.
Qed.

Lemma Delete_nested_frame_witness :
  ∃ r w',
    mongodb.Delete "addresses" (bson.Hex stored_id) (shared_world [])
      = Ok r w' ∧
    cards w' = cards (shared_world []).
Proof.
  destruct (Delete_nested_frame "addresses" (bson.Hex stored_id) stored_id
              (shared_world []))
    as (r & w' & Hrun & _ & Hc & _).
  - by left.
  - by apply ObjectIdHex_Hex.
  - exists r, w'. split; [exact Hrun|]. by apply Hc.
Defined.

(** [Delete] of a stored user, from the load on. *)
Lemma Delete_customers_step id oid doc w :
  bson.ObjectIdHex id = Some oid →
  customers w !! oid = Some doc →
  Forall bson.Valid (doc_addresses doc) → Forall bson.Valid (doc_cards doc) →
  find_result oid w = None →
  ∃ w3,
    mongodb.Delete "customers" id w = Remove "customers" oid w3 ∧
    customers w3 = customers w ∧
    (addresses w3 = addresses w ∨
     addresses w3 = foldr delete (addresses w) (doc_addresses doc)) ∧
    (cards w3 = cards w ∨
     cards w3 = foldr delete (cards w) (doc_cards doc)).
Proof.
  intros Hid Hdoc Hva Hvc Hfind.
  destruct (IsObjectIdHex_of_ObjectIdHex _ _ Hid) as [Hok _].
  destruct (GetUser_run id oid w Hid)
    as (u & w1 & Hget & Hcu & Had & Hca & Hot & Hfa & His & Hip & Hlog & Hrefs).
  rewrite Hfind in *. destruct (Hrefs doc eq_refl Hdoc) as [Hra Hrc].
  set (r1 := default None (head (faults w1))).
  set (r2 := default None (head (tail (faults w1)))).
  set (w2 := record (OpRemoveAll "addresses" (doc_addresses doc)) r1
               match r1 with
               | None => coll_remove "addresses" (doc_addresses doc)
                           (set_faults (tail (faults w1)) w1)
               | Some _ => set_faults (tail (faults w1)) w1
               end).
  set (w3 := record (OpRemoveAll "cards" (doc_cards doc)) r2
               match r2 with
               | None => coll_remove "cards" (doc_cards doc)
                           (set_faults (tail (faults w2)) w2)
               | Some _ => set_faults (tail (faults w2)) w2
               end).
  assert (Hf2 : faults w2 = tail (faults w1)).
  { unfold w2. by destruct r1. }
  assert (Hma : map Address_ID (read_addrs (Addresses u) w1) =
                map bson.Hex (doc_addresses doc)).
  { rewrite Hra, map_map. reflexivity. }
  assert (Hmc : map Card_ID (read_cards (Cards u) w1) =
                map bson.Hex (doc_cards doc)).
  { rewrite Hrc, map_map. reflexivity. }
  exists w3. split.
  { unfold mongodb.Delete. rewrite Hok. cbn [negb String.eqb Ascii.eqb Bool.eqb].
    unfold bind at 1. unfold bind at 1. rewrite Hget. cbv beta iota.
    unfold bind at 1. unfold bind at 1. rewrite Hma.
    rewrite (decoded_ids_Hex _ [] w1 Hva). cbn [app].
    unfold bind at 1. unfold bind at 1. rewrite Hmc.
    rewrite (decoded_ids_Hex _ [] w1 Hvc). cbn [app].
    unfold bind at 1. rewrite RemoveAll_eq. fold r1. cbv beta iota zeta.
    fold w2. unfold bind at 1. rewrite RemoveAll_eq. rewrite Hf2. fold r2.
    cbv beta iota zeta. rewrite <- Hf2. fold w3. unfold ret at 1.
    unfold bind at 1. unfold ObjectIdHex. rewrite Hid. unfold ret at 1.
    unfold bind. by destruct (Remove "customers" oid w3). }
  unfold w3, w2. destruct r1, r2; cbn; rewrite ?Hcu, ?Had, ?Hca; auto.
Qed.

(** X11: what [Delete] of a stored user never touches, whatever the store
    does to its calls (the identifiers held by its document being twelve
    bytes, as BSON has them): it returns, every other user document stays
    as it was (a reference it shares with the deleted user included, which
    the cascade may leave dangling), and no address or card is removed that
    the reference arrays of the deleted user do not name. *)
Theorem Delete_customers_frame id oid doc w :
  bson.ObjectIdHex id = Some oid →
  customers w !! oid = Some doc →
  Forall bson.Valid (doc_addresses doc) → Forall bson.Valid (doc_cards doc) →
  ∃ r w',
    mongodb.Delete "customers" id w = Ok r w' ∧
    (∀ k, k ≠ oid → customers w' !! k = customers w !! k) ∧
    (∀ a, a ∉ doc_addresses doc → addresses w' !! a = addresses w !! a) ∧
    (∀ c, c ∉ doc_cards doc → cards w' !! c = cards w !! c).
Proof.
  intros Hid Hdoc Hva Hvc.
  destruct (find_result oid w) as [e|] eqn:Hfind.
  - destruct (IsObjectIdHex_of_ObjectIdHex _ _ Hid) as [Hok _].
    destruct (GetUser_run id oid w Hid)
      as (u & w1 & Hget & Hcu & Had & Hca & _).
    rewrite Hfind in Hget.
    exists (Some e), w1. split.
    + unfold mongodb.Delete. rewrite Hok.
      cbn [negb String.eqb Ascii.eqb Bool.eqb].
      unfold bind at 1. unfold bind at 1. by rewrite Hget.
    + by rewrite Hcu, Had, Hca.
  - destruct (Delete_customers_step id oid doc w Hid Hdoc Hva Hvc Hfind)
      as (w3 & -> & Hc3 & Ha3 & Hd3).
    rewrite Remove_eq. cbv zeta.
    match goal with |- context [Ok ?r _] => generalize r end.
    intros r3. exists r3. eexists. split; [reflexivity|].
    split_and!.
    + intros k Hk. destruct r3; cbn; rewrite Hc3; [done|].
      by apply lookup_delete_ne.
    + intros a Ha. destruct r3; cbn; destruct Ha3 as [-> | ->]; try done;
        by apply lookup_foldr_delete_not_elem_of.
    + intros c Hc. destruct r3; cbn; destruct Hd3 as [-> | ->]; try done;
        by apply lookup_foldr_delete_not_elem_of.
Qed.

Lemma Delete_customers_frame_witness :
  ∃ r w',
    mongodb.Delete "customers" (bson.Hex alice_id) (shared_world [])
      = Ok r w' ∧
    customers w' !! bob_id = Some (mkUserDoc "bob" "pb" [stored_id] []) ∧
    addresses w' !! stored_id = None.
Proof.
  destruct (Delete_customers_frame (bson.Hex alice_id) alice_id
              (mkUserDoc "alice" "pa" [stored_id] [card_id])
              (shared_world []))
    as (r & w' & Hrun & Hc & _).
  - by apply ObjectIdHex_Hex.
  - reflexivity.
  - repeat constructor.
  - repeat constructor.
  - assert (Hgone : addresses
                      (run_world (mongodb.Delete "customers"
                                    (bson.Hex alice_id) (shared_world [])))
                    !! stored_id = None) by (vm_compute; reflexivity).
    rewrite Hrun in Hgone.
    exists r, w'. split; [exact Hrun|]. split; [|exact Hgone].
    rewrite Hc; [reflexivity|]. discriminate.
Defined.

(** ** CreateUser when the store lets the upserts through *)

(** The loop of [createCards] when the store lets every upsert through. *)
Lemma createCards_range_through (elems : list Card) :
  ∀ cs k ids w,
  (∀ i c, elems !! i = Some c → read_cards cs w !! (k + i)%nat = Some c) →
  (∀ i, (i < length elems)%nat → lets_through i w) →
  ∃ w',
    mongodb.createCards_range cs k elems ids w =
      Ok (ids ++ drawn w (idpos w) (length elems), None) w' ∧
    cards w' =
      insert_all (zip (drawn w (idpos w) (length elems))
                    (map Card_Fields elems)) (cards w) ∧
    customers w' = customers w ∧ addresses w' = addresses w ∧
    others w' = others w ∧ addrMem w' = addrMem w ∧
    faults w' = drop (length elems) (faults w) ∧ idsrc w' = idsrc w ∧
    idpos w' = (idpos w + length elems)%nat ∧
    oplog w' = oplog w ++
      map (λ id, (OpUpsertId "cards" id, None))
        (drawn w (idpos w) (length elems)) ∧
    length (read_cards cs w') = length (read_cards cs w) ∧
    (∀ i, (i < k)%nat → read_cards cs w' !! i = read_cards cs w !! i) ∧
    (∀ i c, elems !! i = Some c →
       read_cards cs w' !! (k + i)%nat =
         Some (mkCard (Card_Fields c) (bson.Hex (gen w (idpos w + i))))).
Proof.
  induction elems as [|ca rest IH]; intros cs k ids w Hel Hlt.
  - exists w. cbn. unfold ret. rewrite !app_nil_r, Nat.add_0_r, drop_0.
    split_and!; try done.
  - assert (Hf : default None (head (faults w)) = None).
    { apply lets_through_0, Hlt. cbn. lia. }
    destruct (read_cards_lookup cs w k ca) as (l & arr & -> & Hl & Hk).
    { rewrite <- (Nat.add_0_r k) at 1. by apply Hel. }
    rewrite (createCards_range_step l arr _ _ _ _ _ _ Hf eq_refl Hl Hk).
    set (id := gen w (idpos w)).
    match goal with |- context [mongodb.createCards_range _ _ _ _ ?x] =>
      set (w3 := x) end.
    assert (Hr3 : read_cards (Some l) w3 =
                  <[k := mkCard (Card_Fields ca) (bson.Hex id)]> arr).
    { unfold read_cards, w3. cbn [cardMem]. by rewrite lookup_insert_eq. }
    assert (Hr : read_cards (Some l) w = arr).
    { unfold read_cards. by rewrite Hl. }
    destruct (IH (Some l) (S k) (ids ++ [id]) w3)
      as (w' & Hrun & Hcards & Hcu & Had & Hot & Ham & Hfa & His & Hip &
          Hlog & Hlen & Hlow & Hset).
    { intros i c Hi. rewrite Hr3, list_lookup_insert_ne by lia.
      rewrite <- Hr. replace (S k + i)%nat with (k + S i)%nat by lia.
      by apply Hel. }
    { intros i Hi e. unfold w3; cbn [faults]. rewrite lookup_tail.
      apply (Hlt (S i)). cbn. lia. }
    assert (Hgen : gen w3 = gen w) by reflexivity.
    assert (Hdr : ∀ p n, drawn w3 p n = drawn w p n) by reflexivity.
    rewrite Hdr in Hrun, Hcards, Hlog.
    exists w'. rewrite Hrun.
    change (idpos w3) with (S (idpos w)) in *.
    change (drawn w (idpos w) (length (ca :: rest)))
      with (id :: drawn w (S (idpos w)) (length rest)).
    rewrite <- app_assoc. split_and!; try done.
    + rewrite Hfa. unfold w3; cbn [faults]. apply drop_tail.
    + rewrite Hip. cbn [length]. lia.
    + rewrite Hlog. unfold w3; cbn [oplog]. by rewrite <- app_assoc.
    + rewrite Hlen, Hr3, Hr. apply length_insert.
    + intros i Hi. rewrite Hlow by lia. rewrite Hr3, Hr.
      apply list_lookup_insert_ne. lia.
    + intros [|i] c Hc; simpl in Hc.
      * injection Hc as <-. rewrite Hlow by lia. rewrite Hr3.
        rewrite !Nat.add_0_r. apply list_lookup_insert_eq.
        by apply lookup_lt_Some in Hk.
      * replace (k + S i)%nat with (S k + i)%nat by lia.
        rewrite (Hset i c Hc). rewrite Hgen. do 4 f_equal. lia.
Qed.

(** The loop of [createAddresses] when the store lets every upsert through. *)
Lemma createAddresses_range_through (elems : list Address) :
  ∀ cs k ids w,
  (∀ i c, elems !! i = Some c → read_addrs cs w !! (k + i)%nat = Some c) →
  (∀ i, (i < length elems)%nat → lets_through i w) →
  ∃ w',
    mongodb.createAddresses_range cs k elems ids w =
      Ok (ids ++ drawn w (idpos w) (length elems), None) w' ∧
    addresses w' =
      insert_all (zip (drawn w (idpos w) (length elems))
                    (map Address_Fields elems)) (addresses w) ∧
    customers w' = customers w ∧ cards w' = cards w ∧
    others w' = others w ∧ cardMem w' = cardMem w ∧
    faults w' = drop (length elems) (faults w) ∧ idsrc w' = idsrc w ∧
    idpos w' = (idpos w + length elems)%nat ∧
    oplog w' = oplog w ++
      map (λ id, (OpUpsertId "addresses" id, None))
        (drawn w (idpos w) (length elems)) ∧
    length (read_addrs cs w') = length (read_addrs cs w) ∧
    (∀ i, (i < k)%nat → read_addrs cs w' !! i = read_addrs cs w !! i) ∧
    (∀ i c, elems !! i = Some c →
       read_addrs cs w' !! (k + i)%nat =
         Some (mkAddress (Address_Fields c) (bson.Hex (gen w (idpos w + i))))).
Proof.
  induction elems as [|ca rest IH]; intros cs k ids w Hel Hlt.
  - exists w. cbn. unfold ret. rewrite !app_nil_r, Nat.add_0_r, drop_0.
    split_and!; try done.
  - assert (Hf : default None (head (faults w)) = None).
    { apply lets_through_0, Hlt. cbn. lia. }
    destruct (read_addrs_lookup cs w k ca) as (l & arr & -> & Hl & Hk).
    { rewrite <- (Nat.add_0_r k) at 1. by apply Hel. }
    rewrite (createAddresses_range_step l arr _ _ _ _ _ _ Hf eq_refl Hl Hk).
    set (id := gen w (idpos w)).
    match goal with |- context [mongodb.createAddresses_range _ _ _ _ ?x] =>
      set (w3 := x) end.
    assert (Hr3 : read_addrs (Some l) w3 =
                  <[k := mkAddress (Address_Fields ca) (bson.Hex id)]> arr).
    { unfold read_addrs, w3. cbn [addrMem]. by rewrite lookup_insert_eq. }
    assert (Hr : read_addrs (Some l) w = arr).
    { unfold read_addrs. by rewrite Hl. }
    destruct (IH (Some l) (S k) (ids ++ [id]) w3)
      as (w' & Hrun & Haddrs & Hcu & Had & Hot & Ham & Hfa & His & Hip &
          Hlog & Hlen & Hlow & Hset).
    { intros i c Hi. rewrite Hr3, list_lookup_insert_ne by lia.
      rewrite <- Hr. replace (S k + i)%nat with (k + S i)%nat by lia.
      by apply Hel. }
    { intros i Hi e. unfold w3; cbn [faults]. rewrite lookup_tail.
      apply (Hlt (S i)). cbn. lia. }
    assert (Hgen : gen w3 = gen w) by reflexivity.
    assert (Hdr : ∀ p n, drawn w3 p n = drawn w p n) by reflexivity.
    rewrite Hdr in Hrun, Haddrs, Hlog.
    exists w'. rewrite Hrun.
    change (idpos w3) with (S (idpos w)) in *.
    change (drawn w (idpos w) (length (ca :: rest)))
      with (id :: drawn w (S (idpos w)) (length rest)).
    rewrite <- app_assoc. split_and!; try done.
    + rewrite Hfa. unfold w3; cbn [faults]. apply drop_tail.
    + rewrite Hip. cbn [length]. lia.
    + rewrite Hlog. unfold w3; cbn [oplog]. by rewrite <- app_assoc.
    + rewrite Hlen, Hr3, Hr. apply length_insert.
    + intros i Hi. rewrite Hlow by lia. rewrite Hr3, Hr.
      apply list_lookup_insert_ne. lia.
    + intros [|i] c Hc; simpl in Hc.
      * injection Hc as <-. rewrite Hlow by lia. rewrite Hr3.
        rewrite !Nat.add_0_r. apply list_lookup_insert_eq.
        by apply lookup_lt_Some in Hk.
      * replace (k + S i)%nat with (S k + i)%nat by lia.
        rewrite (Hset i c Hc). rewrite Hgen. do 4 f_equal. lia.
Qed.

Lemma lookup_drawn w p n i :
  (i < n)%nat → drawn w p n !! i = Some (gen w (p + i)).
Proof.
  intros Hi. unfold drawn. change (map ?f ?l) with (f <$> l).
  by rewrite list_lookup_fmap, lookup_seq_lt.
Qed.

Lemma length_drawn w p n : length (drawn w p n) = n.
Proof. unfold drawn. by rewrite length_map, length_seq. Qed.

Lemma drawn_Valid w p n : Forall bson.Valid (drawn w p n).
Proof.
  unfold drawn. apply Forall_forall. intros x Hx.
  apply list_elem_of_In, in_map_iff in Hx as (i & <- & _). apply gen_Valid.
Qed.

(** [CreateUser] up to the upsert of the user record, when the store lets
    the upserts of the nested documents through. *)
Lemma CreateUser_through u w :
  let n := length (read_cards (Cards u) w) in
  let m := length (read_addrs (Addresses u) w) in
  let uid := gen w (idpos w) in
  let cids := drawn w (S (idpos w)) n in
  let aids := drawn w (S (idpos w) + n) m in
  let mu := mkMongoUser u uid aids cids in
  (∀ i, (i < n + m)%nat → lets_through i w) →
  ∃ w4,
    mongodb.CreateUser u w =
      match UpsertId_customers uid mu w4 with
      | Ok err w5 =>
          match err with
          | Some e => do _ <- mongodb.cleanAttributes mu; ret (u, Some e)
          | None =>
              ret (mkUser (Username u) (Profile u) (Addresses u) (Cards u)
                     (bson.Hex uid), None)
          end w5
      | Panic msg w5 => Panic msg w5
      end ∧
    customers w4 = customers w ∧
    cards w4 =
      insert_all (zip cids (map Card_Fields (read_cards (Cards u) w)))
        (cards w) ∧
    addresses w4 =
      insert_all (zip aids (map Address_Fields (read_addrs (Addresses u) w)))
        (addresses w) ∧
    faults w4 = drop (n + m) (faults w) ∧
    oplog w4 = oplog w ++
      map (λ id, (OpUpsertId "cards" id, None)) cids ++
      map (λ id, (OpUpsertId "addresses" id, None)) aids ∧
    read_cards (Cards u) w4 =
      zip_with (λ c id, mkCard (Card_Fields c) (bson.Hex id))
        (read_cards (Cards u) w) cids ∧
    read_addrs (Addresses u) w4 =
      zip_with (λ a id, mkAddress (Address_Fields a) (bson.Hex id))
        (read_addrs (Addresses u) w) aids.
Proof.
  intros n m uid cids aids mu Hlt.
  destruct (New_run (set_idpos (S (idpos w)) w)) as (a0 & c0 & HN).
  cbn [customers addresses cards others cardMem addrMem faults idsrc idpos
       oplog set_idpos] in HN.
  match type of HN with _ = Ok _ ?x => set (wN := x) in HN end.
  assert (HrcN : read_cards (Cards u) wN = read_cards (Cards u) w).
  { destruct (Cards u) as [l|]; [|done]. apply alloc_nil_read. }
  assert (HraN : read_addrs (Addresses u) wN = read_addrs (Addresses u) w).
  { destruct (Addresses u) as [l|]; [|done]. apply alloc_nil_read. }
  destruct (createCards_range_through (read_cards (Cards u) wN) (Cards u) 0 []
              wN)
    as (w3 & Hc & Hc_ca & Hc_cu & Hc_ad & Hc_ot & Hc_am & Hc_fa & Hc_is &
        Hc_ip & Hc_log & Hc_len & _ & Hc_set).
  { intros i c Hi. exact Hi. }
  { intros i Hi e. rewrite HrcN in Hi. apply (Hlt i). lia. }
  pose proof Hc as Hc0.
  rewrite HrcN in Hc, Hc_ca, Hc_fa, Hc_ip, Hc_log, Hc_len, Hc_set.
  change (drawn wN (idpos wN) (length (read_cards (Cards u) w)))
    with cids in Hc, Hc_ca, Hc_log.
  assert (Hra3 : read_addrs (Addresses u) w3 = read_addrs (Addresses u) w).
  { rewrite <- HraN. unfold read_addrs. by rewrite Hc_am. }
  destruct (createAddresses_range_through (read_addrs (Addresses u) w3)
              (Addresses u) 0 [] w3)
    as (w4 & Ha & Ha_ad & Ha_cu & Ha_ca & Ha_ot & Ha_cm & Ha_fa & Ha_is &
        Ha_ip & Ha_log & Ha_len & _ & Ha_set).
  { intros i c Hi. exact Hi. }
  { intros i Hi e. rewrite Hra3 in Hi. rewrite Hc_fa, lookup_drop.
    apply (Hlt (length (read_cards (Cards u) w) + i)%nat). fold n m. fold m in Hi. lia. }
  pose proof Ha as Ha0.
  rewrite Hra3 in Ha, Ha_ad, Ha_fa, Ha_ip, Ha_log, Ha_len, Ha_set.
  assert (Hdr : drawn w3 (idpos w3) (length (read_addrs (Addresses u) w)) = aids).
  { unfold drawn, gen. rewrite Hc_is, Hc_ip. reflexivity. }
  rewrite Hdr in Ha, Ha_ad, Ha_log.
  assert (Hrc4 : read_cards (Cards u) w4 = read_cards (Cards u) w3).
  { unfold read_cards. by rewrite Ha_cm. }
  exists w4. split_and!.
  - unfold mongodb.CreateUser, bind, NewObjectId. cbv beta iota.
    rewrite HN. unfold mongodb.createCards. rewrite Hc0.
    unfold mongodb.createAddresses. rewrite Ha0.
    rewrite HrcN, Hra3, Hdr. reflexivity.
  - by rewrite Ha_cu, Hc_cu.
  - by rewrite Ha_ca, Hc_ca.
  - by rewrite Ha_ad, Hc_ad.
  - rewrite Ha_fa, Hc_fa. unfold wN; cbn [faults]. by rewrite drop_drop.
  - rewrite Ha_log, Hc_log. unfold wN; cbn [oplog]. by rewrite <- app_assoc.
  - rewrite Hrc4. apply list_eq. intros i. rewrite lookup_zip_with.
    destruct (read_cards (Cards u) w !! i) as [c|] eqn:Hi.
    + pose proof (Hc_set i c Hi) as Hs. change (0 + i)%nat with i in Hs.
      rewrite Hs. unfold cids.
      rewrite lookup_drawn by (by apply lookup_lt_Some in Hi). reflexivity.
    + apply lookup_ge_None. rewrite Hc_len. by apply lookup_ge_None.
  - apply list_eq. intros i. rewrite lookup_zip_with.
    destruct (read_addrs (Addresses u) w !! i) as [c|] eqn:Hi.
    + pose proof (Ha_set i c Hi) as Hs. change (0 + i)%nat with i in Hs.
      rewrite Hs. unfold aids.
      rewrite lookup_drawn by (by apply lookup_lt_Some in Hi).
      cbn [option_fmap option_map fmap]. unfold gen. rewrite Hc_is, Hc_ip.
      reflexivity.
    + apply lookup_ge_None. rewrite Ha_len. by apply lookup_ge_None.
Qed.

Lemma quiet_0 k w : quiet (S k) w → default None (head (faults w)) = None.
Proof. intros H. apply lets_through_0, H. lia. Qed.

Lemma quiet_drop j k w w' :
  faults w' = drop j (faults w) → quiet (j + k) w → quiet k w'.
Proof.
  intros Hf H i Hi e. rewrite Hf, lookup_drop. apply H. lia.
Qed.

Lemma tail_drop {A} (k : nat) (l : list A) :
  tail (drop k l) = drop (k + 1) l.
Proof. rewrite <- drop_drop. by destruct (drop k l). Qed.

Lemma quiet_le j k w : (j ≤ k)%nat → quiet k w → quiet j w.
Proof. intros Hle H i Hi. apply H. lia. Qed.

Lemma UpsertId_customers_free id mu w :
  default None (head (faults w)) = None →
  username_free (Username (MongoUser_User mu)) w →
  UpsertId_customers id mu w =
    Ok None (record (OpUpsertId "customers" id) None
               (set_customers (<[id := marshalUser mu]> (customers w))
                  (set_faults (tail (faults w)) w))).
Proof.
  intros Hf Hfree.
  unfold UpsertId_customers, db_write, next_fault, upsert_customer.
  rewrite Hf. cbn [set_faults customers].
  rewrite bool_decide_eq_false_2; [done|].
  intros (k & d & Hk & _ & Hd). by apply (Hfree k d Hk).
Qed.

Lemma UpsertId_customers_taken id mu w k d :
  default None (head (faults w)) = None →
  customers w !! k = Some d → k ≠ id →
  doc_username d = Username (MongoUser_User mu) →
  UpsertId_customers id mu w =
    Ok (Some ErrDuplicateKey)
       (record (OpUpsertId "customers" id) (Some ErrDuplicateKey)
          (set_faults (tail (faults w)) w)).
Proof.
  intros Hf Hk Hne Hd.
  unfold UpsertId_customers, db_write, next_fault, upsert_customer.
  rewrite Hf. cbn [set_faults customers].
  rewrite bool_decide_eq_true_2; [done|].
  exists k, d. done.
Qed.

Lemma insert_all_notin {V} (kvs : list (bson.ObjectId * V)) :
  ∀ m k, k ∉ kvs.*1 → insert_all kvs m !! k = m !! k.
Proof.
  induction kvs as [|[k0 v0] kvs IH]; intros m k Hk; [done|].
  cbn in Hk. apply not_elem_of_cons in Hk as [Hne Hk].
  change (insert_all ((k0, v0) :: kvs) m)
    with (insert_all kvs (<[k0:=v0]> m)).
  rewrite IH by done. by apply lookup_insert_ne.
Qed.

Lemma insert_all_lookup {V} (kvs : list (bson.ObjectId * V)) :
  ∀ m i k v, NoDup kvs.*1 → kvs !! i = Some (k, v) →
  insert_all kvs m !! k = Some v.
Proof.
  induction kvs as [|[k0 v0] kvs IH]; intros m i k v Hnd Hi; [done|].
  cbn in Hnd. apply NoDup_cons in Hnd as [Hk0 Hnd].
  change (insert_all ((k0, v0) :: kvs) m)
    with (insert_all kvs (<[k0:=v0]> m)).
  destruct i as [|i]; cbn in Hi.
  - injection Hi as -> ->. rewrite insert_all_notin by done.
    apply lookup_insert_eq.
  - by apply (IH _ i).
Qed.

Lemma insert_all_is_Some {V} (kvs : list (bson.ObjectId * V)) :
  ∀ m k, k ∈ kvs.*1 → is_Some (insert_all kvs m !! k).
Proof.
  induction kvs as [|[k0 v0] kvs IH]; intros m k Hk.
  - by apply elem_of_nil in Hk.
  - change (insert_all ((k0, v0) :: kvs) m)
      with (insert_all kvs (<[k0:=v0]> m)).
    destruct (decide (k ∈ kvs.*1)) as [Hin|Hnin]; [by apply IH|].
    rewrite insert_all_notin by done.
    cbn in Hk. apply elem_of_cons in Hk as [->|Hk]; [|done].
    rewrite lookup_insert_eq. eauto.
Qed.

(** [CreateUser] when the store lets every upsert through and the username
    is free. *)
Lemma CreateUser_success u w :
  let n := length (read_cards (Cards u) w) in
  let m := length (read_addrs (Addresses u) w) in
  let uid := gen w (idpos w) in
  let cids := drawn w (S (idpos w)) n in
  let aids := drawn w (S (idpos w) + n) m in
  quiet (n + m + 1) w → username_free (Username u) w →
  ∃ w',
    mongodb.CreateUser u w =
      Ok (mkUser (Username u) (Profile u) (Addresses u) (Cards u)
            (bson.Hex uid), None) w' ∧
    customers w' =
      <[uid := mkUserDoc (Username u) (Profile u) aids cids]> (customers w) ∧
    cards w' =
      insert_all (zip cids (map Card_Fields (read_cards (Cards u) w)))
        (cards w) ∧
    addresses w' =
      insert_all (zip aids (map Address_Fields (read_addrs (Addresses u) w)))
        (addresses w) ∧
    faults w' = drop (n + m + 1) (faults w) ∧
    read_cards (Cards u) w' =
      zip_with (λ c id, mkCard (Card_Fields c) (bson.Hex id))
        (read_cards (Cards u) w) cids ∧
    read_addrs (Addresses u) w' =
      zip_with (λ a id, mkAddress (Address_Fields a) (bson.Hex id))
        (read_addrs (Addresses u) w) aids.
Proof.
  intros n m uid cids aids Hq Hfree.
  destruct (CreateUser_through u w)
    as (w4 & Hrun & Hcu & Hca & Had & Hfa & Hlog & Hrc & Hra).
  { apply (quiet_le _ (n + m + 1)); [lia|done]. }
  fold n m uid cids aids in Hrun, Hcu, Hca, Had, Hfa, Hlog, Hrc, Hra.
  rewrite UpsertId_customers_free in Hrun; cycle 1.
  { apply (quiet_0 0), (quiet_drop (n + m) 1 w); done. }
  { intros k d. rewrite Hcu. apply Hfree. }
  exists (record (OpUpsertId "customers" uid) None
            (set_customers
               (<[uid := marshalUser (mkMongoUser u uid aids cids)]>
                  (customers w4))
               (set_faults (tail (faults w4)) w4))).
  split; [exact Hrun|].
  cbn [record set_oplog set_customers set_faults customers cards addresses
       faults].
  split_and!.
  - by rewrite Hcu.
  - done.
  - done.
  - rewrite Hfa. apply tail_drop.
  - done.
  - done.
Qed.

(** ** Creating a user and reading it back *)

Lemma stubs_of_cards (l : list Card) : ∀ ids,
  length l = length ids →
  map (λ c, mkCard "" (Card_ID c))
    (zip_with (λ c id, mkCard (Card_Fields c) (bson.Hex id)) l ids) =
  map (λ id, mkCard "" (bson.Hex id)) ids.
Proof.
  induction l as [|c l IH]; intros [|id ids] Hlen; try done.
  cbn. f_equal. apply IH. by injection Hlen.
Qed.

Lemma stubs_of_addrs (l : list Address) : ∀ ids,
  length l = length ids →
  map (λ a, mkAddress "" (Address_ID a))
    (zip_with (λ a id, mkAddress (Address_Fields a) (bson.Hex id)) l ids) =
  map (λ id, mkAddress "" (bson.Hex id)) ids.
Proof.
  induction l as [|c l IH]; intros [|id ids] Hlen; try done.
  cbn. f_equal. apply IH. by injection Hlen.
Qed.

(** X12: [CreateUser] and [GetUser] round trip: with a free username and
    the store letting the calls through, [CreateUser] succeeds, every nested
    card and address of the payload is kept, and [GetUser] on the [UserID]
    it wrote returns a user with the same id, username and profile whose
    card and address stubs carry, in order, the ids that [CreateUser] wrote
    into the nested values of the caller, and no fields. *)
Theorem CreateUser_then_GetUser u w :
  let n := length (read_cards (Cards u) w) in
  let m := length (read_addrs (Addresses u) w) in
  quiet (n + m + 2) w → username_free (Username u) w →
  ∃ u' w' g w'',
    mongodb.CreateUser u w = Ok (u', None) w' ∧
    mongodb.GetUser (UserID u') w' = Ok (g, None) w'' ∧
    UserID g = UserID u' ∧ Username g = Username u ∧ Profile g = Profile u ∧
    length (read_cards (Cards u') w') = n ∧
    length (read_addrs (Addresses u') w') = m ∧
    read_cards (Cards g) w'' =
      map (λ c, mkCard "" (Card_ID c)) (read_cards (Cards u') w') ∧
    read_addrs (Addresses g) w'' =
      map (λ a, mkAddress "" (Address_ID a)) (read_addrs (Addresses u') w').
Proof.
  intros n m Hq Hfree.
  destruct (CreateUser_success u w)
    as (w' & Hrun & Hcu & _ & _ & Hfa & Hrc & Hra).
  { apply (quiet_le _ (n + m + 2)); [lia|done]. }
  { done. }
  fold n m in Hrun, Hcu, Hfa, Hrc, Hra.
  set (uid := gen w (idpos w)) in *.
  assert (Hid : bson.ObjectIdHex (bson.Hex uid) = Some uid).
  { apply ObjectIdHex_Hex, gen_Valid. }
  destruct (GetUser_full (bson.Hex uid) uid w' Hid)
    as (a & c & w'' & Hget & Ha & Hc & _).
  assert (Hload : loaded uid w' =
            Some (mkUserDoc (Username u) (Profile u)
                    (drawn w (S (idpos w) + n) m) (drawn w (S (idpos w)) n))).
  { unfold loaded, find_result.
    rewrite (quiet_0 0 w'); [by rewrite Hcu, lookup_insert_eq|].
    apply (quiet_drop (n + m + 1) 1 w); [done|].
    apply (quiet_le _ (n + m + 2)); [lia|done]. }
  assert (Hfind : find_result uid w' = None).
  { unfold loaded in Hload. by destruct (find_result uid w'). }
  rewrite Hload in Hget, Ha, Hc. rewrite Hfind in Hget.
  cbn [from_option doc_username doc_profile doc_addresses doc_cards]
    in Hget, Ha, Hc.
  do 4 eexists. split; [exact Hrun|]. cbn [UserID Cards Addresses].
  split; [exact Hget|]. cbn [UserID Username Profile Cards Addresses].
  split_and!; try done.
  - rewrite Hrc, length_zip_with, length_drawn. fold n. lia.
  - rewrite Hra, length_zip_with, length_drawn. fold m. lia.
  - rewrite Hc, Hrc. symmetry. apply stubs_of_cards. by rewrite length_drawn.
  - rewrite Ha, Hra. symmetry. apply stubs_of_addrs. by rewrite length_drawn.
Qed.

Lemma CreateUser_then_GetUser_witness :
  ∃ u' w' g w'',
    mongodb.CreateUser sample_user (sample_world []) = Ok (u', None) w' ∧
    mongodb.GetUser (UserID u') w' = Ok (g, None) w'' ∧
    Username g = "alice" ∧
    length (read_cards (Cards g) w'') = 2%nat.
Proof.
  destruct (CreateUser_then_GetUser sample_user (sample_world []))
    as (u' & w' & g & w'' & Hc & Hg & _ & Hn & _ & Hlen & _ & Hcards & _).
  - intros i _ e. cbn [sample_world faults]. by rewrite lookup_nil.
  - intros k d Hk. cbn [sample_world customers] in Hk.
    by rewrite lookup_empty in Hk.
  - exists u', w', g, w''. split; [exact Hc|]. split; [exact Hg|].
    split; [exact Hn|]. rewrite Hcards, length_map. exact Hlen.
Defined.

Lemma GetUserByName_full name w :
  let d := named name w in
  ∃ a c w',
    mongodb.GetUserByName name w =
      Ok (mkUser (from_option (λ kv, doc_username kv.2) "" d)
            (from_option (λ kv, doc_profile kv.2) "" d)
            a c (from_option (λ kv, bson.Hex kv.1) "" d),
          name_result name w) w' ∧
    read_addrs a w' =
      map (λ id, mkAddress "" (bson.Hex id))
        (from_option (λ kv, doc_addresses kv.2) [] d) ∧
    read_cards c w' =
      map (λ id, mkCard "" (bson.Hex id))
        (from_option (λ kv, doc_cards kv.2) [] d) ∧
    customers w' = customers w ∧ addresses w' = addresses w ∧
    cards w' = cards w ∧ others w' = others w ∧
    faults w' = tail (faults w) ∧ idsrc w' = idsrc w ∧ idpos w' = idpos w ∧
    oplog w' = oplog w.
Proof.
  unfold mongodb.GetUserByName.
  unfold bind at 1.
  set (la := fresh (dom (addrMem w))). set (lc := fresh (dom (cardMem w))).
  assert (HN : mongodb.New w =
    Ok (mkMongoUser (mkUser "" "" (Some la) (Some lc) "") "" [] [])
       (set_cardMem (<[lc := []]> (cardMem w))
          (set_addrMem (<[la := []]> (addrMem w)) w))) by reflexivity.
  rewrite HN. clear HN.
  unfold bind at 1. unfold FindOne_username, db_scan, next_fault.
  cbn [faults set_faults set_cardMem set_addrMem customers].
  unfold named, name_result.
  destruct (default None (head (faults w))) as [e|] eqn:Hf;
    [|destruct (list_find _ (map_to_list (customers w))) as [[i [k doc]]|]
        eqn:Hfind];
    cbv beta iota zeta; unfold bind at 1;
    match goal with |- context [mongodb.AddUserIDs ?mu ?x] =>
      destruct (AddUserIDs_fresh mu la lc x)
        as (a & c & w' & Hrun & Hra & Hrc & Hm);
      [reflexivity|reflexivity|
       cbn [set_faults set_cardMem set_addrMem addrMem];
       apply lookup_insert_eq|
       cbn [set_faults set_cardMem set_addrMem cardMem];
       apply lookup_insert_eq|]
    end;
    rewrite Hrun; clear Hrun; unfold ret;
    destruct Hm as (E1 & E2 & E3 & E4 & E5 & E6 & E7 & E8);
    exists a, c, w'; (split; [reflexivity|]);
    rewrite E1, E2, E3, E4, E5, E6, E7, E8;
    cbn [set_faults set_cardMem set_addrMem customers
         addresses cards others faults idsrc idpos oplog];
    cbn [Addresses Cards MongoUser_User AddressIDs CardIDs unmarshalUser
         from_option fmap option_fmap option_map snd fst] in Hra, Hrc |- *;
    by split_and!.
Qed.

Lemma named_unique name w oid doc :
  default None (head (faults w)) = None →
  customers w !! oid = Some doc → doc_username doc = name →
  (∀ k d, customers w !! k = Some d → doc_username d = name → k = oid) →
  named name w = Some (oid, doc) ∧ name_result name w = None.
Proof.
  intros Hf Hdoc Hname Huniq. unfold named, name_result. rewrite Hf.
  destruct (list_find (λ kv, doc_username kv.2 = name)
              (map_to_list (customers w))) as [[i [k d]]|] eqn:Hfind.
  - apply list_find_Some in Hfind as (Hi & Hp & _). cbn in Hp.
    apply list_elem_of_lookup_2, elem_of_map_to_list in Hi.
    pose proof (Huniq k d Hi Hp) as ->.
    rewrite Hdoc in Hi. by injection Hi as ->.
  - exfalso. apply list_find_None in Hfind.
    rewrite Forall_forall in Hfind.
    apply (Hfind (oid, doc)); [|done]. by apply elem_of_map_to_list.
Qed.

Lemma named_free name w :
  default None (head (faults w)) = None → username_free name w →
  named name w = None ∧ name_result name w = Some ErrNotFound.
Proof.
  intros Hf Hfree. unfold named, name_result. rewrite Hf.
  destruct (list_find (λ kv, doc_username kv.2 = name)
              (map_to_list (customers w))) as [[i [k d]]|] eqn:Hfind; [|done].
  apply list_find_Some in Hfind as (Hi & Hp & _). cbn in Hp.
  apply list_elem_of_lookup_2, elem_of_map_to_list in Hi.
  by destruct (Hfree k d Hi).
Qed.

(** X13: [GetUserByName], the store letting the call through: when
    exactly one stored user has the name (as the unique index of
    [EnsureIndexes] guarantees when any has) it returns that user without
    error, with the hex form of the key as [UserID] and one stub per
    reference of the document; when no stored user has the name it returns
    [ErrNotFound] with an empty user whose [UserID] is the empty string. *)
Theorem GetUserByName_unique name w :
  lets_through 0 w →
  (∀ oid doc,
     customers w !! oid = Some doc → doc_username doc = name →
     (∀ k d, customers w !! k = Some d → doc_username d = name → k = oid) →
     ∃ a c w',
       mongodb.GetUserByName name w =
         Ok (mkUser name (doc_profile doc) a c (bson.Hex oid), None) w' ∧
       read_addrs a w' =
         map (λ id, mkAddress "" (bson.Hex id)) (doc_addresses doc) ∧
       read_cards c w' = map (λ id, mkCard "" (bson.Hex id)) (doc_cards doc)) ∧
  (username_free name w →
   ∃ a c w',
     mongodb.GetUserByName name w =
       Ok (mkUser "" "" a c "", Some ErrNotFound) w' ∧
     read_addrs a w' = [] ∧ read_cards c w' = []).
Proof.
  intros H0. apply lets_through_0 in H0.
  destruct (GetUserByName_full name w) as (a & c & w' & Hrun & Ha & Hc & _).
  split.
  - intros oid doc Hdoc Hname Huniq.
    destruct (named_unique name w oid doc H0 Hdoc Hname Huniq) as [Hn Hr].
    rewrite Hn in Hrun, Ha, Hc. rewrite Hr in Hrun.
    cbn [from_option fst snd] in Hrun, Ha, Hc. rewrite Hname in Hrun.
    by exists a, c, w'.
  - intros Hfree. destruct (named_free name w H0 Hfree) as [Hn Hr].
    rewrite Hn in Hrun, Ha, Hc. rewrite Hr in Hrun.
    by exists a, c, w'.
Qed.

Lemma GetUserByName_unique_witness :
  ∃ a c w',
    mongodb.GetUserByName "bob" (shared_world []) =
      Ok (mkUser "bob" "pb" a c (bson.Hex bob_id), None) w' ∧
    read_addrs a w' = [mkAddress "" (bson.Hex stored_id)].
Proof.
  destruct (GetUserByName_unique "bob" (shared_world [])) as [H _].
  - intros e. discriminate.
  - destruct (H bob_id (mkUserDoc "bob" "pb" [stored_id] []))
      as (a & c & w' & Hrun & Ha & _).
    + reflexivity.
    + reflexivity.
    + intros k d Hk Hd. cbn [shared_world customers] in Hk.
      apply lookup_insert_Some in Hk as [[<- <-]|[_ Hk]]; [done|].
      apply lookup_insert_Some in Hk as [[<- <-]|[_ Hk]]; [done|].
      by rewrite lookup_empty in Hk.
    + exists a, c, w'. split; [exact Hrun|exact Ha].
Defined.

(** X14: a created user is found by name: with a free username and the
    store letting the calls through, [CreateUser] succeeds and
    [GetUserByName] on the username returns the user with the [UserID] that
    [CreateUser] wrote and with stubs for exactly the nested values that
    were created. *)
Theorem CreateUser_then_GetUserByName u w :
  let n := length (read_cards (Cards u) w) in
  let m := length (read_addrs (Addresses u) w) in
  quiet (n + m + 2) w → username_free (Username u) w →
  ∃ u' w' g w'',
    mongodb.CreateUser u w = Ok (u', None) w' ∧
    mongodb.GetUserByName (Username u) w' = Ok (g, None) w'' ∧
    UserID g = UserID u' ∧ Username g = Username u ∧ Profile g = Profile u ∧
    read_cards (Cards g) w'' =
      map (λ c, mkCard "" (Card_ID c)) (read_cards (Cards u') w') ∧
    read_addrs (Addresses g) w'' =
      map (λ a, mkAddress "" (Address_ID a)) (read_addrs (Addresses u') w').
Proof.
  intros n m Hq Hfree.
  destruct (CreateUser_success u w)
    as (w' & Hrun & Hcu & _ & _ & Hfa & Hrc & Hra).
  { apply (quiet_le _ (n + m + 2)); [lia|done]. }
  { done. }
  fold n m in Hrun, Hcu, Hfa, Hrc, Hra.
  set (uid := gen w (idpos w)) in *.
  set (doc := mkUserDoc (Username u) (Profile u)
                (drawn w (S (idpos w) + n) m) (drawn w (S (idpos w)) n)) in *.
  destruct (GetUserByName_full (Username u) w')
    as (a & c & w'' & Hget & Ha & Hc & _).
  destruct (named_unique (Username u) w' uid doc) as [Hn Hr].
  { apply (quiet_0 0 w'), (quiet_drop (n + m + 1) 1 w); [done|].
    apply (quiet_le _ (n + m + 2)); [lia|done]. }
  { by rewrite Hcu, lookup_insert_eq. }
  { done. }
  { intros k d. rewrite Hcu. destruct (decide (k = uid)) as [->|Hne]; [done|].
    rewrite lookup_insert_ne by done. intros Hk Hd. by destruct (Hfree k d Hk). }
  rewrite Hn in Hget, Ha, Hc. rewrite Hr in Hget.
  cbn [from_option fst snd doc doc_username doc_profile doc_addresses doc_cards]
    in Hget, Ha, Hc.
  do 4 eexists. split; [exact Hrun|]. split; [exact Hget|].
  cbn [UserID Username Profile Cards Addresses].
  split_and!; try done.
  - rewrite Hc, Hrc. symmetry. apply stubs_of_cards. by rewrite length_drawn.
  - rewrite Ha, Hra. symmetry. apply stubs_of_addrs. by rewrite length_drawn.
Qed.

Lemma CreateUser_then_GetUserByName_witness :
  ∃ u' w' g w'',
    mongodb.CreateUser sample_user (sample_world []) = Ok (u', None) w' ∧
    mongodb.GetUserByName "alice" w' = Ok (g, None) w'' ∧
    UserID g = UserID u'.
Proof.
  destruct (CreateUser_then_GetUserByName sample_user (sample_world []))
    as (u' & w' & g & w'' & Hc & Hg & Hid & _).
  - intros i _ e. cbn [sample_world faults]. by rewrite lookup_nil.
  - intros k d Hk. cbn [sample_world customers] in Hk.
    by rewrite lookup_empty in Hk.
  - exists u', w', g, w''. split; [exact Hc|]. split; [exact Hg|exact Hid].
Defined.

Lemma docs_in_insert_all ids (fs : list string) m id d :
  NoDup ids → length ids = length fs →
  (id, d) ∈ docs_in ids (insert_all (zip ids fs) m) ↔ (id, d) ∈ zip ids fs.
Proof.
  intros Hnd Hlen.
  assert (Hfst : (zip ids fs).*1 = ids) by (apply fst_zip; lia).
  rewrite elem_of_docs_in. split.
  - intros [Hin Hd].
    apply list_elem_of_lookup in Hin as [i Hi].
    destruct (lookup_lt_is_Some_2 fs i) as [f Hf].
    { rewrite <- Hlen. by apply lookup_lt_Some in Hi. }
    assert (Hz : zip ids fs !! i = Some (id, f)).
    { by rewrite lookup_zip_with, Hi, Hf. }
    rewrite (insert_all_lookup _ m i id f) in Hd; [|by rewrite Hfst|done].
    injection Hd as <-. by apply list_elem_of_lookup_2 in Hz.
  - intros Hin. apply list_elem_of_lookup in Hin as [i Hz]. split.
    + rewrite <- Hfst. apply list_elem_of_fmap. by exists (id, d);
        split; [|apply list_elem_of_lookup_2 in Hz].
    + apply (insert_all_lookup _ m i); [by rewrite Hfst|done].
Qed.

Lemma zip_hydrate_cards (l : list Card) : ∀ ids,
  zip_with (λ c id, mkCard (Card_Fields c) (bson.Hex id)) l ids =
  map hydrate_card (zip ids (map Card_Fields l)).
Proof.
  induction l as [|c l IH]; intros [|id ids]; try done.
  cbn. f_equal. apply IH.
Qed.

Lemma zip_hydrate_addrs (l : list Address) : ∀ ids,
  zip_with (λ a id, mkAddress (Address_Fields a) (bson.Hex id)) l ids =
  map hydrate_address (zip ids (map Address_Fields l)).
Proof.
  induction l as [|c l IH]; intros [|id ids]; try done.
  cbn. f_equal. apply IH.
Qed.

Lemma card_refs_decode (l : list Card) : ∀ ids ids',
  length l = length ids → Forall bson.Valid ids →
  Forall2 (λ c id, bson.ObjectIdHex (Card_ID c) = Some id)
    (zip_with (λ c id, mkCard (Card_Fields c) (bson.Hex id)) l ids) ids' →
  ids' = ids.
Proof.
  induction l as [|c l IH]; intros [|id ids] ids' Hlen Hv HF; try done.
  - by apply Forall2_nil_inv_l in HF.
  - cbn in HF. apply Forall2_cons_inv_l in HF as (x & xs & Hx & HF & ->).
    apply Forall_cons in Hv as [Hv1 Hv]. cbn in Hx.
    rewrite (ObjectIdHex_Hex _ Hv1) in Hx. injection Hx as <-.
    f_equal. apply IH; [by injection Hlen|done|done].
Qed.

Lemma addr_refs_decode (l : list Address) : ∀ ids ids',
  length l = length ids → Forall bson.Valid ids →
  Forall2 (λ c id, bson.ObjectIdHex (Address_ID c) = Some id)
    (zip_with (λ c id, mkAddress (Address_Fields c) (bson.Hex id)) l ids) ids' →
  ids' = ids.
Proof.
  induction l as [|c l IH]; intros [|id ids] ids' Hlen Hv HF; try done.
  - by apply Forall2_nil_inv_l in HF.
  - cbn in HF. apply Forall2_cons_inv_l in HF as (x & xs & Hx & HF & ->).
    apply Forall_cons in Hv as [Hv1 Hv]. cbn in Hx.
    rewrite (ObjectIdHex_Hex _ Hv1) in Hx. injection Hx as <-.
    f_equal. apply IH; [by injection Hlen|done|done].
Qed.

Lemma card_refs_wellformed (l : list Card) : ∀ ids,
  Forall bson.Valid ids →
  Forall (λ c, bson.IsObjectIdHex (Card_ID c) = true)
    (zip_with (λ c id, mkCard (Card_Fields c) (bson.Hex id)) l ids).
Proof.
  induction l as [|c l IH]; intros [|id ids] Hv; try by constructor.
  apply Forall_cons in Hv as [Hv1 Hv]. cbn. constructor; [|by apply IH].
  by apply IsObjectIdHex_Hex.
Qed.

Lemma addr_refs_wellformed (l : list Address) : ∀ ids,
  Forall bson.Valid ids →
  Forall (λ c, bson.IsObjectIdHex (Address_ID c) = true)
    (zip_with (λ c id, mkAddress (Address_Fields c) (bson.Hex id)) l ids).
Proof.
  induction l as [|c l IH]; intros [|id ids] Hv; try by constructor.
  apply Forall_cons in Hv as [Hv1 Hv]. cbn. constructor; [|by apply IH].
  by apply IsObjectIdHex_Hex.
Qed.

Lemma fields_of_cards (l : list Card) : ∀ ids,
  length l = length ids →
  map Card_Fields
    (zip_with (λ c id, mkCard (Card_Fields c) (bson.Hex id)) l ids) =
  map Card_Fields l.
Proof.
  induction l as [|c l IH]; intros [|id ids] Hlen; try done.
  cbn. f_equal. apply IH. by injection Hlen.
Qed.

Lemma fields_of_addrs (l : list Address) : ∀ ids,
  length l = length ids →
  map Address_Fields
    (zip_with (λ c id, mkAddress (Address_Fields c) (bson.Hex id)) l ids) =
  map Address_Fields l.
Proof.
  induction l as [|c l IH]; intros [|id ids] Hlen; try done.
  cbn. f_equal. apply IH. by injection Hlen.
Qed.

(** X15: the aggregate is stored and hydrated back: with a free username,
    the store letting the calls through and the drawn identifiers distinct,
    [CreateUser] succeeds, the nested values of the caller keep their
    fields, and [GetUserAttributes] on the returned user succeeds with cards
    and addresses that are, as sets, exactly the nested values of the
    caller with the ids [CreateUser] gave them. *)
Theorem CreateUser_then_GetUserAttributes u w :
  let n := length (read_cards (Cards u) w) in
  let m := length (read_addrs (Addresses u) w) in
  quiet (n + m + 3) w → username_free (Username u) w →
  NoDup (drawn w (S (idpos w)) n) → NoDup (drawn w (S (idpos w) + n) m) →
  ∃ u' w' h w'',
    mongodb.CreateUser u w = Ok (u', None) w' ∧
    mongodb.GetUserAttributes u' w' = Ok (h, None) w'' ∧
    UserID h = UserID u' ∧ Username h = Username u ∧
    map Card_Fields (read_cards (Cards u') w') =
      map Card_Fields (read_cards (Cards u) w) ∧
    map Address_Fields (read_addrs (Addresses u') w') =
      map Address_Fields (read_addrs (Addresses u) w) ∧
    (∀ c, c ∈ read_cards (Cards h) w'' ↔ c ∈ read_cards (Cards u') w') ∧
    (∀ a, a ∈ read_addrs (Addresses h) w'' ↔
          a ∈ read_addrs (Addresses u') w').
Proof.
  intros n m Hq Hfree Hndc Hnda.
  destruct (CreateUser_success u w)
    as (w' & Hrun & _ & Hca & Had & Hfa & Hrc & Hra).
  { apply (quiet_le _ (n + m + 3)); [lia|done]. }
  { done. }
  fold n m in Hrun, Hca, Had, Hfa, Hrc, Hra.
  set (cids := drawn w (S (idpos w)) n) in *.
  set (aids := drawn w (S (idpos w) + n) m) in *.
  set (u' := mkUser (Username u) (Profile u) (Addresses u) (Cards u)
               (bson.Hex (gen w (idpos w)))) in *.
  assert (Hq' : quiet 2 w').
  { apply (quiet_drop (n + m + 1) 2 w); [done|].
    apply (quiet_le _ (n + m + 3)); [lia|done]. }
  destruct (GetUserAttributes_ok u' w')
    as (aids' & cids' & HFa & HFc & Hget).
  { unfold address_refs_ok. cbn [u' Addresses]. rewrite Hra.
    apply addr_refs_wellformed, drawn_Valid. }
  { unfold card_refs_ok. cbn [u' Cards]. rewrite Hrc.
    apply card_refs_wellformed, drawn_Valid. }
  { apply Hq'. lia. }
  { apply Hq'. lia. }
  cbn [u' Addresses Cards] in HFa, HFc. rewrite Hra in HFa. rewrite Hrc in HFc.
  apply addr_refs_decode in HFa;
    [|by unfold aids; rewrite length_drawn|apply drawn_Valid].
  apply card_refs_decode in HFc;
    [|by unfold cids; rewrite length_drawn|apply drawn_Valid].
  subst aids' cids'. cbv zeta in Hget.
  do 4 eexists. split; [exact Hrun|]. split; [exact Hget|].
  cbn [UserID Username Cards Addresses read_cards read_addrs cardMem addrMem
       u'].
  rewrite !lookup_insert_eq. cbn [default]. unfold Datatypes.id.
  fold (read_cards (Cards u) w') (read_addrs (Addresses u) w').
  rewrite Hrc, Hra, Hca, Had.
  split; [done|]. split; [done|]. split_and!.
  - apply fields_of_cards. unfold cids. by rewrite length_drawn.
  - apply fields_of_addrs. unfold aids. by rewrite length_drawn.
  - intros c. rewrite zip_hydrate_cards.
    change (map ?f ?l) with (f <$> l). rewrite !list_elem_of_fmap.
    split; intros ([id d] & -> & Hin); exists (id, d); (split; [done|]).
    + apply docs_in_insert_all in Hin; [done|done|].
      unfold cids. by rewrite length_drawn, length_map.
    + apply docs_in_insert_all; [done| |done].
      unfold cids. by rewrite length_drawn, length_map.
  - intros c. rewrite zip_hydrate_addrs.
    change (map ?f ?l) with (f <$> l). rewrite !list_elem_of_fmap.
    split; intros ([id d] & -> & Hin); exists (id, d); (split; [done|]).
    + apply docs_in_insert_all in Hin; [done|done|].
      unfold aids. by rewrite length_drawn, length_map.
    + apply docs_in_insert_all; [done| |done].
      unfold aids. by rewrite length_drawn, length_map.
Qed.

Lemma CreateUser_then_GetUserAttributes_witness :
  ∃ u' w' h w'',
    mongodb.CreateUser sample_user (sample_world []) = Ok (u', None) w' ∧
    mongodb.GetUserAttributes u' w' = Ok (h, None) w'' ∧
    map Card_Fields (read_cards (Cards u') w') = ["4111"; "5500"] ∧
    (∀ c, c ∈ read_cards (Cards h) w'' ↔ c ∈ read_cards (Cards u') w').
Proof.
  destruct (CreateUser_then_GetUserAttributes sample_user (sample_world []))
    as (u' & w' & h & w'' & Hc & Hg & _ & _ & Hf & _ & Hcards & _).
  - intros i _ e. cbn [sample_world faults]. by rewrite lookup_nil.
  - intros k d Hk. cbn [sample_world customers] in Hk.
    by rewrite lookup_empty in Hk.
  - apply (bool_decide_unpack _). vm_compute. reflexivity.
  - apply (bool_decide_unpack _). vm_compute. reflexivity.
  - exists u', w', h, w''. split; [exact Hc|]. split; [exact Hg|].
    split; [exact Hf|exact Hcards].
Defined.

Lemma cleanAttributes_through mu w :
  quiet 2 w →
  ∃ w',
    mongodb.cleanAttributes mu w = Ok None w' ∧
    customers w' = customers w ∧
    addresses w' = foldr delete (addresses w) (AddressIDs mu) ∧
    cards w' = foldr delete (cards w) (CardIDs mu) ∧
    cardMem w' = cardMem w ∧ addrMem w' = addrMem w ∧
    faults w' = tail (tail (faults w)).
Proof.
  intros Hq. unfold mongodb.cleanAttributes, bind.
  rewrite RemoveAll_eq. cbv zeta.
  rewrite (lets_through_0 w) by (apply Hq; lia).
  rewrite RemoveAll_eq. cbv zeta.
  cbn [record set_oplog coll_remove String.eqb Ascii.eqb Bool.eqb
       set_addresses set_faults faults].
  rewrite (lets_through_1 w) by (apply Hq; lia).
  eexists. split; [reflexivity|]. done.
Qed.

(** X16: a taken username: when a user stored under another identifier
    than the one drawn for the payload has the username of the payload and
    the store lets the calls through, [CreateUser] returns
    the duplicate-key error of the store and the payload without a
    [UserID]; the user collection is as it was, every nested document that
    was created is removed again and no other address or card is changed;
    but the nested values of the caller have been given the ids of the
    documents that no longer exist. *)
Theorem CreateUser_duplicate_username u w k d :
  let n := length (read_cards (Cards u) w) in
  let m := length (read_addrs (Addresses u) w) in
  let cids := drawn w (S (idpos w)) n in
  let aids := drawn w (S (idpos w) + n) m in
  quiet (n + m + 3) w →
  customers w !! k = Some d → doc_username d = Username u →
  k ≠ gen w (idpos w) →
  ∃ w',
    mongodb.CreateUser u w = Ok (u, Some ErrDuplicateKey) w' ∧
    customers w' = customers w ∧
    (∀ id, id ∈ cids → cards w' !! id = None) ∧
    (∀ id, id ∉ cids → cards w' !! id = cards w !! id) ∧
    (∀ id, id ∈ aids → addresses w' !! id = None) ∧
    (∀ id, id ∉ aids → addresses w' !! id = addresses w !! id) ∧
    read_cards (Cards u) w' =
      zip_with (λ c id, mkCard (Card_Fields c) (bson.Hex id))
        (read_cards (Cards u) w) cids ∧
    read_addrs (Addresses u) w' =
      zip_with (λ a id, mkAddress (Address_Fields a) (bson.Hex id))
        (read_addrs (Addresses u) w) aids.
Proof.
  intros n m cids aids Hq Hk Hname Hne.
  destruct (CreateUser_through u w)
    as (w4 & Hrun & Hcu & Hca & Had & Hfa & Hlog & Hrc & Hra).
  { apply (quiet_le _ (n + m + 3)); [lia|done]. }
  fold n m cids aids in Hrun, Hcu, Hca, Had, Hfa, Hlog, Hrc, Hra.
  rewrite (UpsertId_customers_taken _ _ _ k d) in Hrun; cycle 1.
  { apply (quiet_0 0), (quiet_drop (n + m) 1 w); [done|].
    apply (quiet_le _ (n + m + 3)); [lia|done]. }
  { by rewrite Hcu. }
  { done. }
  { done. }
  unfold bind in Hrun.
  match type of Hrun with context [mongodb.cleanAttributes ?mu ?x] =>
    destruct (cleanAttributes_through mu x)
      as (w' & Hcl & Hcu' & Had' & Hca' & Hcm' & Ham' & _)
  end.
  { apply (quiet_drop (n + m + 1) 2 w).
    - cbn [record set_oplog set_faults faults]. rewrite Hfa. apply tail_drop.
    - apply (quiet_le _ (n + m + 3)); [lia|done]. }
  rewrite Hcl in Hrun. unfold ret in Hrun.
  cbn [record set_oplog set_faults customers addresses cards cardMem addrMem
       AddressIDs CardIDs] in Hcu', Had', Hca', Hcm', Ham'.
  exists w'. split; [exact Hrun|]. split; [by rewrite Hcu'|].
  assert (Hfc : (zip cids (map Card_Fields (read_cards (Cards u) w))).*1 = cids).
  { apply fst_zip. unfold cids. rewrite length_drawn, length_map. fold n. lia. }
  assert (Hfd : (zip aids (map Address_Fields (read_addrs (Addresses u) w))).*1
                = aids).
  { apply fst_zip. unfold aids. rewrite length_drawn, length_map. fold m. lia. }
  split_and!.
  - intros id Hid. rewrite Hca'. by apply lookup_foldr_delete.
  - intros id Hid. rewrite Hca', lookup_foldr_delete_not_elem_of by done.
    rewrite Hca. apply insert_all_notin. by rewrite Hfc.
  - intros id Hid. rewrite Had'. by apply lookup_foldr_delete.
  - intros id Hid. rewrite Had', lookup_foldr_delete_not_elem_of by done.
    rewrite Had. apply insert_all_notin. by rewrite Hfd.
  - rewrite <- Hrc. unfold read_cards. by rewrite Hcm'.
  - rewrite <- Hra. unfold read_addrs. by rewrite Ham'.
Qed.

Lemma CreateUser_duplicate_username_witness :
  ∃ w',
    mongodb.CreateUser sample_user (taken_world [])
      = Ok (sample_user, Some ErrDuplicateKey) w' ∧
    oplog w' =
      [(OpUpsertId "cards" (be_bytes 12 2), None);
       (OpUpsertId "cards" (be_bytes 12 3), None);
       (OpUpsertId "addresses" (be_bytes 12 4), None);
       (OpUpsertId "customers" (be_bytes 12 1), Some ErrDuplicateKey);
       (OpRemoveAll "addresses" [be_bytes 12 4], None);
       (OpRemoveAll "cards" [be_bytes 12 2; be_bytes 12 3], None)] ∧
    customers w' = customers (taken_world []) ∧
    cards w' !! be_bytes 12 2 = None ∧ cards w' !! be_bytes 12 3 = None ∧
    addresses w' !! be_bytes 12 4 = None ∧
    read_cards (Cards sample_user) w' =
      [mkCard "4111" (bson.Hex (be_bytes 12 2));
       mkCard "5500" (bson.Hex (be_bytes 12 3))] ∧
    read_addrs (Addresses sample_user) w' =
      [mkAddress "X" (bson.Hex (be_bytes 12 4))].
Proof.
  destruct (CreateUser_duplicate_username sample_user (taken_world []) bob_id
              (mkUserDoc "alice" "pb" [] []))
    as (w' & Hrun & Hcu & Hc & _ & Ha & _ & Hrc & Hra).
  - intros i _ e. cbn [taken_world sample_world set_customers faults].
    by rewrite lookup_nil.
  - reflexivity.
  - reflexivity.
  - discriminate.
  - assert (Hlog : run_log (mongodb.CreateUser sample_user (taken_world [])) =
      [(OpUpsertId "cards" (be_bytes 12 2), None);
       (OpUpsertId "cards" (be_bytes 12 3), None);
       (OpUpsertId "addresses" (be_bytes 12 4), None);
       (OpUpsertId "customers" (be_bytes 12 1), Some ErrDuplicateKey);
       (OpRemoveAll "addresses" [be_bytes 12 4], None);
       (OpRemoveAll "cards" [be_bytes 12 2; be_bytes 12 3], None)])
      by (vm_compute; reflexivity).
    rewrite Hrun in Hlog. cbn [run_log] in Hlog.
    exists w'. split; [exact Hrun|]. split; [exact Hlog|].
    split; [exact Hcu|]. split_and!.
    + apply Hc. apply elem_of_cons. by left.
    + apply Hc. apply elem_of_cons. right. apply elem_of_cons. by left.
    + apply Ha. apply elem_of_cons. by left.
    + rewrite Hrc. reflexivity.
    + rewrite Hra. reflexivity.
Defined.

(** ** The listings *)

Lemma foldl_snoc_map {A B} (f : A → B) (l : list A) : ∀ acc,
  foldl (λ acc x, acc ++ [f x]) acc l = acc ++ map f l.
Proof.
  induction l as [|x l IH]; intros acc; cbn; [by rewrite app_nil_r|].
  by rewrite IH, <- app_assoc.
Qed.

Lemma db_scan_eq {A} (run : World → A + error) w :
  let w1 := set_faults (tail (faults w)) w in
  db_scan run w =
    match default None (head (faults w)) with
    | Some e => Ok (inr e) w1
    | None => Ok (run w1) w1
    end.
Proof. reflexivity. Qed.

Lemma GetCards_eq w :
  mongodb.GetCards w =
    Ok (match default None (head (faults w)) with
        | Some e => ([], Some e)
        | None => (map hydrate_card (map_to_list (cards w)), None)
        end) (set_faults (tail (faults w)) w).
Proof.
  unfold mongodb.GetCards, bind, FindAll_cards. rewrite db_scan_eq. cbv zeta.
  destruct (default None (head (faults w))) as [e|]; [done|].
  unfold ret. cbn [err_of set_faults cards]. rewrite foldl_snoc_map.
  cbn [app]. by rewrite map_map.
Qed.

Lemma GetAddresses_eq w :
  mongodb.GetAddresses w =
    Ok (match default None (head (faults w)) with
        | Some e => ([], Some e)
        | None => (map hydrate_address (map_to_list (addresses w)), None)
        end) (set_faults (tail (faults w)) w).
Proof.
  unfold mongodb.GetAddresses, bind, FindAll_addresses. rewrite db_scan_eq.
  cbv zeta.
  destruct (default None (head (faults w))) as [e|]; [done|].
  unfold ret. cbn [err_of set_faults addresses]. rewrite foldl_snoc_map.
  cbn [app]. by rewrite map_map.
Qed.

Lemma NoDup_hex_keys {V} (m : gmap bson.ObjectId V) :
  NoDup (map (λ kv, bson.Hex kv.1) (map_to_list m)).
Proof.
  change (NoDup ((bson.Hex ∘ fst) <$> map_to_list m)).
  rewrite (list_fmap_compose fst bson.Hex).
  apply NoDup_fmap_2; [|apply NoDup_fst_map_to_list].
  intros x y. apply Hex_inj.
Qed.

(** X17: [GetCards]: when the store lets the call through it returns,
    without error, every stored card exactly once, with its fields and the
    hex form of its key as id, and leaves the collection as it was; when
    the store fails the call it returns that error with an empty list. *)
Theorem GetCards_lists_every_card w :
  (lets_through 0 w →
   ∃ cs w',
     mongodb.GetCards w = Ok (cs, None) w' ∧
     (∀ c, c ∈ cs ↔
           ∃ id d, cards w !! id = Some d ∧ c = mkCard d (bson.Hex id)) ∧
     NoDup (map Card_ID cs) ∧ length cs = size (cards w) ∧
     cards w' = cards w) ∧
  (∀ e, head (faults w) = Some (Some e) →
        ∃ w', mongodb.GetCards w = Ok ([], Some e) w').
Proof.
  rewrite GetCards_eq. split.
  - intros H0. rewrite (lets_through_0 _ H0). do 2 eexists.
    split; [reflexivity|]. split_and!.
    + intros c. change (map ?f ?l) with (f <$> l). rewrite list_elem_of_fmap.
      split.
      * intros ([id d] & -> & Hin). apply elem_of_map_to_list in Hin.
        by exists id, d.
      * intros (id & d & Hd & ->). exists (id, d). split; [done|].
        by apply elem_of_map_to_list.
    + rewrite map_map. apply NoDup_hex_keys.
    + by rewrite length_map, length_map_to_list.
    + done.
  - intros e He. rewrite He. cbn. eauto.
Qed.

Lemma GetCards_lists_every_card_witness :
  ∃ cs w',
    mongodb.GetCards (shared_world []) = Ok (cs, None) w' ∧
    mkCard "4111" (bson.Hex card_id) ∈ cs ∧ length cs = 1%nat.
Proof.
  destruct (GetCards_lists_every_card (shared_world [])) as [H _].
  destruct H as (cs & w' & Hrun & Hin & _ & Hlen & _).
  - intros e. discriminate.
  - exists cs, w'. split; [exact Hrun|]. split; [|exact Hlen].
    apply Hin. exists card_id, "4111". split; reflexivity.
Defined.

(** X18: [GetAddresses]: when the store lets the call through it
    returns, without error, every stored address exactly once, with its
    fields and the hex form of its key as id, and leaves the collection as
    it was; when the store fails the call it returns that error with an
    empty list. *)
Theorem GetAddresses_lists_every_address w :
  (lets_through 0 w →
   ∃ xs w',
     mongodb.GetAddresses w = Ok (xs, None) w' ∧
     (∀ a, a ∈ xs ↔
           ∃ id d, addresses w !! id = Some d ∧ a = mkAddress d (bson.Hex id)) ∧
     NoDup (map Address_ID xs) ∧ length xs = size (addresses w) ∧
     addresses w' = addresses w) ∧
  (∀ e, head (faults w) = Some (Some e) →
        ∃ w', mongodb.GetAddresses w = Ok ([], Some e) w').
Proof.
  rewrite GetAddresses_eq. split.
  - intros H0. rewrite (lets_through_0 _ H0). do 2 eexists.
    split; [reflexivity|]. split_and!.
    + intros c. change (map ?f ?l) with (f <$> l). rewrite list_elem_of_fmap.
      split.
      * intros ([id d] & -> & Hin). apply elem_of_map_to_list in Hin.
        by exists id, d.
      * intros (id & d & Hd & ->). exists (id, d). split; [done|].
        by apply elem_of_map_to_list.
    + rewrite map_map. apply NoDup_hex_keys.
    + by rewrite length_map, length_map_to_list.
    + done.
  - intros e He. rewrite He. cbn. eauto.
Qed.

Lemma GetAddresses_lists_every_address_witness :
  ∃ xs w',
    mongodb.GetAddresses (shared_world []) = Ok (xs, None) w' ∧
    mkAddress "X" (bson.Hex stored_id) ∈ xs ∧ length xs = 1%nat.
Proof.
  destruct (GetAddresses_lists_every_address (shared_world [])) as [H _].
  destruct H as (xs & w' & Hrun & Hin & _ & Hlen & _).
  - intros e. discriminate.
  - exists xs, w'. split; [exact Hrun|]. split; [|exact Hlen].
    apply Hin. exists stored_id, "X". split; reflexivity.
Defined.

Lemma insert_fresh_subseteq {A} (m : gmap loc A) (x : A) :
  m ⊆ <[fresh (dom m) := x]> m.
Proof. apply insert_subseteq, not_elem_of_dom, is_fresh. Qed.

(** [AddUserIDs] on a wrapper whose two slices are [nil]. *)
Lemma AddUserIDs_nil mu w :
  Addresses (MongoUser_User mu) = None →
  Cards (MongoUser_User mu) = None →
  ∃ la lc w',
    mongodb.AddUserIDs mu w =
      Ok (mkMongoUser
            (mkUser (Username (MongoUser_User mu)) (Profile (MongoUser_User mu))
               (Some la) (Some lc) (bson.Hex (MongoUser_ID mu)))
            (MongoUser_ID mu) (AddressIDs mu) (CardIDs mu)) w' ∧
    addrMem w' !! la =
      Some (map (λ id, mkAddress "" (bson.Hex id)) (AddressIDs mu)) ∧
    cardMem w' !! lc = Some (map (λ id, mkCard "" (bson.Hex id)) (CardIDs mu)) ∧
    addrMem w ⊆ addrMem w' ∧ cardMem w ⊆ cardMem w' ∧
    mem_only w w'.
Proof.
  intros Ha Hc. unfold mongodb.AddUserIDs. rewrite Ha, Hc.
  unfold bind, ret, mongodb.append_addrs, mongodb.append_cards, mem_only.
  destruct (AddressIDs mu) as [|i1 l1]; destruct (CardIDs mu) as [|i2 l2];
    cbn [map]; unfold new_addrs, new_cards, read_addrs, read_cards;
    cbn [set_addrMem set_cardMem customers addresses cards others cardMem
         addrMem faults idsrc idpos oplog];
    rewrite ?lookup_insert_eq; cbn [default app];
    do 3 eexists; (split; [reflexivity|]);
    cbn [set_addrMem set_cardMem customers addresses cards others cardMem
         addrMem faults idsrc idpos oplog];
    rewrite ?lookup_insert_eq;
    (split; [reflexivity|]); (split; [reflexivity|]);
    (split; [|split; [|auto 10]]);
    repeat (etrans; [|apply insert_fresh_subseteq]); done.
Qed.

Lemma listed_mono w w' u kv :
  addrMem w ⊆ addrMem w' → cardMem w ⊆ cardMem w' →
  allocated w u → listed w u kv → allocated w' u ∧ listed w' u kv.
Proof.
  intros Ha Hc [(la & Hla & [xa Hxa]) (lc & Hlc & [xc Hxc])]
    (H1 & H2 & H3 & H4 & H5).
  pose proof (lookup_weaken _ _ _ _ Hxa Ha) as Hxa'.
  pose proof (lookup_weaken _ _ _ _ Hxc Hc) as Hxc'.
  split.
  - split; [exists la | exists lc]; eauto.
  - unfold listed. rewrite Hla, Hlc in *. unfold read_addrs, read_cards in *.
    rewrite Hxa in H4. rewrite Hxc in H5. rewrite Hxa', Hxc'. done.
Qed.

Lemma GetUsers_range_run (docs : list (bson.ObjectId * UserDoc)) :
  ∀ us w,
  ∃ us' w',
    mongodb.GetUsers_range
      (map (λ kv, unmarshalUser kv.1 kv.2 mongodb.zero_MongoUser) docs) us w =
      Ok (us ++ us') w' ∧
    Forall2 (λ u kv, allocated w' u ∧ listed w' u kv) us' docs ∧
    addrMem w ⊆ addrMem w' ∧ cardMem w ⊆ cardMem w' ∧ mem_only w w'.
Proof.
  induction docs as [|[k d] docs IH]; intros us w.
  - exists [], w. cbn. unfold ret. rewrite app_nil_r.
    split_and!; try done; unfold mem_only; auto 10.
  - cbn [map mongodb.GetUsers_range]. unfold bind.
    destruct (AddUserIDs_nil
                (unmarshalUser k d mongodb.zero_MongoUser) w)
      as (la & lc & w1 & Hrun & Hla & Hlc & Ha1 & Hc1 & Hm1);
      [done|done|].
    cbn [fst snd]. rewrite Hrun. cbn [MongoUser_User].
    match goal with |- context [us ++ [?x]] => set (u1 := x) end.
    destruct (IH (us ++ [u1]) w1) as (us' & w' & Hrest & HF & Ha & Hc & Hm).
    exists (u1 :: us'), w'. rewrite Hrest, <- app_assoc.
    split; [done|]. split_and!.
    + constructor; [|done].
      apply (listed_mono w1 w'); [done|done| |].
      * split; [exists la | exists lc]; eauto.
      * unfold listed, u1, read_addrs, read_cards.
        cbn [UserID Username Profile Addresses Cards fst snd unmarshalUser
             MongoUser_User MongoUser_ID AddressIDs CardIDs] in *.
        by rewrite Hla, Hlc.
    + by etrans.
    + by etrans.
    + unfold mem_only in *.
      destruct Hm1 as (E1 & E2 & E3 & E4 & E5 & E6 & E7 & E8).
      destruct Hm as (F1 & F2 & F3 & F4 & F5 & F6 & F7 & F8).
      rewrite F1, F2, F3, F4, F5, F6, F7, F8. auto 10.
Qed.

(** X19: [GetUsers]: when the store lets the call through it returns,
    without error, one user per stored document, no [UserID] twice, each
    with the hex form of the key as [UserID], the username and profile of
    the document and one stub per reference (the nested values are not
    hydrated); when the store fails the call it returns that error with an
    empty list. *)
Theorem GetUsers_lists_every_user w :
  (lets_through 0 w →
   ∃ us w',
     mongodb.GetUsers w = Ok (us, None) w' ∧
     Forall2 (listed w') us (map_to_list (customers w)) ∧
     NoDup (map UserID us) ∧ length us = size (customers w) ∧
     customers w' = customers w) ∧
  (∀ e, head (faults w) = Some (Some e) →
        ∃ w', mongodb.GetUsers w = Ok ([], Some e) w').
Proof.
  unfold mongodb.GetUsers, bind, FindAll_customers. rewrite db_scan_eq.
  cbv zeta. split.
  - intros H0. rewrite (lets_through_0 _ H0). cbn [set_faults customers].
    destruct (GetUsers_range_run (map_to_list (customers w)) []
                (set_faults (tail (faults w)) w))
      as (us & w' & Hrun & HF & _ & _ & Hm).
    rewrite Hrun. cbn [app err_of]. unfold ret. exists us, w'.
    split; [done|].
    assert (HF' : Forall2 (listed w') us (map_to_list (customers w))).
    { eapply Forall2_impl; [exact HF|]. by intros u kv [_ H]. }
    split; [exact HF'|]. split_and!.
    + assert (map UserID us =
              map (λ kv, bson.Hex kv.1) (map_to_list (customers w))) as ->.
      { clear -HF'. induction HF' as [|u kv us kvs (H & _) _ IH]; [done|].
        cbn. by rewrite H, IH. }
      apply NoDup_hex_keys.
    + rewrite (Forall2_length _ _ _ HF'). apply length_map_to_list.
    + by destruct Hm as (-> & _).
  - intros e He. rewrite He. cbn. unfold ret. eauto.
Qed.

Lemma GetUsers_lists_every_user_witness :
  ∃ us w',
    mongodb.GetUsers (shared_world []) = Ok (us, None) w' ∧
    length us = 2%nat.
Proof.
  destruct (GetUsers_lists_every_user (shared_world [])) as [H _].
  destruct H as (us & w' & Hrun & _ & _ & Hlen & _).
  - intros e. discriminate.
  - exists us, w'. split; [exact Hrun|]. rewrite Hlen. vm_compute. reflexivity.
Defined.

(** ** GetUserAttributes as a read *)

Lemma lets_through_0_iff w :
  lets_through 0 w ↔ default None (head (faults w)) = None.
Proof.
  split; [apply lets_through_0|]. intros H e He.
  rewrite <- head_lookup in He. by rewrite He in H.
Qed.

Lemma lets_through_1_iff w :
  lets_through 1 w ↔ default None (head (tail (faults w))) = None.
Proof.
  split; [apply lets_through_1|]. intros H e He.
  rewrite <- lookup_tail, <- head_lookup in He. by rewrite He in H.
Qed.

(** Every outcome of [GetUserAttributes]. *)
Lemma GetUserAttributes_total u w :
  ∃ u' err w',
    mongodb.GetUserAttributes u w = Ok (u', err) w' ∧
    customers w' = customers w ∧ addresses w' = addresses w ∧
    cards w' = cards w ∧
    Username u' = Username u ∧ Profile u' = Profile u ∧ UserID u' = UserID u ∧
    addrMem w ⊆ addrMem w' ∧ cardMem w ⊆ cardMem w' ∧
    (err ≠ None → Cards u' = Cards u ∧ cardMem w' = cardMem w) ∧
    (err = None →
     address_refs_ok u w ∧ card_refs_ok u w ∧
     lets_through 0 w ∧ lets_through 1 w).
Proof.
  destruct (decide (address_refs_ok u w)) as [Hoka|Hbad]; cycle 1.
  { rewrite (GetUserAttributes_address_malformed u w Hbad).
    do 3 eexists. split; [reflexivity|]. split_and!; try done. }
  destruct (default None (head (faults w))) as [e|] eqn:Hf.
  { destruct (checked_ids_ok (map Address_ID (read_addrs (Addresses u) w)) [] w)
      as (aids & Hids & _).
    { by apply Forall_fmap. }
    unfold mongodb.GetUserAttributes. unfold bind at 1. unfold bind at 1.
    rewrite Hids. cbn [app]. unfold bind at 1. unfold FindIn_addresses.
    rewrite db_read_eq, Hf. unfold ret.
    do 3 eexists. split; [reflexivity|]. split_and!; try done. }
  assert (H0 : lets_through 0 w) by (by apply lets_through_0_iff).
  destruct (GetUserAttributes_addresses u w Hoka H0) as (aids & _ & Hrun).
  cbv zeta in Hrun. rewrite Hrun. clear Hrun.
  match goal with |- context [bind _ _ ?x] => set (w1 := x) end.
  assert (Hsub : addrMem w ⊆ addrMem w1) by apply insert_fresh_subseteq.
  destruct (decide (card_refs_ok u w)) as [Hokc|Hbad]; cycle 1.
  { unfold bind at 1. rewrite checked_ids_bad; cycle 1.
    { apply Exists_fmap. apply (not_Forall_Exists _) in Hbad.
      eapply Exists_impl; [exact Hbad|]. simpl. intros c Hc.
      by destruct (bson.IsObjectIdHex (Card_ID c)). }
    unfold ret. do 3 eexists. split; [reflexivity|]. split_and!; try done. }
  destruct (checked_ids_ok (map Card_ID (read_cards (Cards u) w)) [] w1)
    as (cids & Hids & _).
  { by apply Forall_fmap. }
  unfold bind at 1. rewrite Hids. cbn [app]. unfold bind at 1.
  unfold FindIn_cards. rewrite db_read_eq.
  unfold w1 at 1. cbn [faults].
  destruct (default None (head (tail (faults w)))) as [e|] eqn:Hf1.
  { unfold ret. do 3 eexists. split; [reflexivity|]. split_and!; try done. }
  cbv beta iota zeta. unfold bind at 1. unfold new_cards, ret.
  do 3 eexists. split; [reflexivity|].
  cbn [record set_oplog set_faults set_cardMem customers addresses cards
       cardMem addrMem Username Profile UserID].
  split_and!; try done.
  - apply insert_fresh_subseteq.
  - intros _. split_and!; try done. by apply lets_through_1_iff.
Qed.

(** X20: [GetUserAttributes] only reads: on every user value and in
    every world, whatever the store does, it returns (it never panics, on
    malformed references either), the three collections are as they were,
    the user keeps its username, profile and [UserID], and every backing
    array of the process keeps its contents: the hydrated values go to new
    arrays, the arrays behind the slices of the caller are not written. *)
Theorem GetUserAttributes_reads_only u w :
  ∃ u' err w',
    mongodb.GetUserAttributes u w = Ok (u', err) w' ∧
    customers w' = customers w ∧ addresses w' = addresses w ∧
    cards w' = cards w ∧
    Username u' = Username u ∧ Profile u' = Profile u ∧ UserID u' = UserID u ∧
    addrMem w ⊆ addrMem w' ∧ cardMem w ⊆ cardMem w'.
Proof.
  destruct (GetUserAttributes_total u w)
    as (u' & err & w' & H1 & H2 & H3 & H4 & H5 & H6 & H7 & H8 & H9 & _).
  exists u', err, w'. by split_and!.
Qed.

Lemma filter_ext_elem {A} (P Q : A → Prop) `{∀ x, Decision (P x)}
    `{∀ x, Decision (Q x)} (l : list A) :
  (∀ x, x ∈ l → (P x ↔ Q x)) → filter P l = filter Q l.
Proof.
  induction l as [|x l IH]; intros Hext; [done|].
  rewrite !filter_cons.
  assert (Hl : filter P l = filter Q l).
  { apply IH. intros y Hy. apply Hext. by right. }
  destruct (decide (P x)) as [HP|HP], (decide (Q x)) as [HQ|HQ];
    rewrite ?Hl; try done; exfalso.
  - apply HQ, Hext; [by left|done].
  - apply HP, Hext; [by left|done].
Qed.

Lemma docs_in_keys ids (m : gmap bson.ObjectId string) :
  docs_in (docs_in ids m).*1 m = docs_in ids m.
Proof.
  unfold docs_in. apply filter_ext_elem. intros [k d] Hkd. cbn. split.
  - intros Hin. apply list_elem_of_fmap in Hin as ([k' d'] & Hk & Hin).
    cbn in Hk. subst k'. by apply list_elem_of_filter in Hin as [Hin _].
  - intros Hin. apply list_elem_of_fmap. exists (k, d). split; [done|].
    by apply list_elem_of_filter.
Qed.

Lemma docs_in_Valid ids (m : gmap bson.ObjectId string) :
  Forall bson.Valid ids → Forall bson.Valid (docs_in ids m).*1.
Proof.
  intros Hv. apply Forall_forall. intros k Hk.
  apply list_elem_of_fmap in Hk as ([k' d'] & -> & Hin).
  apply list_elem_of_filter in Hin as [Hin _]. cbn in *.
  by apply (proj1 (Forall_forall _ _) Hv).
Qed.

Lemma decoded_Valid {A} (f : A → string) (l : list A) ids :
  Forall2 (λ a id, bson.ObjectIdHex (f a) = Some id) l ids →
  Forall bson.Valid ids.
Proof.
  induction 1 as [|a id l ids Ha _ IH]; constructor; [|done].
  by apply IsObjectIdHex_of_ObjectIdHex in Ha as [_ Hv].
Qed.

Lemma hydrated_addr_refs docs ids :
  Forall bson.Valid docs.*1 →
  Forall2 (λ a id, bson.ObjectIdHex (Address_ID a) = Some id)
    (map hydrate_address docs) ids →
  ids = docs.*1.
Proof.
  revert ids. induction docs as [|[k d] docs IH]; intros ids Hv HF.
  - by apply Forall2_nil_inv_l in HF.
  - cbn [map] in HF. cbn [fmap list_fmap fst] in Hv.
    apply Forall_cons in Hv as [Hk Hv].
    apply Forall2_cons_inv_l in HF as (x & xs & Hx & HF & ->).
    cbn [hydrate_address hydrate_card Address_ID Card_ID fst] in Hx.
    rewrite (ObjectIdHex_Hex _ Hk) in Hx. injection Hx as <-.
    cbn [fmap list_fmap fst]. f_equal. by apply IH.
Qed.

Lemma hydrated_card_refs docs ids :
  Forall bson.Valid docs.*1 →
  Forall2 (λ a id, bson.ObjectIdHex (Card_ID a) = Some id)
    (map hydrate_card docs) ids →
  ids = docs.*1.
Proof.
  revert ids. induction docs as [|[k d] docs IH]; intros ids Hv HF.
  - by apply Forall2_nil_inv_l in HF.
  - cbn [map] in HF. cbn [fmap list_fmap fst] in Hv.
    apply Forall_cons in Hv as [Hk Hv].
    apply Forall2_cons_inv_l in HF as (x & xs & Hx & HF & ->).
    cbn [hydrate_address hydrate_card Address_ID Card_ID fst] in Hx.
    rewrite (ObjectIdHex_Hex _ Hk) in Hx. injection Hx as <-.
    cbn [fmap list_fmap fst]. f_equal. by apply IH.
Qed.

Lemma hydrated_addr_ok docs :
  Forall bson.Valid docs.*1 →
  Forall (λ a, bson.IsObjectIdHex (Address_ID a) = true)
    (map hydrate_address docs).
Proof.
  intros Hv. apply Forall_forall. intros a Ha.
  apply list_elem_of_In, in_map_iff in Ha as ([k d] & <- & Hin). cbn.
  apply IsObjectIdHex_Hex. apply (proj1 (Forall_forall _ _) Hv).
  apply list_elem_of_fmap. exists (k, d). split; [done|].
  by apply list_elem_of_In.
Qed.

Lemma hydrated_card_ok docs :
  Forall bson.Valid docs.*1 →
  Forall (λ a, bson.IsObjectIdHex (Card_ID a) = true)
    (map hydrate_card docs).
Proof.
  intros Hv. apply Forall_forall. intros a Ha.
  apply list_elem_of_In, in_map_iff in Ha as ([k d] & <- & Hin). cbn.
  apply IsObjectIdHex_Hex. apply (proj1 (Forall_forall _ _) Hv).
  apply list_elem_of_fmap. exists (k, d). split; [done|].
  by apply list_elem_of_In.
Qed.

(** A successful run of [GetUserAttributes], with the identifiers its
    references decode to. *)
Lemma GetUserAttributes_success u w h w' :
  mongodb.GetUserAttributes u w = Ok (h, None) w' →
  ∃ aids cids,
    Forall2 (λ a id, bson.ObjectIdHex (Address_ID a) = Some id)
      (read_addrs (Addresses u) w) aids ∧
    Forall2 (λ c id, bson.ObjectIdHex (Card_ID c) = Some id)
      (read_cards (Cards u) w) cids ∧
    read_addrs (Addresses h) w' =
      map hydrate_address (docs_in aids (addresses w)) ∧
    read_cards (Cards h) w' = map hydrate_card (docs_in cids (cards w)) ∧
    addresses w' = addresses w ∧ cards w' = cards w ∧
    Username h = Username u ∧ Profile h = Profile u ∧ UserID h = UserID u.
Proof.
  intros Hrun.
  destruct (GetUserAttributes_total u w)
    as (u' & err & w'' & Hrun' & _ & _ & _ & _ & _ & _ & _ & _ & _ & Hinv).
  rewrite Hrun in Hrun'. injection Hrun' as <- <- <-.
  destruct (Hinv eq_refl) as (Hoka & Hokc & H0 & H1).
  destruct (GetUserAttributes_ok u w Hoka Hokc H0 H1)
    as (aids & cids & HFa & HFc & Hrun').
  cbv zeta in Hrun'. rewrite Hrun in Hrun'. injection Hrun' as -> ->.
  exists aids, cids. split; [done|]. split; [done|].
  cbn [read_addrs read_cards Addresses Cards addrMem cardMem addresses cards
       Username Profile UserID].
  rewrite !lookup_insert_eq. by split_and!.
Qed.

(** X21: hydration is idempotent: on the user value a successful
    [GetUserAttributes] returned, a second [GetUserAttributes] (the store
    letting its two queries through) succeeds and returns the same
    addresses and the same cards. *)
Theorem GetUserAttributes_idempotent u w h w' :
  mongodb.GetUserAttributes u w = Ok (h, None) w' →
  lets_through 0 w' → lets_through 1 w' →
  ∃ h2 w'',
    mongodb.GetUserAttributes h w' = Ok (h2, None) w'' ∧
    read_addrs (Addresses h2) w'' = read_addrs (Addresses h) w' ∧
    read_cards (Cards h2) w'' = read_cards (Cards h) w'.
Proof.
  intros Hrun H0 H1.
  destruct (GetUserAttributes_success u w h w' Hrun)
    as (aids & cids & HFa & HFc & Hra & Hrc & Had & Hca & _).
  assert (Hva : Forall bson.Valid (docs_in aids (addresses w)).*1).
  { apply docs_in_Valid. eapply decoded_Valid, HFa. }
  assert (Hvc : Forall bson.Valid (docs_in cids (cards w)).*1).
  { apply docs_in_Valid. eapply decoded_Valid, HFc. }
  destruct (GetUserAttributes_ok h w')
    as (aids2 & cids2 & HFa2 & HFc2 & Hrun2); [| |done|done| ].
  { unfold address_refs_ok. rewrite Hra. by apply hydrated_addr_ok. }
  { unfold card_refs_ok. rewrite Hrc. by apply hydrated_card_ok. }
  cbv zeta in Hrun2. rewrite Hra in HFa2. rewrite Hrc in HFc2.
  apply hydrated_addr_refs in HFa2; [|done].
  apply hydrated_card_refs in HFc2; [|done]. subst aids2 cids2.
  do 2 eexists. split; [exact Hrun2|].
  cbn [read_addrs read_cards Addresses Cards addrMem cardMem].
  rewrite !lookup_insert_eq. cbn [default]. unfold Datatypes.id.
  rewrite Had, Hca, !docs_in_keys. by rewrite Hra, Hrc.
Qed.

Lemma GetUserAttributes_idempotent_witness :
  ∃ h w' h2 w'',
    mongodb.GetUserAttributes shared_user (shared_world []) = Ok (h, None) w' ∧
    mongodb.GetUserAttributes h w' = Ok (h2, None) w'' ∧
    read_addrs (Addresses h2) w'' = read_addrs (Addresses h) w' ∧
    read_cards (Cards h2) w'' = read_cards (Cards h) w'.
Proof.
  assert (He : run_error (mongodb.GetUserAttributes shared_user
                            (shared_world [])) = None)
    by (vm_compute; reflexivity).
  assert (Hf : faults (run_world (mongodb.GetUserAttributes shared_user
                                    (shared_world []))) = [])
    by (vm_compute; reflexivity).
  destruct (mongodb.GetUserAttributes shared_user (shared_world []))
    as [[h e] w'|msg w'] eqn:Hrun.
  - cbn in He, Hf. subst e.
    destruct (GetUserAttributes_idempotent shared_user (shared_world []) h w'
                Hrun) as (h2 & w'' & Hrun2 & Ha & Hc).
    + intros e. rewrite Hf. by rewrite lookup_nil.
    + intros e. rewrite Hf. by rewrite lookup_nil.
    + exists h, w', h2, w''. by split_and!.
  - discriminate.
Defined.

Lemma NoDup_docs_in_keys ids (m : gmap bson.ObjectId string) :
  NoDup (docs_in ids m).*1.
Proof.
  unfold docs_in. eapply sublist_NoDup; [exact (NoDup_fst_map_to_list m)|].
  apply fmap_sublist, sublist_filter.
Qed.

Lemma length_docs_in ids (m : gmap bson.ObjectId string) :
  length (docs_in ids m) ≤ length ids.
Proof.
  rewrite <- (length_fmap fst). apply submseteq_length, NoDup_submseteq.
  - apply NoDup_docs_in_keys.
  - intros k Hk. apply list_elem_of_fmap in Hk as ([k' d] & -> & Hin).
    by apply list_elem_of_filter in Hin as [Hin _].
Qed.

(** X22: a successful [GetUserAttributes] returns no id twice, also when
    the references of the user name a document more than once, and never
    more addresses or cards than the user had references. *)
Theorem GetUserAttributes_dedups u w h w' :
  mongodb.GetUserAttributes u w = Ok (h, None) w' →
  NoDup (map Address_ID (read_addrs (Addresses h) w')) ∧
  NoDup (map Card_ID (read_cards (Cards h) w')) ∧
  length (read_addrs (Addresses h) w') ≤ length (read_addrs (Addresses u) w) ∧
  length (read_cards (Cards h) w') ≤ length (read_cards (Cards u) w).
Proof.
  intros Hrun.
  destruct (GetUserAttributes_success u w h w' Hrun)
    as (aids & cids & HFa & HFc & -> & -> & _).
  rewrite !map_map, !length_map.
  rewrite (Forall2_length _ _ _ HFa), (Forall2_length _ _ _ HFc).
  split_and!; try apply length_docs_in.
  - change (NoDup ((bson.Hex ∘ fst) <$> docs_in aids (addresses w))).
    rewrite (list_fmap_compose fst bson.Hex).
    apply NoDup_fmap_2; [|apply NoDup_docs_in_keys]. intros x y. apply Hex_inj.
  - change (NoDup ((bson.Hex ∘ fst) <$> docs_in cids (cards w))).
    rewrite (list_fmap_compose fst bson.Hex).
    apply NoDup_fmap_2; [|apply NoDup_docs_in_keys]. intros x y. apply Hex_inj.
Qed.

Lemma GetUserAttributes_dedups_witness :
  ∃ h w',
    mongodb.GetUserAttributes shared_user (shared_world []) = Ok (h, None) w' ∧
    length (read_cards (Cards shared_user) (shared_world [])) = 2%nat ∧
    length (read_cards (Cards h) w') ≤ 2 ∧
    NoDup (map Card_ID (read_cards (Cards h) w')).
Proof.
  assert (He : run_error (mongodb.GetUserAttributes shared_user
                            (shared_world [])) = None)
    by (vm_compute; reflexivity).
  destruct (mongodb.GetUserAttributes shared_user (shared_world []))
    as [[h e] w'|msg w'] eqn:Hrun.
  - cbn in He. subst e.
    destruct (GetUserAttributes_dedups shared_user (shared_world []) h w' Hrun)
      as (_ & Hnd & _ & Hlen).
    exists h, w'. split; [reflexivity|]. split; [reflexivity|].
    split; [exact Hlen|exact Hnd].
  - discriminate.
Defined.

(** ** The endpoints *)

Lemma append_id_cases logArgs request w :
  (∃ req id, request = api.VGetRequest req ∧
     api.append_id logArgs request w =
       Ok (logArgs ++ [api.VString "id"; api.VString id]) w) ∨
  (∃ msg, api.append_id logArgs request w = Panic msg w ∧
     ∀ req, request ≠ api.VGetRequest req).
Proof.
  destruct request; try (right; eexists; split; [reflexivity|done]).
  left. do 2 eexists. split; reflexivity.
Qed.

(** X23: [appendRequestFields], whenever it returns: the log arguments
    it was given are a prefix of its result, what it adds is a sequence of
    key/value pairs whose keys are strings, and no pair with the key
    ["result"] is added when the call being logged failed. *)
Theorem appendRequestFields_appends_pairs
    logArgs method request response err w r w' :
  api.appendRequestFields logArgs method request response err w = Ok r w' →
  w' = w ∧
  ∃ ext, r = logArgs ++ ext ∧ keyvals ext = true ∧
         (err ≠ None → api.VString "result" ∉ log_keys ext).
Proof.
  unfold api.appendRequestFields.
  assert (Hnil : ∀ l : list api.value, l = l ++ []) by
    (intros l; by rewrite app_nil_r).
  assert (Hno : ∀ k v, k ≠ "result" →
            api.VString "result" ∉ log_keys [api.VString k; v]).
  { intros k v Hk Hin. apply list_elem_of_singleton in Hin. congruence. }
  destruct (String.eqb method "GetUsers").
  { unfold bind.
    destruct (append_id_cases logArgs request w)
      as [(req & id & -> & ->)|(msg & -> & _)]; [|done].
    destruct err as [e|].
    - intros [= <- <-]. split; [done|]. eexists. split; [done|].
      split; [done|]. intros _. by apply Hno.
    - destruct response as [| |[]|u| | | | | |]; unfold ret;
        try destruct (negb _);
        intros [= <- <-]; (split; [done|]); rewrite <- ?app_assoc;
        (eexists; split; [reflexivity|]); done. }
  destruct (String.eqb method "GetAddresses").
  { unfold bind.
    destruct (append_id_cases logArgs request w)
      as [(req & id & -> & ->)|(msg & -> & _)]; [|done].
    destruct err as [e|].
    - intros [= <- <-]. split; [done|]. eexists. split; [done|].
      split; [done|]. intros _. by apply Hno.
    - destruct response as [| |[]|u| | | | | |]; unfold ret;
        intros [= <- <-]; (split; [done|]); rewrite <- ?app_assoc;
        (eexists; split; [reflexivity|]); done. }
  destruct (String.eqb method "GetCards").
  { unfold bind.
    destruct (append_id_cases logArgs request w)
      as [(req & id & -> & ->)|(msg & -> & _)]; [|done].
    destruct err as [e|].
    - intros [= <- <-]. split; [done|]. eexists. split; [done|].
      split; [done|]. intros _. by apply Hno.
    - destruct response as [| |[]|u| | | | | |]; unfold ret;
        intros [= <- <-]; (split; [done|]); rewrite <- ?app_assoc;
        (eexists; split; [reflexivity|]); done. }
  destruct (_ || _).
  { destruct err as [e|].
    - intros [= <- <-]. split; [done|]. exists []. split; [apply Hnil|].
      split; [done|]. intros _. apply not_elem_of_nil.
    - destruct response; unfold ret; intros [= <- <-]; (split; [done|]);
        try (exists []; split; [apply Hnil|done]).
      eexists. split; [reflexivity|]. done. }
  destruct (String.eqb method "Delete").
  { unfold bind. destruct request; try done. cbn [api.as_deleteRequest].
    unfold ret at 1.
    destruct err as [e|].
    - intros [= <- <-]. split; [done|]. eexists. split; [done|].
      split; [done|]. intros _ Hin. cbn in Hin.
      repeat (apply elem_of_cons in Hin as [Hin|Hin]; [congruence|]).
      by apply elem_of_nil in Hin.
    - destruct response; unfold ret; intros [= <- <-]; (split; [done|]);
        rewrite <- ?app_assoc; (eexists; split; [reflexivity|]); done. }
  intros [= <- <-]. split; [done|]. exists []. split; [apply Hnil|].
  split; [done|]. intros _. apply not_elem_of_nil.
Qed.

(** X24: the customers endpoint over the MongoDB layer never reports a
    failed hydration: for any implementation of the service, when
    [s.GetUsers] returns, the endpoint returns the error of [s.GetUsers]
    and nothing else, having left the collections as [s.GetUsers] left
    them; for a single-user request that found a user the response is built
    from whatever [GetUserAttributes] left in the user value, its error
    being dropped. *)
Theorem UserGetEndpoint_drops_hydration_error
    (s_GetUsers : string → M (list User * option error)) req w us err w1 :
  s_GetUsers (api.GetRequest_ID req) w = Ok (us, err) w1 →
  ∃ resp w',
    api.MakeUserGetEndpoint s_GetUsers mongodb.GetUserAttributes
      (api.VGetRequest req) w = Ok (resp, err) w' ∧
    customers w' = customers w1 ∧ addresses w' = addresses w1 ∧
    cards w' = cards w1 ∧
    (api.GetRequest_ID req ≠ "" → ∀ u rest, us = u :: rest →
     ∃ u' e,
       mongodb.GetUserAttributes u w1 = Ok (u', e) w' ∧
       resp = user_response (api.GetRequest_Attr req) u' w').
Proof.
  intros Hs. unfold api.MakeUserGetEndpoint. cbn [api.as_GetRequest].
  unfold bind at 1. unfold ret at 1. unfold bind at 1. rewrite Hs.
  destruct (String.eqb_spec (api.GetRequest_ID req) "") as [Hid|Hid].
  { unfold ret. do 2 eexists. split; [reflexivity|]. by split_and!. }
  destruct us as [|u rest].
  { destruct (String.eqb _ "addresses"); [|destruct (String.eqb _ "cards")];
      unfold ret; (do 2 eexists; split; [reflexivity|]); by split_and!. }
  destruct (GetUserAttributes_total u w1)
    as (u' & e & w' & Hrun & Hcu & Had & Hca & _).
  unfold bind. rewrite Hrun. unfold user_response, ret.
  destruct (String.eqb _ "addresses"); [|destruct (String.eqb _ "cards")];
    (do 2 eexists; split; [reflexivity|]); (split_and!; try done);
    intros _ u0 rest0 [= <- <-]; by exists u', e.
Qed.

Lemma UserGetEndpoint_drops_hydration_error_witness :
  ∃ u' w',
    api.MakeUserGetEndpoint
      (λ _, ret ([mkUser "alice" "" (Some 6%positive) (Some 5%positive) ""],
                 None))
      mongodb.GetUserAttributes
      (api.VGetRequest (api.mkGetRequest "57a98d98e4b00679b4a830af" ""))
      (hydration_world []) = Ok (api.VUser u', None) w' ∧
    mongodb.GetUserAttributes
      (mkUser "alice" "" (Some 6%positive) (Some 5%positive) "")
      (hydration_world []) = Ok (u', Some ErrInvalidHexID) w'.
Proof.
  destruct (UserGetEndpoint_drops_hydration_error
              (λ _, ret ([mkUser "alice" "" (Some 6%positive)
                            (Some 5%positive) ""], None))
              (api.mkGetRequest "57a98d98e4b00679b4a830af" "")
              (hydration_world [])
              [mkUser "alice" "" (Some 6%positive) (Some 5%positive) ""]
              None (hydration_world []))
    as (resp & w' & Hrun & _ & _ & _ & Hresp).
  - reflexivity.
  - destruct (Hresp ltac:(discriminate) _ _ eq_refl) as (u' & e & Hget & ->).
    assert (He : run_error (mongodb.GetUserAttributes
                     (mkUser "alice" "" (Some 6%positive) (Some 5%positive) "")
                     (hydration_world [])) = Some ErrInvalidHexID)
      by (vm_compute; reflexivity).
    rewrite Hget in He. cbn in He. subst e.
    exists u', w'. split; [exact Hrun|exact Hget].
Defined.

Lemma appendRequestFields_appends_pairs_witness :
  ∃ ext,
    [api.VString "method"; api.VString "GetUsers"; api.VString "id";
     api.VString "all"; api.VString "result"; api.VInt 2] =
    [api.VString "method"; api.VString "GetUsers"] ++ ext ∧
    keyvals ext = true.
Proof.
  destruct (appendRequestFields_appends_pairs
              [api.VString "method"; api.VString "GetUsers"] "GetUsers"
              (api.VGetRequest (api.mkGetRequest "" ""))
              (api.VEmbedStruct
                 (api.usersResponse [sample_user; sample_user]))
              None (sample_world [])
              [api.VString "method"; api.VString "GetUsers"; api.VString "id";
               api.VString "all"; api.VString "result"; api.VInt 2]
              (sample_world []))
    as (_ & ext & Hext & Hkv & _).
  - reflexivity.
  - exists ext. split; [exact Hext|exact Hkv].
Defined.
